(** * SpeakToMe browser client: audio capture, transport and upload

    A shallow embedding of the JavaScript client modules

    - [Utils]            (validateAudioFile, getAudioLevel, createEventEmitter,
                          escapeHtml, checkBrowserSupport, retry, throttle,
                          debounce)
    - [WebSocketClient]  (client/js/audio/websocket_client.js)
    - [AudioRecorder]    (client/js/audio/audio_recorder.js)
    - [FileUploader]     (client/js/audio/file_uploader.js)
    - [AudioClient]      (client/js/audio-client.js)
    - [AudioClientV2]    (the client composed from the three modules)
    - [TTSClient]        (the text-to-speech client)

    Object fields become record fields, mutation becomes state passing,
    and what a method hands to the platform (socket sends, fetch requests,
    timers, emitted events) is appended to a log kept next to the state.
    JavaScript numbers that only ever hold integers are [Z]; where the
    code multiplies them, the rounding of doubles is written out
    ([to_double]). *)

From Stdlib Require Import ZArith Ascii String List Reals Lra Lia.
From stdpp Require Import gmap strings list fin_maps pretty.

Open Scope Z_scope.

(** ** JavaScript values *)

(** A [Blob] is an immutable byte sequence with a MIME type; [File]
    adds a name. *)
Record Blob := {
  blob_bytes : list Byte.byte;
  blob_type : string
}.

Definition blob_size (b : Blob) : Z := Z.of_nat (length (blob_bytes b)).

(** [new Blob(parts, {type})]: the parts' bytes, in order. *)
Definition new_Blob (parts : list Blob) (type : string) : Blob :=
  {| blob_bytes := concat (map blob_bytes parts); blob_type := type |}.

Record File := {
  file_name : string;
  file_size : Z;
  file_type : string;
  file_bytes : list Byte.byte
}.

(** [new File([blob], filename, {type})] *)
Definition new_File (blob : Blob) (filename type : string) : File :=
  {| file_name := filename;
     file_size := blob_size blob;
     file_type := type;
     file_bytes := blob_bytes blob |}.

(** The loosely typed values the client passes around: settings, JSON
    bodies, result objects and event payloads.  [VNum] is an integer
    number, [VReal] a number computed in floating point (the audio
    level), read as a real. *)
#[local] Set Warnings "-register-all".
Inductive value :=
| VUndefined
| VNull
| VBool (b : bool)
| VNum (n : Z)
| VNaN
| VReal (r : R)
| VStr (s : string)
| VBlob (b : Blob)
| VArr (l : list value)
| VObj (o : gmap string value).
#[local] Set Warnings "register-all".

Abbreviation obj := (gmap string value).

(** ToBoolean *)
Definition truthy (v : value) : bool :=
  match v with
  | VUndefined | VNull => false
  | VBool b => b
  | VNum n => negb (n =? 0)
  | VNaN => false
  | VReal r => if Req_dec_T r 0 then false else true
  | VStr s => negb (String.eqb s "")
  | VBlob _ | VArr _ | VObj _ => true
  end.

(** [o.k]: a missing property reads as [undefined]. *)
Definition get (o : obj) (k : string) : value := default VUndefined (o !! k).

(** [a || b] *)
Definition or_else (a b : value) : value := if truthy a then a else b.

(** [v === "s"] *)
Definition is_str (v : value) (s : string) : bool :=
  match v with
  | VStr s' => String.eqb s' s
  | _ => false
  end.

(** [!v] *)
Definition falsy (v : value) : bool := negb (truthy v).

(** [{ ...a, ...b }]: the own properties of [b] win. *)
Definition spread (a b : obj) : obj := b ∪ a.

(** [haystack.includes(needle)] on strings *)
Definition includes (haystack needle : string) : bool :=
  match index 0 needle haystack with
  | Some _ => true
  | None => false
  end.

(** [v * k] for an integer [k], on a number, a boolean or [null].
    JavaScript first converts a string or an array to the number it
    spells; that conversion is not modelled and [NaN] stands for the
    product of such a value, on which no property below depends. *)
Definition times (v : value) (k : Z) : value :=
  match v with
  | VNum n => VNum (n * k)
  | VReal r => VReal (r * IZR k)
  | VBool b => VNum (if b then k else 0)
  | VNull => VNum 0
  | _ => VNaN
  end.

(** The base64 text of a byte sequence, as [FileReader.readAsDataURL]
    writes it after the comma of the data URL. *)
Definition alphabet : string :=
  "ABCDEFGHIJKLMNOPQRSTUVWXYZabcdefghijklmnopqrstuvwxyz0123456789+/".

Definition digit64 (n : N) : ascii :=
  default "="%char (String.get (N.to_nat n) alphabet).

Fixpoint base64 (bytes : list Byte.byte) : string :=
  match bytes with
  | [] => ""
  | [a] =>
      let a := Byte.to_N a in
      String (digit64 (a / 4))
        (String (digit64 (a mod 4 * 16)) "==")
  | [a; b] =>
      let a := Byte.to_N a in
      let b := Byte.to_N b in
      String (digit64 (a / 4))
        (String (digit64 (a mod 4 * 16 + b / 16))
           (String (digit64 (b mod 16 * 4)) "="))
  | a :: b :: c :: rest =>
      let a := Byte.to_N a in
      let b := Byte.to_N b in
      let c := Byte.to_N c in
      String (digit64 (a / 4))
        (String (digit64 (a mod 4 * 16 + b / 16))
           (String (digit64 (b mod 16 * 4 + c / 64))
              (String (digit64 (c mod 64)) (base64 rest))))
  end%N.

(** [blobToBase64(blob)]: reading a Blob held in memory succeeds. *)
Definition blobToBase64 (blob : Blob) : string := base64 (blob_bytes blob).

(** [getFormatFromMimeType(mimeType)] (the same method in both clients) *)
Definition getFormatFromMimeType (mimeType : string) : string :=
  if includes mimeType "webm" then "webm"
  else if includes mimeType "ogg" then "ogg"
  else if includes mimeType "wav" then "wav"
  else if includes mimeType "mp4" then "mp4"
  else "webm".

(** An emitted event: its name and the data passed to the subscribers. *)
Definition event : Type := string * value.

(** [list.join(separator)] on strings *)
Fixpoint join (separator : string) (l : list string) : string :=
  match l with
  | [] => ""
  | [a] => a
  | a :: rest => a ++ separator ++ join separator rest
  end.

(** [String(v)], as [new Error(v)] and template literals apply it.  An
    integer prints in decimal, an object without a [toString] of its own
    as "[object Object]", an array as its elements with commas between
    them, [null] and [undefined] among them as nothing.  This is
    JavaScript's text for the values that [printable] admits; for the
    others (an integer of 10^21 or more, which JavaScript writes with an
    exponent, a number that is no integer, whose digits this model does
    not have, an object with a [toString] property of its own, on which
    the conversion throws) the text here is not JavaScript's. *)
Fixpoint to_string (v : value) : string :=
  match v with
  | VUndefined => "undefined"
  | VNull => "null"
  | VBool true => "true"
  | VBool false => "false"
  | VNum n => pretty n
  | VNaN => "NaN"
  | VReal r => pretty (Int_part r)
  | VStr s => s
  | VBlob _ => "[object Blob]"
  | VArr l =>
      join ","
           (map (fun x => match x with
                          | VUndefined | VNull => ""
                          | _ => to_string x
                          end) l)
  | VObj _ => "[object Object]"
  end.


(** ** Numbers

    A JavaScript number is a double.  It holds every integer of size up
    to 2^53 exactly; a larger integer is held only if 53 binary digits
    write it, and the result of an operation is the double nearest to the
    exact result, the even one of two that are equally near.
    [to_double z] is the integer held by the double nearest to [z], for
    [z] within the range of doubles (below 2^1024 in size). *)
Definition to_double (z : Z) : Z :=
  let a := Z.abs z in
  if a <=? 2 ^ 53 then z
  else
    let e := Z.log2 a - 52 in
    let q := a / 2 ^ e in
    let r := a mod 2 ^ e in
    let half := 2 ^ (e - 1) in
    let q' := if r <? half then q
              else if half <? r then q + 1
              else if Z.even q then q else q + 1 in
    Z.sgn z * (q' * 2 ^ e).

(** An integer that arithmetic on doubles never rounds. *)
Definition representable (z : Z) : bool := Z.abs z <=? 2 ^ 53.

(** [a * Math.pow(b, e)] on numbers that hold the integers [a], [b] and
    [e], the exponent not negative.  [Math.pow] returns the power exactly
    where a double holds it; where none does, the platform's result is
    taken to be the nearest double. *)
Definition times_pow (a b e : Z) : Z :=
  to_double (to_double a * to_double (to_double b ^ e)).

(** No step of [a * Math.pow(b, e)] rounds. *)
Definition exact_times_pow (a b e : Z) : bool :=
  representable a && representable b
  && representable (b ^ e) && representable (a * b ^ e).

(** ** Utils *)

Module Utils.

Definition supportedTypes : list string :=
  [ "audio/wav"; "audio/wave"; "audio/x-wav";
    "audio/mpeg"; "audio/mp3";
    "audio/flac";
    "audio/m4a"; "audio/x-m4a";
    "audio/webm";
    "audio/ogg" ].

Definition maxSize : Z := 50 * 1024 * 1024.

(** The value of [Utils.formatFileSize(maxSize)]:
    [floor(log(52428800) / log(1024)) = 2] and
    [(52428800 / 1024^2).toFixed(1)] is ["50.0"]. *)
Definition formatFileSize_maxSize : string := "50.0 MB".

(** [static validateAudioFile(file)]; a null [file] is [None]. *)
Definition validateAudioFile (file : option File) : obj :=
  match file with
  | None =>
      {[ "valid" := VBool false; "error" := VStr "No file selected" ]}
  | Some f =>
      if maxSize <? file_size f then
        {[ "valid" := VBool false;
           "error" := VStr ("File too large. Maximum size is "
                            ++ formatFileSize_maxSize) ]}
      else if negb (bool_decide (file_type f ∈ supportedTypes)) then
        {[ "valid" := VBool false;
           "error" := VStr "Unsupported file format. Supported formats: MP3, WAV, FLAC, M4A, WebM, OGG" ]}
      else
        {[ "valid" := VBool true ]}
  end.

(** [static getAudioLevel(audioData)] on a [Uint8Array].  The sum of
    squares is an integer (exact in a double for any array a browser can
    allocate); the square root, the division and the product with 10 are
    taken in the reals. *)
Definition byte_val (b : Byte.byte) : Z := Z.of_N (Byte.to_N b).

Definition sum_squares (audioData : list Byte.byte) : Z :=
  foldl (fun sum x => sum + byte_val x * byte_val x) 0 audioData.

Definition getAudioLevel (audioData : option (list Byte.byte)) : R :=
  match audioData with
  | None => 0%R
  | Some [] => 0%R
  | Some d =>
      let rms := sqrt (IZR (sum_squares d) / INR (length d)) in
      Rmin 1 (rms * 10)
  end.

(** [static createEventEmitter()].

    Subscribers are closures; [off] compares them by identity, so a
    subscriber is a number naming the closure, and what the closure does
    when called is given by [call].  A subscriber may do anything to the
    state [W] it closes over and to the emitter's own table (it can call
    [on] and [off] of the emitter it is registered with), and it either
    returns or throws.

    [events] is a plain object used as a map from the event name to the
    array of subscribers.  Its own properties are the arrays [on] put
    there; under a name it inherits from [Object.prototype] it reads
    what the prototype holds, which is truthy and no array, so that
    [push], [filter] and [forEach] are not functions on it and each of
    [on], [off] and [emit] throws a TypeError ([None] below). *)
Module EventEmitter.

Definition callback := nat.

(** The property names of [Object.prototype], in a page that has added
    none. *)
Definition inherited : list string :=
  [ "constructor"; "__defineGetter__"; "__defineSetter__"; "hasOwnProperty";
    "__lookupGetter__"; "__lookupSetter__"; "isPrototypeOf";
    "propertyIsEnumerable"; "toString"; "valueOf"; "__proto__";
    "toLocaleString" ].

Inductive completion := Returned | Threw.

#[global] Instance completion_eq_dec : EqDecision completion.
Proof. solve_decision. Defined.

Section Emitter.
Context {D W : Type}.
Variable call :
  callback -> D -> gmap string (list callback) * W ->
  (gmap string (list callback) * W) * completion.

Definition on (event : string) (cb : callback)
           (events : gmap string (list callback))
  : option (gmap string (list callback)) :=
  if bool_decide (event ∈ inherited) then None
  else
    match events !! event with
    | None => Some (<[event := [cb]]> events)
    | Some cbs => Some (<[event := cbs ++ [cb]]> events)
    end.

Definition off (event : string) (cb : callback)
           (events : gmap string (list callback))
  : option (gmap string (list callback)) :=
  if bool_decide (event ∈ inherited) then None
  else
    match events !! event with
    | None => Some events
    | Some cbs => Some (<[event := filter (fun c => c ≠ cb) cbs]> events)
    end.

(** What one [emit] did: the state it left, the calls it made in
    order (subscriber, data, how the call ended), and the number of
    [console.error] lines written by the catch. *)
Record emitted := {
  after : gmap string (list callback) * W;
  calls : list (callback * D * completion);
  console_errors : nat
}.

(** [Array.prototype.forEach] visits the elements the array had when
    the loop started: [on] only appends to it and [off] replaces the
    table entry by a fresh filtered array, leaving this one as it
    was. *)
Fixpoint forEach (cbs : list callback) (data : D)
         (st : gmap string (list callback) * W)
         (done : list (callback * D * completion)) (errs : nat)
  : emitted :=
  match cbs with
  | [] => {| after := st; calls := done; console_errors := errs |}
  | cb :: rest =>
      let '(st', c) := call cb data st in
      forEach rest data st' (done ++ [(cb, data, c)])
              (match c with Returned => errs | Threw => S errs end)
  end.

Definition emit (event : string) (data : D)
           (st : gmap string (list callback) * W) : option emitted :=
  if bool_decide (event ∈ inherited) then None
  else
    match st.1 !! event with
    | None => Some {| after := st; calls := []; console_errors := 0 |}
    | Some cbs => Some (forEach cbs data st [] 0)
    end.

(** Synchronous fan-out as the specification words it: the subscribers
    are invoked one after the other in the order given, each with the data
    and on the state its predecessor left, and whether one returns or
    throws, the next is invoked all the same.  The result is the state
    the last one left and the invocations made. *)
Fixpoint fan_out (cbs : list callback) (data : D)
         (st : gmap string (list callback) * W)
  : (gmap string (list callback) * W) * list (callback * D * completion) :=
  match cbs with
  | [] => (st, [])
  | cb :: rest =>
      let '(st', c) := call cb data st in
      let '(st'', invocations) := fan_out rest data st' in
      (st'', (cb, data, c) :: invocations)
  end.
End Emitter.

(** [on] called for each registration in turn; a call that throws ends
    the run. *)
Definition register (registrations : list (string * callback))
           (events : gmap string (list callback))
  : option (gmap string (list callback)) :=
  foldl (fun events r => events ≫= on r.1 r.2) (Some events) registrations.

(** The subscribers of [event], in the order of their registration. *)
Definition subscribers (events : gmap string (list callback)) (event : string)
  : list callback :=
  default [] (events !! event).

End EventEmitter.

(** [static escapeHtml(unsafe)]: five [replace] calls with a global
    pattern of one character each, applied in turn.  The double quote
    is character 34. *)
Fixpoint replaceAll (pattern : ascii) (replacement : string) (s : string)
  : string :=
  match s with
  | EmptyString => EmptyString
  | String a rest =>
      (if Ascii.eqb a pattern then replacement else String a EmptyString)
      ++ replaceAll pattern replacement rest
  end.

Definition escapeHtml (unsafe : string) : string :=
  replaceAll "'" "&#039;"
    (replaceAll "034" "&quot;"
       (replaceAll ">" "&gt;"
          (replaceAll "<" "&lt;"
             (replaceAll "&" "&amp;" unsafe)))).

(** [static checkBrowserSupport()]; the four features as the browser has
    them.  [Object.keys] lists them in the order of the literal. *)
Record Features := {
  mediaRecorder : bool;
  webSockets : bool;
  getUserMedia : bool;
  audioContext : bool
}.

Record Support := {
  supported : bool;
  missing : list string;
  details : Features
}.

Definition checkBrowserSupport (support : Features) : Support :=
  let unsupported :=
    map fst
        (List.filter (fun kv : string * bool => negb kv.2)
           [ ("mediaRecorder", mediaRecorder support);
             ("webSockets", webSockets support);
             ("getUserMedia", getUserMedia support);
             ("audioContext", audioContext support) ]) in
  {| supported := (length unsupported =? 0)%nat;
     missing := unsupported;
     details := support |}.

(** [static async retry(fn, options = {})].

    [fn] is any closure: it acts on the state [S] it closes over and
    resolves with a value or rejects with an error.  [onRetry] is called
    with the error, the number of the attempt that comes next and the
    wait; it returns or throws.  The destructuring defaults apply to
    absent properties only. *)
Section Retry.
Context {S A E : Type}.

Record RetryOptions := {
  retries : option Z;
  delay : option Z;
  backoff : option Z;
  onRetry : option (E -> Z -> Z -> option E)
}.

(** What a run did: how it ended ([inl] the value [fn] resolved with,
    [inr] what was thrown, [None] being [undefined]), the number of calls
    of [fn], the delays of the timers waited for, the arguments [onRetry]
    was called with, and the state [fn] left. *)
Record retried := {
  outcome : A + option E;
  calls : nat;
  waits : list Z;
  notified : list (E * Z * Z);
  final : S
}.

(** The [for] loop from [i], with [n] values of [i] left up to
    [retries]. *)
Fixpoint retry_loop (fn : S -> S * (A + E)) (retries delay backoff : Z)
         (onRetry : E -> Z -> Z -> option E)
         (n : nat) (i : Z) (lastError : option E) (s : S) : retried :=
  match n with
  | O => {| outcome := inr lastError; calls := 0; waits := [];
            notified := []; final := s |}
  | Datatypes.S n' =>
      match fn s with
      | (s', inl v) =>
          {| outcome := inl v; calls := 1; waits := [];
             notified := []; final := s' |}
      | (s', inr error) =>
          if i =? retries then
            {| outcome := inr (Some error); calls := 1; waits := [];
               notified := []; final := s' |}
          else
            let waitTime := times_pow delay backoff i in
            match onRetry error (i + 1) waitTime with
            | Some thrown =>
                {| outcome := inr (Some thrown); calls := 1; waits := [];
                   notified := [(error, i + 1, waitTime)]; final := s' |}
            | None =>
                let r := retry_loop fn retries delay backoff onRetry
                                    n' (i + 1) (Some error) s' in
                {| outcome := outcome r;
                   calls := Datatypes.S (calls r);
                   waits := waitTime :: waits r;
                   notified := (error, i + 1, waitTime) :: notified r;
                   final := final r |}
            end
      end
  end.

Definition retry (fn : S -> S * (A + E)) (options : RetryOptions) (s : S)
  : retried :=
  let retries := default 3 (retries options) in
  let delay := default 1000 (delay options) in
  let backoff := default 2 (backoff options) in
  let onRetry := default (fun _ _ _ => None) (onRetry options) in
  retry_loop fn retries delay backoff onRetry
             (Z.to_nat (retries + 1)) 0 None s.
End Retry.

(** [static throttle(func, limit)]: the state of the returned closure is
    [inThrottle] ([undefined] at first, which is falsy).  A call either
    invokes [func] or not; [func] returns or throws, and a throw leaves
    the closure before the flag is set.  The timer's callback clears the
    flag. *)
Definition throttle_call (func_throws : bool) (inThrottle : bool)
  : bool * bool * bool :=
  (* the flag, whether [func] ran, whether a timer of [limit] ms was set *)
  if negb inThrottle then
    if func_throws then (false, true, false) else (true, true, true)
  else (inThrottle, false, false).

Definition throttle_timer (inThrottle : bool) : bool := false.

(** [static debounce(func, wait, immediate = false)]: the state of the
    returned closure is [timeout], the pending timer if any; the timer's
    closure [later] holds the arguments of the call that set it.  A call
    clears the pending timer and sets a new one; [func] runs in the call
    ([callNow]) or when the timer fires. *)
Section Debounce.
Context {Args : Type}.

(** A call with [args]: the new [timeout] and the arguments [func] was
    invoked with, if it was. *)
Definition debounce_call (immediate : bool) (args : Args)
           (timeout : option Args) : option Args * list Args :=
  let callNow := immediate && negb (bool_decide (is_Some timeout)) in
  (Some args, if callNow then [args] else []).

(** The pending timer fires: [later] runs. *)
Definition debounce_later (immediate : bool) (timeout : option Args)
  : option Args * list Args :=
  match timeout with
  | Some args => (None, if negb immediate then [args] else [])
  | None => (None, [])
  end.
End Debounce.

(** What the five replacements make of one character. *)
Definition escape_char (a : ascii) : string :=
  if Ascii.eqb a "&" then "&amp;"
  else if Ascii.eqb a "<" then "&lt;"
  else if Ascii.eqb a ">" then "&gt;"
  else if Ascii.eqb a "034" then "&quot;"
  else if Ascii.eqb a "'" then "&#039;"
  else String a EmptyString.

(** A closure whose outcome at its k-th call (from 0) is [outcomes k];
    the state counts the calls. *)
Definition counting {A E : Type} (outcomes : nat -> A + E)
  : nat -> nat * (A + E) :=
  fun k => (Datatypes.S k, outcomes k).

Definition retry_options {E : Type} (retries delay backoff : Z)
  : @RetryOptions E :=
  {| retries := Some retries; delay := Some delay; backoff := Some backoff;
     onRetry := None |}.

(** The uses of a throttled function over time: calls (with whether
    [func] throws when invoked) and expiries of the timer.  The run keeps
    the flag, the number of timers pending, the number of invocations of
    [func] that returned, and the number of timers that have fired. *)
Inductive throttle_event :=
| ThrottleCall (func_throws : bool)
| ThrottleTimer.

Record throttled := {
  inThrottle : bool;
  pending : nat;
  invoked : nat;
  fired : nat
}.

Definition throttle_step (t : throttled) (e : throttle_event) : throttled :=
  match e with
  | ThrottleCall func_throws =>
      let '(flag, ran, timer) := throttle_call func_throws (inThrottle t) in
      {| inThrottle := flag;
         pending := if timer then Datatypes.S (pending t) else pending t;
         invoked := if ran && negb func_throws
                    then Datatypes.S (invoked t) else invoked t;
         fired := fired t |}
  | ThrottleTimer =>
      match pending t with
      | O => t
      | Datatypes.S n =>
          {| inThrottle := throttle_timer (inThrottle t);
             pending := n;
             invoked := invoked t;
             fired := Datatypes.S (fired t) |}
      end
  end.

Definition throttle_run (events : list throttle_event) : throttled :=
  foldl throttle_step
        {| inThrottle := false; pending := 0; invoked := 0; fired := 0 |}
        events.

(** The uses of a debounced function over time: calls with their
    arguments and expiries of the pending timer.  The run gives the final
    [timeout] and the arguments of the invocations of [func], in order. *)
Inductive debounce_event {Args : Type} :=
| DebounceCall (args : Args)
| DebounceTimer.
Arguments debounce_event : clear implicits.

Fixpoint debounce_run {Args : Type} (immediate : bool)
         (events : list (debounce_event Args)) (timeout : option Args)
  : option Args * list Args :=
  match events with
  | [] => (timeout, [])
  | e :: rest =>
      let '(timeout', now) :=
        match e with
        | DebounceCall args => debounce_call immediate args timeout
        | DebounceTimer => debounce_later immediate timeout
        end in
      let '(final, later) := debounce_run immediate rest timeout' in
      (final, now ++ later)
  end.

End Utils.

(** ** WebSocketClient *)

Module WebSocketClient.

(** The settings hold integers (the defaults are 5, 1000, 2 and
    30000). *)
Record ConnectionSettings := {
  reconnectAttempts : Z;
  reconnectDelay : Z;
  reconnectBackoff : Z;
  keepAliveInterval : Z
}.

(** The object's fields, followed by what it has handed to the
    platform: the messages given to [websocket.send] (before
    [JSON.stringify]), the delays of the timers set by
    [scheduleReconnect], and the number of sockets created; and by what
    the platform holds for it: whether the socket held is still
    connecting (it has neither opened nor closed yet), and the message of
    the InvalidStateError that the platform's [send] throws on such a
    socket.  The handlers below run on the events of the socket held, or
    of the one that [disconnect()] has just let go; the events of a socket
    that a later [connect()] has replaced are not part of this model. *)
Record t := {
  websocket : option nat;
  isConnected : bool;
  connectionSettings : ConnectionSettings;
  currentAttempt : Z;
  keepAliveTimer : option Z;
  sent : list value;
  timeouts : list Z;
  sockets : nat;
  connecting : bool;
  invalidState : string
}.

Definition constructor : t :=
  {| websocket := None;
     isConnected := false;
     connectionSettings :=
       {| reconnectAttempts := 5;
          reconnectDelay := 1000;
          reconnectBackoff := 2;
          keepAliveInterval := 30000 |};
     currentAttempt := 0;
     keepAliveTimer := None;
     sent := [];
     timeouts := [];
     sockets := 0;
     connecting := false;
     invalidState :=
       "Failed to execute 'send' on 'WebSocket': Still in CONNECTING state." |}.

(** [connect(endpoint)]: the URL is built from [window.location], so
    [new WebSocket] does not throw and the catch arm is not taken.  The
    handlers installed on the socket are [onopen], [onmessage], [onclose]
    and [onerror] below. *)
Definition connect (c : t) : t * value :=
  ({| websocket := Some (sockets c);
      isConnected := isConnected c;
      connectionSettings := connectionSettings c;
      currentAttempt := currentAttempt c;
      keepAliveTimer := keepAliveTimer c;
      sent := sent c;
      timeouts := timeouts c;
      sockets := S (sockets c);
      connecting := true;
      invalidState := invalidState c |},
   VObj {[ "success" := VBool true ]}).

(** [startKeepAlive()]: a running interval is cleared and replaced. *)
Definition startKeepAlive (c : t) : t :=
  {| websocket := websocket c;
     isConnected := isConnected c;
     connectionSettings := connectionSettings c;
     currentAttempt := currentAttempt c;
     keepAliveTimer := Some (keepAliveInterval (connectionSettings c));
     sent := sent c;
     timeouts := timeouts c;
     sockets := sockets c;
     connecting := connecting c;
     invalidState := invalidState c |}.

Definition stopKeepAlive (c : t) : t :=
  {| websocket := websocket c;
     isConnected := isConnected c;
     connectionSettings := connectionSettings c;
     currentAttempt := currentAttempt c;
     keepAliveTimer := None;
     sent := sent c;
     timeouts := timeouts c;
     sockets := sockets c;
     connecting := connecting c;
     invalidState := invalidState c |}.

(** [websocket.onopen], run by the open event of the socket held: that
    socket is connecting no more. *)
Definition onopen (c : t) : t * list event :=
  (startKeepAlive
     {| websocket := websocket c;
        isConnected := true;
        connectionSettings := connectionSettings c;
        currentAttempt := 0;
        keepAliveTimer := keepAliveTimer c;
        sent := sent c;
        timeouts := timeouts c;
        sockets := sockets c;
        connecting := false;
        invalidState := invalidState c |},
   [("connected", VUndefined)]).

Definition shouldReconnect (c : t) : bool :=
  currentAttempt c <? reconnectAttempts (connectionSettings c).

(** [scheduleReconnect()].  The delay is computed on doubles
    ([times_pow]); the exponent [currentAttempt - 1] is never negative,
    the counter being 0 or more before the increment. *)
Definition scheduleReconnect (c : t) : t * list event :=
  let attempt := currentAttempt c + 1 in
  let delay :=
    times_pow (reconnectDelay (connectionSettings c))
              (reconnectBackoff (connectionSettings c)) (attempt - 1) in
  ({| websocket := websocket c;
      isConnected := isConnected c;
      connectionSettings := connectionSettings c;
      currentAttempt := attempt;
      keepAliveTimer := keepAliveTimer c;
      sent := sent c;
      timeouts := timeouts c ++ [delay];
      sockets := sockets c;
      connecting := connecting c;
      invalidState := invalidState c |},
   [("reconnecting",
     VObj {[ "attempt" := VNum attempt; "delay" := VNum delay ]})]).

(** The callback [scheduleReconnect] hands to [setTimeout]. *)
Definition reconnectTimer (c : t) : t :=
  if isConnected c then c else (connect c).1.

(** [websocket.onclose] with the close event's [code] and [reason]; a
    socket that has closed is connecting no more. *)
Definition onclose (code : Z) (reason : string) (c : t) : t * list event :=
  let c1 :=
    stopKeepAlive
      {| websocket := websocket c;
         isConnected := false;
         connectionSettings := connectionSettings c;
         currentAttempt := currentAttempt c;
         keepAliveTimer := keepAliveTimer c;
         sent := sent c;
         timeouts := timeouts c;
         sockets := sockets c;
         connecting := false;
         invalidState := invalidState c |} in
  let disconnected :=
    ("disconnected",
     VObj {[ "code" := VNum code; "reason" := VStr reason ]}) in
  if negb (code =? 1000) && shouldReconnect c1 then
    let '(c2, evs) := scheduleReconnect c1 in
    (c2, disconnected :: evs)
  else
    (c1, [disconnected]).

(** [websocket.onerror] *)
Definition onerror (c : t) : t * list event :=
  (c, [("error",
        VObj {[ "code" := VStr "WEBSOCKET_ERROR";
                "error" := VStr "WebSocket connection failed" ]})]).

(** [handleMessage(data)] *)
Definition handleMessage (data : obj) : list event :=
  let messageType := get data "type" in
  if is_str messageType "connection" then [("connection", VObj data)]
  else if is_str messageType "config" then [("config", VObj data)]
  else if is_str messageType "transcription" then
    [("transcription",
      VObj {[ "text" := get data "text";
              "language" := get data "language";
              "processingTime" := get data "processing_time";
              "timestamp" := get data "timestamp" ]})]
  else if is_str messageType "error" then
    [("error", VObj {[ "code" := VStr "SERVER_ERROR";
                       "error" := get data "message" ]})]
  else if is_str messageType "pong" then [("pong", VObj data)]
  else [("unknownMessage", VObj data)].

(** [websocket.onmessage]; [parsed] is the outcome of
    [JSON.parse(event.data)], an object or the message of the error
    thrown. *)
Definition onmessage (parsed : string + obj) (c : t) : t * list event :=
  match parsed with
  | inr data => (c, handleMessage data)
  | inl message =>
      (c, [("error", VObj {[ "code" := VStr "MESSAGE_PARSE_ERROR";
                             "error" := VStr message ]})])
  end.

(** [disconnect()]: [close(1000, ...)] makes the platform call
    [onclose] later on, with code 1000 after a clean close of a socket
    that had opened and with 1006 if it was still connecting. *)
Definition disconnect (c : t) : t :=
  let c1 :=
    match websocket c with
    | Some _ =>
        let c' := stopKeepAlive c in
        {| websocket := None;
           isConnected := isConnected c';
           connectionSettings := connectionSettings c';
           currentAttempt := currentAttempt c';
           keepAliveTimer := keepAliveTimer c';
           sent := sent c';
           timeouts := timeouts c';
           sockets := sockets c';
           connecting := false;
           invalidState := invalidState c' |}
    | None => c
    end in
  {| websocket := websocket c1;
     isConnected := false;
     connectionSettings := connectionSettings c1;
     currentAttempt := currentAttempt c1;
     keepAliveTimer := keepAliveTimer c1;
     sent := sent c1;
     timeouts := timeouts c1;
     sockets := sockets c1;
     connecting := connecting c1;
     invalidState := invalidState c1 |}.

(** [send(message)].  [JSON.stringify] of a message of this model does
    not throw; the platform's [send] throws on a socket that is still
    connecting, which the catch turns into [SEND_FAILED], and takes the
    message on any other. *)
Definition send (message : value) (c : t) : t * value :=
  if negb (isConnected c) || negb (bool_decide (is_Some (websocket c))) then
    (c, VObj {[ "success" := VBool false;
                "error" := VStr "Not connected to server";
                "code" := VStr "NOT_CONNECTED" ]})
  else if connecting c then
    (c, VObj {[ "success" := VBool false;
                "error" := VStr ("Failed to send message: " ++ invalidState c);
                "code" := VStr "SEND_FAILED" ]})
  else
    ({| websocket := websocket c;
        isConnected := isConnected c;
        connectionSettings := connectionSettings c;
        currentAttempt := currentAttempt c;
        keepAliveTimer := keepAliveTimer c;
        sent := sent c ++ [message];
        timeouts := timeouts c;
        sockets := sockets c;
        connecting := connecting c;
        invalidState := invalidState c |},
     VObj {[ "success" := VBool true ]}).

Definition sendConfig (model language : value) (c : t) : t * value :=
  send (VObj {[ "type" := VStr "config";
                "model" := model;
                "language" := language ]}) c.

Definition sendAudio (audioData : value) (format : string)
           (model language : value) (c : t) : t * value :=
  send (VObj {[ "type" := VStr "audio";
                "data" := audioData;
                "format" := VStr format;
                "model" := model;
                "language" := language ]}) c.

(** [sendPing()] at time [now] ([Date.now()]) *)
Definition sendPing (now : Z) (c : t) : t * value :=
  send (VObj {[ "type" := VStr "ping"; "timestamp" := VNum now ]}) c.

(** The callback [startKeepAlive] hands to [setInterval]. *)
Definition keepAliveTick (now : Z) (c : t) : t :=
  if isConnected c then (sendPing now c).1 else c.

Definition cleanup (c : t) : t :=
  let c' := stopKeepAlive (disconnect c) in
  {| websocket := websocket c';
     isConnected := isConnected c';
     connectionSettings := connectionSettings c';
     currentAttempt := 0;
     keepAliveTimer := keepAliveTimer c';
     sent := sent c';
     timeouts := timeouts c';
     sockets := sockets c';
     connecting := connecting c';
     invalidState := invalidState c' |}.

(** The reconnection loop as the platform drives it: the socket closes
    with a code and a reason; if the close handler set a timer, the timer
    fires and [connect] opens the next socket, which closes in turn. *)
Definition closed_then_timer (close : Z * string) (c : t) : t :=
  let c1 := (onclose close.1 close.2 c).1 in
  if (length (timeouts c) <? length (timeouts c1))%nat
  then reconnectTimer c1 else c1.

Definition failures (closes : list (Z * string)) (c : t) : t :=
  foldl (fun c close => closed_then_timer close c) c closes.

(** The delay [scheduleReconnect] computes for attempt [n]. *)
Definition backoff_delay (s : ConnectionSettings) (n : nat) : Z :=
  times_pow (reconnectDelay s) (reconnectBackoff s) (Z.of_nat n - 1).

End WebSocketClient.

(** ** AudioRecorder *)

Module AudioRecorder.

(** What the browser answers to the recorder's calls.  [Some msg] is the
    message of the error the call fails with. *)
Record Platform := {
  permission_error : option string;    (* Utils.requestMicrophonePermission *)
  getUserMedia_error : option string;
  analysis_error : option string;      (* AudioContext / createAnalyser *)
  isTypeSupported : string -> bool;    (* MediaRecorder.isTypeSupported *)
  new_MediaRecorder_error : option string;
  start_error : option string;         (* mediaRecorder.start *)
  stop_error : option string;          (* mediaRecorder.stop *)
  now : Z                              (* Date.now() *)
}.

(** Calls made on the platform encoder. *)
Inductive encoder_call :=
| Start (timeslice : value)
| Stop.

(** [mediaRecorder] holds the recorder's [mimeType] (the type it was
    created with); [audioStream], [audioContext] and [analyser] only
    matter as null or not; [animationFrame] is true once a frame of the
    level loop has been requested. *)
Record t := {
  mediaRecorder : option string;
  audioStream : bool;
  audioContext : bool;
  analyser : bool;
  dataArray : option (list Byte.byte);
  animationFrame : bool;
  isRecording : bool;
  recordedChunks : list Blob;
  recordingStartTime : option Z;
  encoder : list encoder_call
}.

Definition constructor : t :=
  {| mediaRecorder := None;
     audioStream := false;
     audioContext := false;
     analyser := false;
     dataArray := None;
     animationFrame := false;
     isRecording := false;
     recordedChunks := [];
     recordingStartTime := None;
     encoder := [] |}.

Definition types : list string :=
  [ "audio/webm;codecs=opus";
    "audio/webm";
    "audio/ogg;codecs=opus";
    "audio/ogg";
    "audio/wav";
    "audio/mp4" ].

Definition getSupportedMimeType (p : Platform) : string :=
  match List.find (isTypeSupported p) types with
  | Some type => type
  | None => "audio/webm"
  end.

(** [updateAudioLevel()]; [freq] is what [getByteFrequencyData] writes
    into [dataArray]. *)
Definition updateAudioLevel (freq : list Byte.byte) (r : t) : t * list event :=
  if negb (analyser r) || negb (bool_decide (is_Some (dataArray r))) then
    (r, [])
  else
    let level := Utils.getAudioLevel (Some freq) in
    ({| mediaRecorder := mediaRecorder r;
        audioStream := audioStream r;
        audioContext := audioContext r;
        analyser := analyser r;
        dataArray := Some freq;
        animationFrame :=
          if isRecording r || audioStream r then true else animationFrame r;
        isRecording := isRecording r;
        recordedChunks := recordedChunks r;
        recordingStartTime := recordingStartTime r;
        encoder := encoder r |},
     [("audioLevel", VReal level)]).

(** [setupAudioAnalysis()]; the fresh [Uint8Array(frequencyBinCount)]
    holds 128 zeros and the first [updateAudioLevel] reads [freq] into
    it. *)
Definition setupAudioAnalysis (p : Platform) (freq : list Byte.byte) (r : t)
  : t * list event :=
  if negb (audioStream r) then (r, [])
  else
    match analysis_error p with
    | Some msg =>
        (r, [("error", VObj {[ "success" := VBool false;
                               "error" := VStr msg;
                               "code" := VStr "AUDIO_ANALYSIS_FAILED" ]})])
    | None =>
        updateAudioLevel freq
          {| mediaRecorder := mediaRecorder r;
             audioStream := audioStream r;
             audioContext := true;
             analyser := true;
             dataArray := Some (repeat Byte.x00 128);
             animationFrame := animationFrame r;
             isRecording := isRecording r;
             recordedChunks := recordedChunks r;
             recordingStartTime := recordingStartTime r;
             encoder := encoder r |}
    end.

Definition access_denied (msg : string) : value :=
  VObj {[ "success" := VBool false;
          "error" := VStr msg;
          "code" := VStr "MICROPHONE_ACCESS_DENIED" ]}.

Definition requestMicrophoneAccess (p : Platform) (freq : list Byte.byte)
           (r : t) : t * list event * value :=
  match permission_error p with
  | Some msg =>
      let msg' := if String.eqb msg "" then "Microphone access denied" else msg in
      (r, [("error", access_denied msg')], access_denied msg')
  | None =>
      match getUserMedia_error p with
      | Some msg => (r, [("error", access_denied msg)], access_denied msg)
      | None =>
          let '(r', evs) :=
            setupAudioAnalysis p freq
              {| mediaRecorder := mediaRecorder r;
                 audioStream := true;
                 audioContext := audioContext r;
                 analyser := analyser r;
                 dataArray := dataArray r;
                 animationFrame := animationFrame r;
                 isRecording := isRecording r;
                 recordedChunks := recordedChunks r;
                 recordingStartTime := recordingStartTime r;
                 encoder := encoder r |} in
          (r', evs ++ [("microphoneReady", VUndefined)],
           VObj {[ "success" := VBool true ]})
      end
  end.

Definition start_failed (msg : string) : value :=
  VObj {[ "success" := VBool false;
          "error" := VStr ("Failed to start recording: " ++ msg);
          "code" := VStr "RECORDING_START_FAILED" ]}.

(** The body of [startRecording] once the stream is there (the [try]
    block and its [catch]). *)
Definition startRecording_try (p : Platform) (options : obj) (r : t)
  : t * list event * value :=
  match new_MediaRecorder_error p with
  | Some msg => (r, [], start_failed msg)
  | None =>
      let r1 :=
        {| mediaRecorder := Some (getSupportedMimeType p);
           audioStream := audioStream r;
           audioContext := audioContext r;
           analyser := analyser r;
           dataArray := dataArray r;
           animationFrame := animationFrame r;
           isRecording := isRecording r;
           recordedChunks := [];
           recordingStartTime := recordingStartTime r;
           encoder := encoder r |} in
      match start_error p with
      | Some msg => (r1, [], start_failed msg)
      | None =>
          let timeslice := or_else (get options "timeslice") VUndefined in
          ({| mediaRecorder := mediaRecorder r1;
              audioStream := audioStream r1;
              audioContext := audioContext r1;
              analyser := analyser r1;
              dataArray := dataArray r1;
              animationFrame := animationFrame r1;
              isRecording := true;
              recordedChunks := recordedChunks r1;
              recordingStartTime := Some (now p);
              encoder := encoder r1 ++ [Start timeslice] |},
           [("recordingStarted", VUndefined)],
           VObj {[ "success" := VBool true ]})
      end
  end.

(** [async startRecording(options = {})] *)
Definition startRecording (p : Platform) (freq : list Byte.byte)
           (options : obj) (r : t) : t * list event * value :=
  if isRecording r then
    (r, [], VObj {[ "success" := VBool false;
                    "error" := VStr "Already recording" ]})
  else if negb (audioStream r) then
    let '(r1, evs, accessResult) := requestMicrophoneAccess p freq r in
    match accessResult with
    | VObj o =>
        if falsy (get o "success") then (r1, evs, accessResult)
        else
          let '(r2, evs', res) := startRecording_try p options r1 in
          (r2, evs ++ evs', res)
    | _ => (r1, evs, accessResult)
    end
  else startRecording_try p options r.

(** [stopRecording()] *)
Definition stopRecording (p : Platform) (r : t) : t * value :=
  if negb (isRecording r) || negb (bool_decide (is_Some (mediaRecorder r))) then
    (r, VObj {[ "success" := VBool false; "error" := VStr "Not recording" ]})
  else
    let stopped (calls : list encoder_call) :=
      {| mediaRecorder := mediaRecorder r;
         audioStream := audioStream r;
         audioContext := audioContext r;
         analyser := analyser r;
         dataArray := dataArray r;
         animationFrame := animationFrame r;
         isRecording := false;
         recordedChunks := recordedChunks r;
         recordingStartTime := recordingStartTime r;
         encoder := calls |} in
    match stop_error p with
    | None =>
        (stopped (encoder r ++ [Stop]), VObj {[ "success" := VBool true ]})
    | Some msg =>
        (stopped (encoder r),
         VObj {[ "success" := VBool false;
                 "error" := VStr ("Failed to stop recording: " ++ msg);
                 "code" := VStr "RECORDING_STOP_FAILED" ]})
    end.

(** [mediaRecorder.ondataavailable]; [data] is [event.data]. *)
Definition ondataavailable (data : option Blob) (r : t) : t * list event :=
  match data with
  | Some d =>
      if 0 <? blob_size d then
        let chunks := recordedChunks r ++ [d] in
        ({| mediaRecorder := mediaRecorder r;
            audioStream := audioStream r;
            audioContext := audioContext r;
            analyser := analyser r;
            dataArray := dataArray r;
            animationFrame := animationFrame r;
            isRecording := isRecording r;
            recordedChunks := chunks;
            recordingStartTime := recordingStartTime r;
            encoder := encoder r |},
         [("audioData",
           VObj {[ "data" := VBlob d;
                   "chunks" := VNum (Z.of_nat (length chunks)) ]})])
      else (r, [])
  | None => (r, [])
  end.

Definition getRecordingDuration (p : Platform) (r : t) : Z :=
  match recordingStartTime r with
  | Some t0 => if t0 =? 0 then 0 else now p - t0
  | None => 0
  end.

(** [mediaRecorder.onstop] *)
Definition onstop (p : Platform) (r : t) : t * list event :=
  (r, [("recordingStopped",
        VObj {[ "chunks" := VArr (map VBlob (recordedChunks r));
                "duration" := VNum (getRecordingDuration p r) ]})]).

Definition getRecordingBlob (r : t) : option Blob :=
  match recordedChunks r with
  | [] => None
  | chunks =>
      Some (new_Blob chunks
              (match mediaRecorder r with
               | Some mimeType => mimeType
               | None => "audio/webm"
               end))
  end.

(** [cleanup()].  The audio context of the recorder is never closed by
    anything else, so a context that is there is closed and dropped. *)
Definition cleanup (p : Platform) (r : t) : t :=
  let r1 := (stopRecording p r).1 in
  {| mediaRecorder := None;
     audioStream := false;
     audioContext := false;
     analyser := false;
     dataArray := None;
     animationFrame := false;
     isRecording := isRecording r1;
     recordedChunks := [];
     recordingStartTime := recordingStartTime r1;
     encoder := encoder r1 |}.

End AudioRecorder.

(** ** The request/response channel *)

(** A [fetch] call: the method, the pieces the URL is built from, and for
    a POST the file and the other form fields. *)
Inductive request :=
| POST (endpoint : value) (file : File) (fields : list (string * value))
| GET (endpoint requestId : value)
| DELETE (endpoint requestId : value).

(** A JSON body that is neither an object nor [null]: every property
    the code reads of it is [undefined]. *)
Inductive atom :=
| ABool (b : bool)
| ANum (n : Z)
| AReal (r : R)
| AStr (s : string)
| AArr (l : list value).

Definition atom_value (a : atom) : value :=
  match a with
  | ABool b => VBool b
  | ANum n => VNum n
  | AReal r => VReal r
  | AStr s => VStr s
  | AArr l => VArr l
  end.

(** What the platform answers to a [fetch]: the promise rejects, or there
    is a response with its [ok] flag whose [json()] gives an object or
    rejects with a message; or gives [null], and then [typeError] is the
    message of the TypeError that the engine throws where the code first
    reads a property of the body; or gives a body of another kind. *)
Inductive response :=
| Rejected (message : string)
| Responded (ok : bool) (json : string + obj)
| RespondedNull (ok : bool) (typeError : string)
| RespondedOther (ok : bool) (body : atom).

(** ** FileUploader *)

Module FileUploader.

(** [uploadSettings] is replaced by spreads, so it stays an object. *)
Record t := {
  uploadSettings : obj
}.

Definition constructor : t :=
  {| uploadSettings :=
       {[ "maxFileSize" := VNum (50 * 1024 * 1024);
          "supportedFormats" :=
            VArr (map VStr
                    [ "audio/wav"; "audio/wave"; "audio/x-wav";
                      "audio/mpeg"; "audio/mp3";
                      "audio/flac";
                      "audio/m4a"; "audio/x-m4a";
                      "audio/webm";
                      "audio/ogg" ]);
          "endpoint" := VStr "/api/transcribe" ]} |}.

Definition validateFile (u : t) (file : option File) : obj :=
  Utils.validateAudioFile file.

Definition updateUploadSettings (settings : obj) (u : t) : t :=
  {| uploadSettings := spread (uploadSettings u) settings |}.

Definition getUploadSettings (u : t) : obj := spread ∅ (uploadSettings u).

Definition getMaxFileSize (u : t) : value := get (uploadSettings u) "maxFileSize".

(** What a method did besides returning: the events it emitted and the
    requests it made, in order. *)
Record effects := {
  emitted : list event;
  requests : list request
}.

(** The [options] argument of [uploadFile], [pollForResult] and
    [uploadAndWaitForResult]; an absent property is [VUndefined] or
    [None]. *)
Record Options := {
  model : value;
  language : value;
  maxAttempts : option Z;
  pollInterval : option Z
}.

Definition upload_failed (message : string) : value :=
  VObj {[ "success" := VBool false;
          "error" := VStr ("Upload failed: " ++ message);
          "code" := VStr "UPLOAD_FAILED" ]}.

Definition validation_failed (validation : obj) : value :=
  VObj {[ "success" := VBool false;
          "error" := get validation "error";
          "code" := VStr "FILE_VALIDATION_FAILED" ]}.

(** [async uploadFile(file, options = {})]; [reply] is the answer to
    the POST, if it is made.  [validateAudioFile] rejects a null file,
    so the [try] block always has a file.  A truthy [detail] of an
    error body becomes the message of the [Error] thrown, as a string
    ([to_string]); the default text is used for a falsy or missing one.
    A [null] body of an accepted upload is announced in
    [uploadCompleted] before the read of [result.id] throws. *)
Definition uploadFile (u : t) (file : option File) (options : Options)
           (reply : response) : effects * value :=
  let validation := validateFile u file in
  match file with
  | Some f =>
      if falsy (get validation "valid") then
        let error := validation_failed validation in
        ({| emitted := [("error", error)]; requests := [] |}, error)
      else
        let formData :=
          [("model", or_else (model options) (VStr "base"))]
          ++ (if truthy (language options)
              then [("language", language options)] else []) in
        let uploadStarted :=
          ("uploadStarted",
           VObj {[ "fileName" := VStr (file_name f);
                   "fileSize" := VNum (file_size f) ]}) in
        let post := POST (get (uploadSettings u) "endpoint") f formData in
        let failed (message : string) :=
          ({| emitted := [uploadStarted; ("error", upload_failed message)];
              requests := [post] |},
           upload_failed message) in
        match reply with
        | Rejected message => failed message
        | Responded _ (inl message) => failed message
        | Responded false (inr errorData) =>
            failed (to_string (or_else (get errorData "detail")
                                       (VStr "Upload failed")))
        | RespondedNull false typeError => failed typeError
        | RespondedOther false _ => failed "Upload failed"
        | Responded true (inr result) =>
            ({| emitted := [uploadStarted; ("uploadCompleted", VObj result)];
                requests := [post] |},
             VObj {[ "success" := VBool true;
                     "requestId" := get result "id";
                     "status" := get result "status" ]})
        | RespondedNull true typeError =>
            ({| emitted := [uploadStarted; ("uploadCompleted", VNull);
                            ("error", upload_failed typeError)];
                requests := [post] |},
             upload_failed typeError)
        | RespondedOther true body =>
            ({| emitted := [uploadStarted;
                            ("uploadCompleted", atom_value body)];
                requests := [post] |},
             VObj {[ "success" := VBool true;
                     "requestId" := VUndefined;
                     "status" := VUndefined ]})
        end
  | None =>
      let error := validation_failed validation in
      ({| emitted := [("error", error)]; requests := [] |}, error)
  end.

Definition polling_failed (requestId : value) (message : string) : value :=
  VObj {[ "success" := VBool false;
          "error" := VStr "Failed to get transcription result";
          "code" := VStr "POLLING_FAILED";
          "requestId" := requestId;
          "details" := VStr message ]}.

(** One run of the closure [poll] of [pollForResult]: [attempts] is the
    captured counter as the run finds it and [reply] the answer to its
    GET.  The run gives the counter back, the events it emitted, the
    value its promise resolves with, and whether it called
    [setTimeout(poll, pollInterval)].  The arm that sets the timer has no
    [return]: that run resolves with [undefined]. *)
Definition poll (u : t) (requestId : value) (maxAttempts : Z)
           (attempts : Z) (reply : response)
  : Z * list event * value * bool :=
  let attempts := attempts + 1 in
  let failed (message : string) :=
    (attempts, [("error", polling_failed requestId message)],
     polling_failed requestId message, false) in
  let answered (status error transcription payload : value) :=
    if is_str status "completed" then
      (attempts, [("transcription", transcription)],
       VObj {[ "success" := VBool true; "result" := payload ]},
       false)
    else if is_str status "failed" then
      let error :=
        VObj {[ "success" := VBool false;
                "error" := or_else error (VStr "Transcription failed");
                "code" := VStr "TRANSCRIPTION_FAILED";
                "requestId" := requestId ]} in
      (attempts, [("error", error)], error, false)
    else if attempts <? maxAttempts then
      (attempts,
       [("polling",
         VObj {[ "requestId" := requestId;
                 "attempt" := VNum attempts;
                 "status" := status ]})],
       VUndefined, true)
    else
      let error :=
        VObj {[ "success" := VBool false;
                "error" := VStr "Transcription timeout";
                "code" := VStr "TRANSCRIPTION_TIMEOUT";
                "requestId" := requestId ]} in
      (attempts, [("error", error)], error, false) in
  match reply with
  | Rejected message => failed message
  | Responded false _ | RespondedNull false _ | RespondedOther false _ =>
      failed "Failed to get transcription result"
  | Responded true (inl message) => failed message
  | RespondedNull true typeError => failed typeError
  | Responded true (inr result) =>
      answered (get result "status") (get result "error")
               (VObj {[ "text" := get result "text";
                        "language" := get result "language";
                        "processingTime" := get result "processing_time";
                        "requestId" := requestId ]})
               (VObj result)
  | RespondedOther true body =>
      answered VUndefined VUndefined
               (VObj {[ "text" := VUndefined;
                        "language" := VUndefined;
                        "processingTime" := VUndefined;
                        "requestId" := requestId ]})
               (atom_value body)
  end.

(** The runs of [poll] started by the timers, one per reply of the
    server; what these runs resolve with goes to [setTimeout], which
    drops it. *)
Fixpoint timers (u : t) (requestId : value) (maxAttempts attempts : Z)
         (replies : list response) : effects :=
  match replies with
  | [] => {| emitted := []; requests := [] |}
  | reply :: replies' =>
      let '(attempts', evs, _, again) :=
        poll u requestId maxAttempts attempts reply in
      let get_ := GET (get (uploadSettings u) "endpoint") requestId in
      if again then
        let rest := timers u requestId maxAttempts attempts' replies' in
        {| emitted := evs ++ emitted rest;
           requests := get_ :: requests rest |}
      else {| emitted := evs; requests := [get_] |}
  end.

(** [a || b] on an optional number *)
Definition number_or (a : option Z) (b : Z) : Z :=
  match a with
  | Some n => if n =? 0 then b else n
  | None => b
  end.

(** [async pollForResult(requestId, options = {})]: [return poll()].
    [replies] are the server's answers to the successive GETs.  The
    result is what the returned promise resolves with ([None] while the
    first GET is unanswered), and the effects of the first run and of
    all the timer runs after it. *)
Definition pollForResult (u : t) (requestId : value) (options : Options)
           (replies : list response) : effects * option value :=
  let maxAttempts := number_or (maxAttempts options) 60 in
  match replies with
  | [] =>
      ({| emitted := [];
          requests := [GET (get (uploadSettings u) "endpoint") requestId] |},
       None)
  | reply :: replies' =>
      let '(attempts, evs, returned, again) :=
        poll u requestId maxAttempts 0 reply in
      let get_ := GET (get (uploadSettings u) "endpoint") requestId in
      let later :=
        if again then timers u requestId maxAttempts attempts replies'
        else {| emitted := []; requests := [] |} in
      ({| emitted := evs ++ emitted later;
          requests := get_ :: requests later |},
       Some returned)
  end.

(** [async uploadAndWaitForResult(file, options = {})] *)
Definition uploadAndWaitForResult (u : t) (file : option File) (options : Options)
           (reply : response) (replies : list response)
  : effects * option value :=
  let '(up, uploadResult) := uploadFile u file options reply in
  match uploadResult with
  | VObj o =>
      if falsy (get o "success") then (up, Some uploadResult)
      else
        let '(po, result) :=
          pollForResult u (get o "requestId") options replies in
        ({| emitted := emitted up ++ emitted po;
            requests := requests up ++ requests po |},
         result)
  | _ => (up, Some uploadResult)
  end.

(** [async cancelRequest(requestId)]; [reply] is the answer to the
    DELETE.  The catch returns the failure without emitting it.  On a
    [null] body of an accepted cancel, [requestCancelled] is emitted
    before the read of [result.message] throws. *)
Definition cancelRequest (u : t) (requestId : value) (reply : response)
  : effects * value :=
  let delete := DELETE (get (uploadSettings u) "endpoint") requestId in
  let failed (message : string) :=
    ({| emitted := []; requests := [delete] |},
     VObj {[ "success" := VBool false;
             "error" := VStr ("Cancel failed: " ++ message);
             "code" := VStr "CANCEL_FAILED" ]}) in
  match reply with
  | Rejected message => failed message
  | Responded false _ | RespondedNull false _ | RespondedOther false _ =>
      failed "Failed to cancel request"
  | Responded true (inl message) => failed message
  | Responded true (inr result) =>
      ({| emitted :=
            [("requestCancelled", VObj {[ "requestId" := requestId ]})];
          requests := [delete] |},
       VObj {[ "success" := VBool true;
               "message" := get result "message" ]})
  | RespondedNull true typeError =>
      ({| emitted :=
            [("requestCancelled", VObj {[ "requestId" := requestId ]})];
          requests := [delete] |},
       VObj {[ "success" := VBool false;
               "error" := VStr ("Cancel failed: " ++ typeError);
               "code" := VStr "CANCEL_FAILED" ]})
  | RespondedOther true _ =>
      ({| emitted :=
            [("requestCancelled", VObj {[ "requestId" := requestId ]})];
          requests := [delete] |},
       VObj {[ "success" := VBool true;
               "message" := VUndefined ]})
  end.

End FileUploader.

(** Subscribers run inside [emit]; a component's method is run to its end
    and the events it emitted are then handed, in order, to the handlers
    the composing client registered.  (Where an [emit] is not the last
    statement of a method, what follows it touches nothing the handlers
    read or write.) *)
Fixpoint deliver {S : Type} (handler : event -> S -> S * list event)
         (evs : list event) (s : S) : S * list event :=
  match evs with
  | [] => (s, [])
  | e :: rest =>
      let '(s1, out1) := handler e s in
      let '(s2, out2) := deliver handler rest s1 in
      (s2, out1 ++ out2)
  end.

(** The [error] event both clients emit from [init] for a browser that
    lacks what they need. *)
Definition browser_not_supported (missing : list string) : event :=
  ("error",
   VObj {[ "message" :=
             VStr ("Browser not supported. Missing: " ++ join ", " missing);
           "code" := VStr "BROWSER_NOT_SUPPORTED" ]}).

(** ** AudioClient (audio-client.js) *)

Module AudioClient.

(** [websocket] and [audioStream] matter as null or not and
    [mediaRecorder] holds the recorder's [mimeType].  [sent] are the
    messages given to [websocket.send] (before [JSON.stringify]),
    [fetches] the requests of [uploadFile] and [pollForResult], and
    [storage] the objects written under each key of [localStorage]. *)
Record t := {
  websocket : bool;
  mediaRecorder : option string;
  audioStream : bool;
  isRecording : bool;
  isConnected : bool;
  recordedChunks : list Blob;
  settings : obj;
  sent : list value;
  fetches : list request;
  storage : gmap string obj
}.

Definition constructor : t :=
  {| websocket := false;
     mediaRecorder := None;
     audioStream := false;
     isRecording := false;
     isConnected := false;
     recordedChunks := [];
     settings :=
       {[ "model" := VStr "base";
          "language" := VNull;
          "recordingMode" := VStr "batch";
          "autoSend" := VBool true ]};
     sent := [];
     fetches := [];
     storage := ∅ |}.

Definition with_settings (o : obj) (c : t) : t :=
  {| websocket := websocket c;
     mediaRecorder := mediaRecorder c;
     audioStream := audioStream c;
     isRecording := isRecording c;
     isConnected := isConnected c;
     recordedChunks := recordedChunks c;
     settings := o;
     sent := sent c;
     fetches := fetches c;
     storage := storage c |}.

Definition with_sent (l : list value) (c : t) : t :=
  {| websocket := websocket c;
     mediaRecorder := mediaRecorder c;
     audioStream := audioStream c;
     isRecording := isRecording c;
     isConnected := isConnected c;
     recordedChunks := recordedChunks c;
     settings := settings c;
     sent := l;
     fetches := fetches c;
     storage := storage c |}.

Definition with_recordedChunks (l : list Blob) (c : t) : t :=
  {| websocket := websocket c;
     mediaRecorder := mediaRecorder c;
     audioStream := audioStream c;
     isRecording := isRecording c;
     isConnected := isConnected c;
     recordedChunks := l;
     settings := settings c;
     sent := sent c;
     fetches := fetches c;
     storage := storage c |}.

Definition with_storage (m : gmap string obj) (c : t) : t :=
  {| websocket := websocket c;
     mediaRecorder := mediaRecorder c;
     audioStream := audioStream c;
     isRecording := isRecording c;
     isConnected := isConnected c;
     recordedChunks := recordedChunks c;
     settings := settings c;
     sent := sent c;
     fetches := fetches c;
     storage := m |}.

(** [loadSettings()] and [saveSettings()] through [Utils.storage].
    [storage] has the object that was handed over under each key; the
    JSON text that [localStorage] keeps of it, from which a later read
    parses the object back without its [undefined] properties, is not
    modelled, and no property below reads back what [saveSettings]
    stored. *)
Definition loadSettings (c : t) : t :=
  with_settings
    (spread (settings c) (default ∅ (storage c !! "whisper-settings"))) c.

Definition saveSettings (c : t) : t :=
  with_storage (<["whisper-settings" := settings c]> (storage c)) c.

Definition sendConfig (c : t) : t :=
  if negb (isConnected c) || negb (websocket c) then c
  else
    with_sent
      (sent c ++ [VObj {[ "type" := VStr "config";
                          "model" := get (settings c) "model";
                          "language" := get (settings c) "language" ]}]) c.

(** [async sendAudioChunk(audioBlob)].  Reading [mediaRecorder.mimeType]
    of a null recorder throws inside the [try]. *)
Definition sendAudioChunk (audioBlob : Blob) (c : t) : t * list event :=
  if negb (isConnected c) || negb (websocket c) then (c, [])
  else
    let base64Data := blobToBase64 audioBlob in
    let mimeType :=
      if String.eqb (blob_type audioBlob) "" then mediaRecorder c
      else Some (blob_type audioBlob) in
    match mimeType with
    | Some mimeType =>
        (with_sent
           (sent c ++ [VObj {[ "type" := VStr "audio";
                               "data" := VStr base64Data;
                               "format" := VStr (getFormatFromMimeType mimeType);
                               "model" := get (settings c) "model";
                               "language" := get (settings c) "language" ]}]) c,
         [])
    | None =>
        (c, [("error", VObj {[ "message" := VStr "Failed to send audio data";
                               "code" := VStr "SEND_AUDIO_FAILED" ]})])
    end.

(** [async sendAudioFile(audioBlob)] *)
Definition sendAudioFile (audioBlob : Blob) (c : t) : t * list event :=
  if is_str (get (settings c) "recordingMode") "streaming" then (c, [])
  else sendAudioChunk audioBlob c.

(** [mediaRecorder.ondataavailable] as [startRecording] installs it *)
Definition ondataavailable (data : option Blob) (c : t) : t * list event :=
  match data with
  | Some d =>
      if 0 <? blob_size d then
        let c1 := with_recordedChunks (recordedChunks c ++ [d]) c in
        if is_str (get (settings c1) "recordingMode") "streaming" then
          sendAudioChunk d c1
        else (c1, [])
      else (c, [])
  | None => (c, [])
  end.

(** [mediaRecorder.onstop] as [startRecording] installs it.  The handler
    belongs to a recorder, so [this.mediaRecorder] is one; with a null
    recorder the handler throws at [mimeType] before it emits
    anything. *)
Definition onstop (c : t) : t * list event :=
  if is_str (get (settings c) "recordingMode") "batch"
     && (0 <? Z.of_nat (length (recordedChunks c))) then
    match mediaRecorder c with
    | Some mimeType =>
        let audioBlob := new_Blob (recordedChunks c) mimeType in
        let '(c1, evs) := sendAudioFile audioBlob c in
        (c1, ("recordingStopped", VUndefined) :: evs)
    | None => (c, [])
    end
  else (c, [("recordingStopped", VUndefined)]).

Definition updateSettings (newSettings : obj) (c : t) : t * list event :=
  let c1 := saveSettings (with_settings (spread (settings c) newSettings) c) in
  let c2 := if isConnected c1 then sendConfig c1 else c1 in
  (c2, [("settingsUpdated", VObj (settings c2))]).

Definition getSettings (c : t) : obj := spread ∅ (settings c).

Definition with_websocket (b : bool) (c : t) : t :=
  {| websocket := b;
     mediaRecorder := mediaRecorder c;
     audioStream := audioStream c;
     isRecording := isRecording c;
     isConnected := isConnected c;
     recordedChunks := recordedChunks c;
     settings := settings c;
     sent := sent c;
     fetches := fetches c;
     storage := storage c |}.

Definition with_isConnected (b : bool) (c : t) : t :=
  {| websocket := websocket c;
     mediaRecorder := mediaRecorder c;
     audioStream := audioStream c;
     isRecording := isRecording c;
     isConnected := b;
     recordedChunks := recordedChunks c;
     settings := settings c;
     sent := sent c;
     fetches := fetches c;
     storage := storage c |}.

(** [async connect()] in a browser with the features [f].  The URL is
    built from [window.location], so [new WebSocket] throws only where
    [WebSocket] is not defined; the catch arm reports that as an [error]
    event and the promise resolves all the same. *)
Definition connect (f : Utils.Features) (c : t) : t * list event :=
  if Utils.webSockets f then (with_websocket true c, [])
  else
    (c, [("error", VObj {[ "message" := VStr "Failed to connect to server";
                           "code" := VStr "CONNECTION_FAILED" ]})]).

(** [async init()] *)
Definition init (f : Utils.Features) (c : t) : t * list event :=
  let support := Utils.checkBrowserSupport f in
  if negb (Utils.supported support)
     && negb (bool_decide ("getUserMedia" ∈ Utils.missing support)) then
    (c, [browser_not_supported (Utils.missing support)])
  else connect f (loadSettings c).

(** [websocket.onopen] as [connect] installs it *)
Definition onopen (c : t) : t * list event :=
  (sendConfig (with_isConnected true c), [("connected", VUndefined)]).

(** [websocket.onclose] as [connect] installs it; the last component is
    the delay of the timer it sets for [reconnect], if it sets one. *)
Definition onclose (code : Z) (reason : string) (c : t)
  : t * list event * option Z :=
  (with_isConnected false c,
   [("disconnected",
     VObj {[ "code" := VNum code; "reason" := VStr reason ]})],
   if code =? 1000 then None else Some 5000).

(** [async reconnect()]: nothing when connected ([None]); otherwise the
    run of [Utils.retry] on the closure [() => this.connect()], which acts
    on the client and the events emitted so far.  The closure's promise
    always resolves (with [undefined]); [onRetry] only logs. *)
Definition reconnect (f : Utils.Features) (c : t)
  : option (@Utils.retried (t * list event) value string) :=
  if isConnected c then None
  else
    Some (Utils.retry
            (fun s : t * list event =>
               let '(c', evs) := connect f s.1 in
               ((c', s.2 ++ evs), inl VUndefined))
            {| Utils.retries := Some 5;
               Utils.delay := Some 1000;
               Utils.backoff := Some 2;
               Utils.onRetry := Some (fun _ _ _ => None) |}
            (c, [("reconnecting", VUndefined)])).

End AudioClient.

(** ** AudioClientV2, composed from the three modules *)

Module AudioClientV2.

(** What the platform answers while the client runs: the browser's
    answers to the recorder, the server's answer to an upload and its
    answers to the status requests that follow. *)
Record Platform := {
  browser : AudioRecorder.Platform;
  upload_reply : response;
  poll_replies : list response
}.

(** The composed object; [fetches] are the requests made through the
    uploader and [storage] the objects written under each key of
    [localStorage]. *)
Record t := {
  recorder : AudioRecorder.t;
  websocket : WebSocketClient.t;
  uploader : FileUploader.t;
  settings : obj;
  isRecording : bool;
  isConnected : bool;
  fetches : list request;
  storage : gmap string obj
}.

Definition constructor : t :=
  {| recorder := AudioRecorder.constructor;
     websocket := WebSocketClient.constructor;
     uploader := FileUploader.constructor;
     settings :=
       {[ "model" := VStr "base";
          "language" := VNull;
          "recordingMode" := VStr "streaming";
          "autoSend" := VBool true ]};
     isRecording := false;
     isConnected := false;
     fetches := [];
     storage := ∅ |}.

Definition with_recorder (r : AudioRecorder.t) (c : t) : t :=
  {| recorder := r; websocket := websocket c; uploader := uploader c;
     settings := settings c; isRecording := isRecording c;
     isConnected := isConnected c; fetches := fetches c;
     storage := storage c |}.

Definition with_websocket (w : WebSocketClient.t) (c : t) : t :=
  {| recorder := recorder c; websocket := w; uploader := uploader c;
     settings := settings c; isRecording := isRecording c;
     isConnected := isConnected c; fetches := fetches c;
     storage := storage c |}.

Definition with_uploader (u : FileUploader.t) (c : t) : t :=
  {| recorder := recorder c; websocket := websocket c; uploader := u;
     settings := settings c; isRecording := isRecording c;
     isConnected := isConnected c; fetches := fetches c;
     storage := storage c |}.

Definition with_settings (o : obj) (c : t) : t :=
  {| recorder := recorder c; websocket := websocket c;
     uploader := uploader c; settings := o;
     isRecording := isRecording c; isConnected := isConnected c;
     fetches := fetches c; storage := storage c |}.

Definition with_isRecording (b : bool) (c : t) : t :=
  {| recorder := recorder c; websocket := websocket c;
     uploader := uploader c; settings := settings c;
     isRecording := b; isConnected := isConnected c;
     fetches := fetches c; storage := storage c |}.

Definition with_isConnected (b : bool) (c : t) : t :=
  {| recorder := recorder c; websocket := websocket c;
     uploader := uploader c; settings := settings c;
     isRecording := isRecording c; isConnected := b;
     fetches := fetches c; storage := storage c |}.

Definition with_fetches (l : list request) (c : t) : t :=
  {| recorder := recorder c; websocket := websocket c;
     uploader := uploader c; settings := settings c;
     isRecording := isRecording c; isConnected := isConnected c;
     fetches := l; storage := storage c |}.

Definition with_storage (m : gmap string obj) (c : t) : t :=
  {| recorder := recorder c; websocket := websocket c;
     uploader := uploader c; settings := settings c;
     isRecording := isRecording c; isConnected := isConnected c;
     fetches := fetches c; storage := m |}.

(** [loadSettings()] and [saveSettings()], as in [AudioClient] *)
Definition loadSettings (c : t) : t :=
  with_settings
    (spread (settings c) (default ∅ (storage c !! "whisper-settings"))) c.

Definition saveSettings (c : t) : t :=
  with_storage (<["whisper-settings" := settings c]> (storage c)) c.

Definition sendConfig (c : t) : t * value :=
  if negb (isConnected c) then
    (c, VObj {[ "success" := VBool false; "error" := VStr "Not connected" ]})
  else
    let '(w, res) :=
      WebSocketClient.sendConfig (get (settings c) "model")
                                 (get (settings c) "language") (websocket c) in
    (with_websocket w c, res).

(** [async handleStreamingAudio(audioBlob)].  Nothing in the [try]
    block throws (the Blob is read from memory and
    [getSupportedMimeType] only asks the platform), so the [catch],
    which emits [error] with code [SEND_AUDIO_FAILED], is not taken;
    the events emitted are returned all the same. *)
Definition handleStreamingAudio (p : Platform) (audioBlob : Blob) (c : t)
  : t * list event * value :=
  let base64Data := blobToBase64 audioBlob in
  let format :=
    getFormatFromMimeType
      (if String.eqb (blob_type audioBlob) ""
       then AudioRecorder.getSupportedMimeType (browser p)
       else blob_type audioBlob) in
  let '(w, res) :=
    WebSocketClient.sendAudio (VStr base64Data) format
                              (get (settings c) "model")
                              (get (settings c) "language") (websocket c) in
  (with_websocket w c, [], res).

(** The subscribers [setupEventHandling] registers on the uploader. *)
Definition on_uploader (e : event) (c : t) : t * list event :=
  let '(name, data) := e in
  if String.eqb name "uploadStarted" then (c, [("uploadStarted", data)])
  else if String.eqb name "uploadCompleted" then (c, [("uploadCompleted", data)])
  else if String.eqb name "transcription" then (c, [("transcription", data)])
  else if String.eqb name "error" then (c, [("error", data)])
  else (c, []).

(** [async handleBatchRecording(recordingData)]; the result is [None]
    while the promise is pending. *)
Definition handleBatchRecording (p : Platform) (c : t)
  : t * list event * option value :=
  match AudioRecorder.getRecordingBlob (recorder c) with
  | None => (c, [], Some VUndefined)
  | Some audioBlob =>
      if isConnected c then
        let '(c1, evs, res) := handleStreamingAudio p audioBlob c in
        (c1, evs, Some res)
      else
        let file :=
          new_File audioBlob
            ("recording_" ++ pretty (AudioRecorder.now (browser p)) ++ ".webm")
            (blob_type audioBlob) in
        let '(eff, res) :=
          FileUploader.uploadAndWaitForResult
            (uploader c) (Some file)
            {| FileUploader.model := get (settings c) "model";
               FileUploader.language := get (settings c) "language";
               FileUploader.maxAttempts := None;
               FileUploader.pollInterval := None |}
            (upload_reply p) (poll_replies p) in
        let c1 := with_fetches (fetches c ++ FileUploader.requests eff) c in
        let '(c2, evs) := deliver on_uploader (FileUploader.emitted eff) c1 in
        (c2, evs, res)
  end.

(** The subscribers [setupEventHandling] registers on the websocket. *)
Definition on_websocket (e : event) (c : t) : t * list event :=
  let '(name, data) := e in
  if String.eqb name "connected" then
    ((sendConfig (with_isConnected true c)).1, [("connected", VUndefined)])
  else if String.eqb name "disconnected" then
    (with_isConnected false c, [("disconnected", data)])
  else if String.eqb name "reconnecting" then (c, [("reconnecting", data)])
  else if String.eqb name "transcription" then (c, [("transcription", data)])
  else if String.eqb name "error" then (c, [("error", data)])
  else (c, []).

(** [data.chunks.length > 0] *)
Definition has_chunks (data : value) : bool :=
  match data with
  | VObj o => match get o "chunks" with
              | VArr l => 0 <? Z.of_nat (length l)
              | _ => false
              end
  | _ => false
  end.

(** The subscribers [setupEventHandling] registers on the recorder.
    The recorder passes a Blob as [data.data]. *)
Definition on_recorder (p : Platform) (e : event) (c : t) : t * list event :=
  let '(name, data) := e in
  if String.eqb name "microphoneReady" then (c, [("microphoneReady", VUndefined)])
  else if String.eqb name "recordingStarted" then
    (with_isRecording true c, [("recordingStarted", VUndefined)])
  else if String.eqb name "recordingStopped" then
    let c1 := with_isRecording false c in
    if is_str (get (settings c1) "recordingMode") "batch" && has_chunks data then
      let '(c2, evs, _) := handleBatchRecording p c1 in
      (c2, ("recordingStopped", VUndefined) :: evs)
    else (c1, [("recordingStopped", VUndefined)])
  else if String.eqb name "audioData" then
    if is_str (get (settings c) "recordingMode") "streaming"
       && truthy (get (settings c) "autoSend") then
      match data with
      | VObj o =>
          match get o "data" with
          | VBlob audioBlob =>
              let '(c1, evs, _) := handleStreamingAudio p audioBlob c in
              (c1, evs)
          | _ => (c, [])
          end
      | _ => (c, [])
      end
    else (c, [])
  else if String.eqb name "audioLevel" then (c, [("audioLevel", data)])
  else if String.eqb name "error" then (c, [("error", data)])
  else (c, []).

(** *** The platform's callbacks *)

Definition socket_onopen (c : t) : t * list event :=
  let '(w, evs) := WebSocketClient.onopen (websocket c) in
  deliver on_websocket evs (with_websocket w c).

Definition socket_onclose (code : Z) (reason : string) (c : t)
  : t * list event :=
  let '(w, evs) := WebSocketClient.onclose code reason (websocket c) in
  deliver on_websocket evs (with_websocket w c).

Definition socket_onmessage (parsed : string + obj) (c : t) : t * list event :=
  let '(w, evs) := WebSocketClient.onmessage parsed (websocket c) in
  deliver on_websocket evs (with_websocket w c).

Definition recorder_ondataavailable (p : Platform) (data : option Blob)
           (c : t) : t * list event :=
  let '(r, evs) := AudioRecorder.ondataavailable data (recorder c) in
  deliver (on_recorder p) evs (with_recorder r c).

Definition recorder_onstop (p : Platform) (c : t) : t * list event :=
  let '(r, evs) := AudioRecorder.onstop (browser p) (recorder c) in
  deliver (on_recorder p) evs (with_recorder r c).

(** *** The client's methods *)

Definition connect (c : t) : t * value :=
  let '(w, res) := WebSocketClient.connect (websocket c) in
  (with_websocket w c, res).

Definition startRecording (p : Platform) (freq : list Byte.byte) (c : t)
  : t * list event * value :=
  if negb (isConnected c) then
    (c, [], VObj {[ "success" := VBool false;
                    "error" := VStr "Not connected to server" ]})
  else
    let options : obj :=
      {[ "timeslice" :=
           (if is_str (get (settings c) "recordingMode") "streaming"
            then VNum 1000 else VUndefined);
         "bitsPerSecond" := VNum 128000 ]} in
    let '(r, evs, res) :=
      AudioRecorder.startRecording (browser p) freq options (recorder c) in
    let '(c1, out) := deliver (on_recorder p) evs (with_recorder r c) in
    (c1, out, res).

Definition stopRecording (p : Platform) (c : t) : t * value :=
  let '(r, res) := AudioRecorder.stopRecording (browser p) (recorder c) in
  (with_recorder r c, res).

Definition updateSettings (newSettings : obj) (c : t) : t * list event :=
  let c1 := saveSettings (with_settings (spread (settings c) newSettings) c) in
  let c2 :=
    if truthy (get newSettings "maxFileSize") then
      with_uploader
        (FileUploader.updateUploadSettings
           {[ "maxFileSize" :=
                times (times (get newSettings "maxFileSize") 1024) 1024 ]}
           (uploader c1)) c1
    else c1 in
  let c3 := if isConnected c2 then (sendConfig c2).1 else c2 in
  (c3, [("settingsUpdated", VObj (settings c3))]).

Definition getSettings (c : t) : obj := spread ∅ (settings c).

(** [init()] in a browser with the features [f]; the subscribers of
    [setupEventHandling] are [on_recorder], [on_websocket] and
    [on_uploader] above. *)
Definition init (f : Utils.Features) (c : t) : t * list event :=
  let support := Utils.checkBrowserSupport f in
  if negb (Utils.supported support) then
    (c, [browser_not_supported (Utils.missing support)])
  else ((connect (loadSettings c)).1, []).

(** [async disconnect()] *)
Definition disconnect (p : Platform) (c : t) : t :=
  let c1 := (stopRecording p c).1 in
  with_websocket (WebSocketClient.disconnect (websocket c1)) c1.

End AudioClientV2.

(** ** TTSClient, the text-to-speech client *)

Module TTSClient.

(** [ws] is the socket, by its number; [sent] are the messages given to
    [ws.send] (before [JSON.stringify]), [timeouts] the delays of the
    timers set by [ws.onclose], and [sockets] the number of sockets
    created.  The optional callbacks ([onSynthesisStart],
    [onSynthesisComplete], [onSynthesisError]) are events: a callback that
    is set is called with the payload and returns. *)
Record t := {
  ws : option nat;
  isConnected : bool;
  currentAudioBlob : option Blob;
  sent : list value;
  timeouts : list Z;
  sockets : nat
}.

Definition constructor : t :=
  {| ws := None;
     isConnected := false;
     currentAudioBlob := None;
     sent := [];
     timeouts := [];
     sockets := 0 |}.

Definition with_isConnected (b : bool) (c : t) : t :=
  {| ws := ws c;
     isConnected := b;
     currentAudioBlob := currentAudioBlob c;
     sent := sent c;
     timeouts := timeouts c;
     sockets := sockets c |}.

(** [connectWebSocket()]: the URL is built from [window.location], so
    [new WebSocket] does not throw. *)
Definition connectWebSocket (c : t) : t :=
  {| ws := Some (sockets c);
     isConnected := isConnected c;
     currentAudioBlob := currentAudioBlob c;
     sent := sent c;
     timeouts := timeouts c;
     sockets := S (sockets c) |}.

(** [ws.onopen] *)
Definition onopen (c : t) : t := with_isConnected true c.

(** [ws.onclose]: the timer is set whatever closed the socket. *)
Definition onclose (c : t) : t :=
  {| ws := ws c;
     isConnected := false;
     currentAudioBlob := currentAudioBlob c;
     sent := sent c;
     timeouts := timeouts c ++ [3000];
     sockets := sockets c |}.

(** The callback [ws.onclose] hands to [setTimeout]. *)
Definition reconnectTimer (c : t) : t :=
  if negb (isConnected c) then connectWebSocket c else c.

(** [disconnect()] *)
Definition disconnect (c : t) : t :=
  match ws c with
  | Some _ =>
      {| ws := None;
         isConnected := false;
         currentAudioBlob := currentAudioBlob c;
         sent := sent c;
         timeouts := timeouts c;
         sockets := sockets c |}
  | None => c
  end.

(** A run of an async method: what its promise settles with ([inr] the
    message of the error thrown), the client, the callbacks called, the
    number of requests made and the delays waited for. *)
Record run (A : Type) := {
  outcome : A + string;
  client : t;
  called : list event;
  fetched : nat;
  waited : list Z
}.
Arguments outcome {A}.
Arguments client {A}.
Arguments called {A}.
Arguments fetched {A}.
Arguments waited {A}.

(** An answer of the server: [fetch] rejects, or there is a response
    with its [ok] and [statusText] and what [response.json()] gives, an
    object or the message of the error it throws. *)
Inductive reply :=
| Unreachable (message : string)
| Answered (ok : bool) (statusText : string) (body : string + obj).

Section Synthesis.

(** [atob] on the [data] of a result: the bytes, or the message of the
    [InvalidCharacterError]. *)
Variable atob : value -> string + list Byte.byte.

(** [handleSynthesisComplete(result)] *)
Definition handleSynthesisComplete (result : obj) (c : t)
  : (t * list event) + string :=
  match atob (get result "data") with
  | inr audioArray =>
      let blob := {| blob_bytes := audioArray; blob_type := "audio/wav" |} in
      inl ({| ws := ws c;
              isConnected := isConnected c;
              currentAudioBlob := Some blob;
              sent := sent c;
              timeouts := timeouts c;
              sockets := sockets c |},
           [("onSynthesisComplete",
             VObj {[ "blob" := VBlob blob; "result" := VObj result ]})])
  | inl message => inr message
  end.

(** The message of [new Error(result.error || 'Synthesis failed')]; the
    [error] of a result is a string, and the default text is used for any
    other. *)
Definition failure_message (result : obj) : string :=
  match or_else (get result "error") (VStr "Synthesis failed") with
  | VStr message => message
  | _ => "Synthesis failed"
  end.

(** The [for] loop of [pollSynthesisResult] with [n] attempts left;
    [replies] are the server's answers to the successive requests.  The
    result is [None] while a request is unanswered. *)
Fixpoint poll_loop (n : nat) (replies : list reply) (c : t)
  : option (run obj) :=
  match n with
  | O =>
      Some {| outcome := inr "Synthesis timeout"; client := c; called := [];
              fetched := 0; waited := [] |}
  | S n' =>
      match replies with
      | [] => None
      | answer :: replies' =>
          let thrown (message : string) :=
            Some {| outcome := inr message; client := c; called := [];
                    fetched := 1; waited := [1000] |} in
          match answer with
          | Unreachable message => thrown message
          | Answered false statusText _ =>
              thrown ("Failed to get synthesis result: " ++ statusText)%string
          | Answered true _ (inl message) => thrown message
          | Answered true _ (inr result) =>
              if is_str (get result "status") "completed" then
                match handleSynthesisComplete result c with
                | inl (c', evs) =>
                    Some {| outcome := inl result; client := c';
                            called := evs; fetched := 1; waited := [1000] |}
                | inr message => thrown message
                end
              else if is_str (get result "status") "failed" then
                thrown (failure_message result)
              else
                match poll_loop n' replies' c with
                | Some r =>
                    Some {| outcome := outcome r; client := client r;
                            called := called r; fetched := S (fetched r);
                            waited := 1000 :: waited r |}
                | None => None
                end
          end
      end
  end.

(** [async pollSynthesisResult(requestId, maxAttempts = 30)] *)
Definition pollSynthesisResult (maxAttempts : option Z)
           (replies : list reply) (c : t) : option (run obj) :=
  poll_loop (Z.to_nat (default 30 maxAttempts)) replies c.

End Synthesis.

(** [synthesizeSpeechWebSocket(text, voice, speed, format)]: it throws
    when the client is not connected. *)
Definition synthesizeSpeechWebSocket (text voice speed format : value) (c : t)
  : (t * list event) + string :=
  if negb (isConnected c) then inr "TTS WebSocket not connected"
  else
    inl ({| ws := ws c;
            isConnected := isConnected c;
            currentAudioBlob := currentAudioBlob c;
            sent := sent c ++ [VObj {[ "type" := VStr "text";
                                       "text" := text;
                                       "voice" := voice;
                                       "speed" := speed;
                                       "format" := format ]}];
            timeouts := timeouts c;
            sockets := sockets c |},
         [("onSynthesisStart", VUndefined)]).

End TTSClient.

(** * Sample data and runs *)

Definition big_wav : File :=
  {| file_name := "talk.wav";
     file_size := 60 * 1024 * 1024;
     file_type := "audio/wav";
     file_bytes := [] |}.

Definition chrome : AudioRecorder.Platform :=
  {| AudioRecorder.permission_error := None;
     AudioRecorder.getUserMedia_error := None;
     AudioRecorder.analysis_error := None;
     AudioRecorder.isTypeSupported := fun _ => true;
     AudioRecorder.new_MediaRecorder_error := None;
     AudioRecorder.start_error := None;
     AudioRecorder.stop_error := None;
     AudioRecorder.now := 1700000000000 |}.

(** A recorder that has been started once. *)
Definition started : AudioRecorder.t :=
  (AudioRecorder.startRecording chrome [] ∅ AudioRecorder.constructor).1.1.

Section UploadSamples.
Import FileUploader.

Definition no_options : Options :=
  {| model := VUndefined; language := VUndefined;
     maxAttempts := None; pollInterval := None |}.

Definition processing : response :=
  Responded true (inr {[ "status" := VStr "processing" ]}).

Definition completed : response :=
  Responded true
    (inr {[ "status" := VStr "completed";
            "text" := VStr "hello world";
            "language" := VStr "en";
            "processing_time" := VNum 2 ]}).

End UploadSamples.

Section DispatchSamples.
Import AudioClientV2.

Definition not_connected : value :=
  VObj {[ "success" := VBool false;
          "error" := VStr "Not connected to server";
          "code" := VStr "NOT_CONNECTED" ]}.

Definition is_GET (r : request) : bool :=
  match r with GET _ _ => true | _ => false end.

(** The Audio message for a blob whose format is read off [mimeType]. *)
Definition audio_message (mimeType : string) (audioBlob : Blob) (settings : obj)
  : value :=
  VObj {[ "type" := VStr "audio";
          "data" := VStr (blobToBase64 audioBlob);
          "format" := VStr (getFormatFromMimeType mimeType);
          "model" := get settings "model";
          "language" := get settings "language" ]}.

(** The blob [getRecordingBlob] builds: all recorded chunks, in order. *)
Definition recording (r : AudioRecorder.t) : Blob :=
  new_Blob (AudioRecorder.recordedChunks r)
           (match AudioRecorder.mediaRecorder r with
            | Some mimeType => mimeType
            | None => "audio/webm"
            end).

(** The type [handleStreamingAudio] reads the format from:
    [audioBlob.type || this.recorder.getSupportedMimeType()]. *)
Definition type_of (p : Platform) (audioBlob : Blob) : string :=
  if String.eqb (blob_type audioBlob) ""
  then AudioRecorder.getSupportedMimeType (browser p)
  else blob_type audioBlob.

(** The name [handleBatchRecording] gives the file it uploads. *)
Definition upload_of (p : Platform) (audioBlob : Blob) : File :=
  new_File audioBlob
           ("recording_" ++ pretty (AudioRecorder.now (browser p)) ++ ".webm")
           (blob_type audioBlob).

(** A chunk of three bytes as an encoder of type [type] delivers it. *)
Definition chunk_of (type : string) : Blob :=
  {| blob_bytes := [Byte.x4d; Byte.x61; Byte.x6e]; blob_type := type |}.

Definition chunk : Blob := chunk_of "audio/webm;codecs=opus".

Definition offline : Platform :=
  {| browser := chrome;
     upload_reply := Rejected "Failed to fetch";
     poll_replies := [] |}.

(** A browser whose encoder only writes the listed types. *)
Definition browser_with (supported : list string) : AudioRecorder.Platform :=
  {| AudioRecorder.permission_error := None;
     AudioRecorder.getUserMedia_error := None;
     AudioRecorder.analysis_error := None;
     AudioRecorder.isTypeSupported := fun type => bool_decide (type ∈ supported);
     AudioRecorder.new_MediaRecorder_error := None;
     AudioRecorder.start_error := None;
     AudioRecorder.stop_error := None;
     AudioRecorder.now := 1700000000000 |}.

(** The server accepts the upload and reports "completed" at once. *)
Definition platform_with (supported : list string) : Platform :=
  {| browser := browser_with supported;
     upload_reply :=
       Responded true (inr {[ "id" := VStr "req-1"; "status" := VStr "pending" ]});
     poll_replies := [completed] |}.

(** Chrome with the server in reach: it accepts an upload and reports
    "completed" at the first poll. *)
Definition online : Platform :=
  {| browser := chrome;
     upload_reply :=
       Responded true (inr {[ "id" := VStr "req-1"; "status" := VStr "pending" ]});
     poll_replies := [completed] |}.

(** Batch mode is chosen, the socket opens, a recording starts, the
    connection drops (code 1006) and the user stops: the encoder is about
    to deliver its chunks. *)
Definition interrupted : t :=
  let c := (updateSettings {[ "recordingMode" := VStr "batch" ]} constructor).1 in
  let c := (connect c).1 in
  let c := (socket_onopen c).1 in
  let c := (startRecording online [] c).1.1 in
  let c := (socket_onclose 1006 "" c).1 in
  (stopRecording online c).1.

(** A browser that records "audio/webm". *)
Definition webm : Platform := platform_with ["audio/webm"; "audio/ogg"].

End DispatchSamples.

(** ** Further runs *)

(** [send] called for each message in turn. *)
Definition sends (messages : list value) (c : WebSocketClient.t)
  : WebSocketClient.t :=
  foldl (fun c message => (WebSocketClient.send message c).1) c messages.

(** The message types [handleMessage] knows. *)
Definition known_types : list string :=
  ["connection"; "config"; "transcription"; "error"; "pong"].

(** The encoder's callbacks and the frames of the level loop, as they
    reach the recorder during a recording. *)
Inductive recorder_callback :=
| DataAvailable (data : option Blob)
| AnimationFrame (freq : list Byte.byte).

Definition recorder_step (r : AudioRecorder.t) (cb : recorder_callback)
  : AudioRecorder.t :=
  match cb with
  | DataAvailable data => (AudioRecorder.ondataavailable data r).1
  | AnimationFrame freq => (AudioRecorder.updateAudioLevel freq r).1
  end.

Definition recorder_run (cbs : list recorder_callback) (r : AudioRecorder.t)
  : AudioRecorder.t :=
  foldl recorder_step r cbs.

(** The chunks the [ondataavailable] handler keeps: those that are there
    and not empty. *)
Definition kept (cbs : list recorder_callback) : list Blob :=
  flat_map (fun cb => match cb with
                      | DataAvailable (Some d) =>
                          if 0 <? blob_size d then [d] else []
                      | _ => []
                      end) cbs.

(** The refusal [requestMicrophoneAccess] meets on the platform, if
    any. *)
Definition denial (p : AudioRecorder.Platform) : option string :=
  match AudioRecorder.permission_error p with
  | Some msg =>
      Some (if String.eqb msg "" then "Microphone access denied" else msg)
  | None => AudioRecorder.getUserMedia_error p
  end.

(** A status reply that keeps the poll loop going: a JSON body whose
    status is neither "completed" nor "failed", as it is for every body
    that is not an object or [null]. *)
Definition pending_reply (reply : response) : bool :=
  match reply with
  | Responded true (inr result) =>
      negb (is_str (get result "status") "completed")
      && negb (is_str (get result "status") "failed")
  | RespondedOther true _ => true
  | _ => false
  end.

(** The [polling] event of an attempt. *)
Definition polling_event (requestId : value) (attempt : Z) (status : value)
  : event :=
  ("polling",
   VObj {[ "requestId" := requestId;
           "attempt" := VNum attempt;
           "status" := status ]}).

(** The [polling] events of successive attempts from [first] on. *)
Fixpoint polling_events (requestId : value) (first : Z) (statuses : list value)
  : list event :=
  match statuses with
  | [] => []
  | status :: rest =>
      polling_event requestId first status
      :: polling_events requestId (first + 1) rest
  end.

(** The status a reply reports ([undefined] when it has no JSON body, or
    one that is no object). *)
Definition status_of (reply : response) : value :=
  match reply with
  | Responded _ (inr result) => get result "status"
  | _ => VUndefined
  end.

(** The events a single run of [poll] emits. *)
Definition poll_events (u : FileUploader.t) (requestId : value)
           (maxAttempts attempts : Z) (reply : response) : list event :=
  (FileUploader.poll u requestId maxAttempts attempts reply).1.1.2.

Definition terminal (e : event) : Prop :=
  e.1 = "transcription" \/ e.1 = "error".

Definition timeout_error (requestId : value) : value :=
  VObj {[ "success" := VBool false;
          "error" := VStr "Transcription timeout";
          "code" := VStr "TRANSCRIPTION_TIMEOUT";
          "requestId" := requestId ]}.

(** The Config message for the given settings. *)
Definition config_message (settings : obj) : value :=
  VObj {[ "type" := VStr "config";
          "model" := get settings "model";
          "language" := get settings "language" ]}.

(** The transport takes a message: [this.isConnected && this.websocket],
    and the socket held is past connecting. *)
Definition transport_open (w : WebSocketClient.t) : bool :=
  WebSocketClient.isConnected w
  && bool_decide (is_Some (WebSocketClient.websocket w))
  && negb (WebSocketClient.connecting w).

(** The failure [send] returns when the platform's [send] throws. *)
Definition send_failed (w : WebSocketClient.t) : value :=
  VObj {[ "success" := VBool false;
          "error" := VStr ("Failed to send message: "
                           ++ WebSocketClient.invalidState w);
          "code" := VStr "SEND_FAILED" ]}.

(** The chunks an [ondataavailable] handler keeps out of what the encoder
    delivers: those that are there and not empty. *)
Definition kept_chunks (datas : list (option Blob)) : list Blob :=
  flat_map (fun data => match data with
                        | Some d => if 0 <? blob_size d then [d] else []
                        | None => []
                        end) datas.

(** The encoder delivers [datas] to the composed client, one by one. *)
Definition chunks_run (p : AudioClientV2.Platform) (datas : list (option Blob))
           (c : AudioClientV2.t) : AudioClientV2.t :=
  foldl (fun c data => (AudioClientV2.recorder_ondataavailable p data c).1)
        c datas.


(** Batch mode is chosen, the socket opens and a recording starts. *)
Definition batch_recording : AudioClientV2.t :=
  let c :=
    (AudioClientV2.updateSettings {[ "recordingMode" := VStr "batch" ]}
                                  AudioClientV2.constructor).1 in
  let c := (AudioClientV2.socket_onopen (AudioClientV2.connect c).1).1 in
  (AudioClientV2.startRecording webm [] c).1.1.

(** The fresh client (streaming mode) after the socket opened and a
    recording started. *)
Definition streaming_recording : AudioClientV2.t :=
  let c :=
    (AudioClientV2.socket_onopen
       (AudioClientV2.connect AudioClientV2.constructor).1).1 in
  (AudioClientV2.startRecording webm [] c).1.1.


(** The reconnection loop of AudioClient as the platform drives it: the
    socket closes; if the close handler set a timer, the timer fires and
    [reconnect] runs.  The run counts the calls of [connect] and collects
    the delays waited for, the timers' and those of [Utils.retry]. *)
Definition closed_then_timer1 (f : Utils.Features)
           (run : AudioClient.t * nat * list Z) (close : Z * string)
  : AudioClient.t * nat * list Z :=
  let '(c, connects, delays) := run in
  let '(c1, _, timer) := AudioClient.onclose close.1 close.2 c in
  match timer with
  | Some d =>
      match AudioClient.reconnect f c1 with
      | Some r =>
          ((Utils.final r).1, (connects + Utils.calls r)%nat,
           delays ++ [d] ++ Utils.waits r)
      | None => (c1, connects, delays ++ [d])
      end
  | None => (c1, connects, delays)
  end.

Definition failures1 (f : Utils.Features) (closes : list (Z * string))
           (c : AudioClient.t) : AudioClient.t * nat * list Z :=
  foldl (closed_then_timer1 f) (c, 0%nat, []) closes.

(** The closes that are not intentional. *)
Definition abnormal (closes : list (Z * string)) : list (Z * string) :=
  List.filter (fun close : Z * string => negb (close.1 =? 1000)) closes.

(** A status reply that keeps [pollSynthesisResult] going: a JSON body
    whose status is neither "completed" nor "failed". *)
Definition still_synthesizing (answer : TTSClient.reply) : bool :=
  match answer with
  | TTSClient.Answered true _ (inr result) =>
      negb (is_str (get result "status") "completed")
      && negb (is_str (get result "status") "failed")
  | _ => false
  end.

(** [k] more requests, each after a wait of a second, before a run. *)
Definition after_attempts {A : Type} (k : nat) (r : TTSClient.run A)
  : TTSClient.run A :=
  {| TTSClient.outcome := TTSClient.outcome r;
     TTSClient.client := TTSClient.client r;
     TTSClient.called := TTSClient.called r;
     TTSClient.fetched := (k + TTSClient.fetched r)%nat;
     TTSClient.waited := repeat 1000 k ++ TTSClient.waited r |}.

(** [atob] that reads any text as no bytes. *)
Definition atob_empty (data : value) : string + list Byte.byte := inr [].

Definition synthesizing : TTSClient.reply :=
  TTSClient.Answered true "OK" (inr {[ "status" := VStr "processing" ]}).

Definition synthesized : obj :=
  {[ "status" := VStr "completed"; "data" := VStr "" ]}.

(** * Properties *)

(** ** Numbers *)

Lemma to_double_representable (z : Z) :
  representable z = true -> to_double z = z.
Proof. unfold representable, to_double. by intros ->. Qed.

(** Where no step rounds, [a * Math.pow(b, e)] is the product. *)
Lemma times_pow_exact (a b e : Z) :
  exact_times_pow a b e = true -> times_pow a b e = a * b ^ e.
Proof.
  unfold exact_times_pow, times_pow.
  intros [[[Ha Hb]%andb_true_iff Hp]%andb_true_iff Hm]%andb_true_iff.
  by rewrite (to_double_representable a), (to_double_representable b),
    (to_double_representable (b ^ e)), (to_double_representable (a * b ^ e)).
Qed.

(** ** Values *)

Lemma spread_lookup (a b : obj) (k : string) :
  spread a b !! k = match b !! k with Some v => Some v | None => a !! k end.
Proof.
  unfold spread. destruct (b !! k) as [v|] eqn:Hb.
  - by apply lookup_union_Some_l.
  - by rewrite lookup_union_r.
Qed.

Lemma spread_idemp (a b : obj) : spread (spread a b) b = spread a b.
Proof.
  unfold spread. by rewrite (assoc_L (∪)), (idemp_L (∪)).
Qed.

Lemma spread_empty (a : obj) : spread ∅ a = a.
Proof. unfold spread. apply (right_id_L ∅ (∪)). Qed.

Lemma get_insert_eq (o : obj) (k : string) (v : value) :
  get (<[k := v]> o) k = v.
Proof. unfold get. by rewrite lookup_insert_eq. Qed.

Lemma get_insert_ne (o : obj) (k k' : string) (v : value) :
  k ≠ k' -> get (<[k := v]> o) k' = get o k'.
Proof. intros Hne. unfold get. by rewrite lookup_insert_ne. Qed.

Lemma get_singleton_eq (k : string) (v : value) :
  get ({[ k := v ]} : obj) k = v.
Proof. unfold get. by rewrite lookup_singleton_eq. Qed.

Lemma get_singleton_ne (k k' : string) (v : value) :
  k ≠ k' -> get ({[ k := v ]} : obj) k' = VUndefined.
Proof. intros Hne. unfold get. by rewrite lookup_singleton_ne. Qed.

(** Reads the properties of object literals. *)
Ltac read_props :=
  repeat first
    [ rewrite get_insert_eq
    | rewrite get_insert_ne by done
    | rewrite get_singleton_eq
    | rewrite get_singleton_ne by done ].

(** ** File validation *)

Section Validation.
Import Utils.

Lemma validateAudioFile_too_large (f : File) :
  maxSize < file_size f ->
  get (validateAudioFile (Some f)) "valid" = VBool false.
Proof.
  intros Hsize. unfold validateAudioFile.
  apply Z.ltb_lt in Hsize. by rewrite Hsize.
Qed.

Lemma validateAudioFile_unsupported (f : File) :
  file_type f ∉ supportedTypes ->
  get (validateAudioFile (Some f)) "valid" = VBool false.
Proof.
  intros Htype. unfold validateAudioFile.
  destruct (maxSize <? file_size f); [done|].
  by rewrite bool_decide_eq_false_2.
Qed.

Lemma validateAudioFile_valid (f : File) :
  file_size f <= maxSize ->
  file_type f ∈ supportedTypes ->
  validateAudioFile (Some f) = {[ "valid" := VBool true ]}.
Proof.
  intros Hsize Htype. unfold validateAudioFile.
  apply Z.ltb_ge in Hsize. rewrite Hsize.
  by rewrite bool_decide_eq_true_2.
Qed.

(** The verdict is one of three objects, and it is positive exactly for
    a file within the ceiling whose type is on the list. *)
Lemma validateAudioFile_valid_iff (f : File) :
  truthy (get (validateAudioFile (Some f)) "valid") = true <->
  file_size f <= maxSize /\ file_type f ∈ supportedTypes.
Proof.
  split.
  - intros Hv.
    destruct (Z.lt_ge_cases maxSize (file_size f)) as [Hlt|Hge].
    { rewrite (validateAudioFile_too_large f Hlt) in Hv. discriminate. }
    split; [lia|].
    destruct (decide (file_type f ∈ supportedTypes)) as [|Hnot]; [done|].
    rewrite (validateAudioFile_unsupported f Hnot) in Hv. discriminate.
  - intros [Hsize Htype]. by rewrite validateAudioFile_valid.
Qed.
End Validation.

(** C5.  A file larger than the 50 MB ceiling, or of a type that is not on
    the allow-list, is refused by [uploadFile]: the result is the failure
    object with code [FILE_VALIDATION_FAILED] (also emitted as [error]),
    and no request is made, whatever the uploader's settings, the options
    and the server would answer. *)
Theorem uploadFile_invalid_no_request
        (u : FileUploader.t) (f : File) (options : FileUploader.Options)
        (reply : response) :
  Utils.maxSize < file_size f \/ file_type f ∉ Utils.supportedTypes ->
  exists error : obj,
    FileUploader.uploadFile u (Some f) options reply
    = ({| FileUploader.emitted := [("error", VObj error)];
          FileUploader.requests := [] |}, VObj error)
    /\ error !! "success" = Some (VBool false)
    /\ error !! "code" = Some (VStr "FILE_VALIDATION_FAILED").
Proof.
  intros Hbad.
  assert (get (Utils.validateAudioFile (Some f)) "valid" = VBool false) as Hv.
  { destruct Hbad as [Hsize|Htype].
    - by apply validateAudioFile_too_large.
    - by apply validateAudioFile_unsupported. }
  unfold FileUploader.uploadFile, FileUploader.validateFile.
  rewrite Hv. simpl.
  eexists. split; [reflexivity|]. split; reflexivity.
Qed.

Lemma uploadFile_invalid_no_request_witness :
  exists error : obj,
    FileUploader.uploadFile FileUploader.constructor (Some big_wav)
      {| FileUploader.model := VUndefined; FileUploader.language := VUndefined;
         FileUploader.maxAttempts := None; FileUploader.pollInterval := None |}
      (Rejected "offline")
    = ({| FileUploader.emitted := [("error", VObj error)];
          FileUploader.requests := [] |}, VObj error)
    /\ error !! "success" = Some (VBool false)
    /\ error !! "code" = Some (VStr "FILE_VALIDATION_FAILED").
Proof.
  apply uploadFile_invalid_no_request.
  left. vm_compute. reflexivity.
Defined.

(** C10.  Validation does not read [uploadSettings]: after any sequence
    of [updateUploadSettings] calls [validateFile] gives the verdict of
    [Utils.validateAudioFile], with its fixed 50 MB ceiling and its fixed
    list of types, and [uploadFile] refuses a file without a request after
    the updates exactly when it did before them. *)
Theorem validateFile_ignores_uploadSettings
        (u : FileUploader.t) (updates : list obj) (file : option File)
        (options : FileUploader.Options) (reply : response) :
  let u' := foldl (fun u settings => FileUploader.updateUploadSettings settings u)
                  u updates in
  FileUploader.validateFile u' file = Utils.validateAudioFile file
  /\ FileUploader.validateFile u' file = FileUploader.validateFile u file
  /\ (FileUploader.uploadFile u' file options reply).2
     = (FileUploader.uploadFile u file options reply).2
  /\ (FileUploader.requests (FileUploader.uploadFile u' file options reply).1 = []
      <-> truthy (get (Utils.validateAudioFile file) "valid") = false).
Proof.
  intros u'. split; [done|]. split; [done|].
  unfold FileUploader.uploadFile, FileUploader.validateFile.
  destruct file as [f|]; [|by split].
  unfold falsy.
  destruct (truthy (get (Utils.validateAudioFile (Some f)) "valid")) eqn:Hv; simpl.
  - split.
    + by destruct reply as [m|[] [m|o]|[] m|[] o].
    + split; [|done].
      by destruct reply as [m|[] [m|o]|[] m|[] o].
  - by split.
Qed.

(** The configured ceiling and list can be made as strict as one likes:
    a two-byte WAV file still passes. *)
Example validateFile_after_strict_settings :
  FileUploader.validateFile
    (FileUploader.updateUploadSettings
       {[ "maxFileSize" := VNum 1; "supportedFormats" := VArr [] ]}
       FileUploader.constructor)
    (Some {| file_name := "a.wav"; file_size := 2; file_type := "audio/wav";
             file_bytes := [Byte.x00; Byte.x00] |})
  = {[ "valid" := VBool true ]}.
Proof. reflexivity. Qed.

(** ** Recording state *)

Section Recording.
Import AudioRecorder.

(** A start that reports success leaves the recorder recording. *)
Lemma startRecording_success (p : Platform) (freq : list Byte.byte)
      (options : obj) (r : t) (o : obj) :
  (startRecording p freq options r).2 = VObj o ->
  get o "success" = VBool true ->
  isRecording (startRecording p freq options r).1.1 = true.
Proof.
  assert (forall r0 o0,
             (startRecording_try p options r0).2 = VObj o0 ->
             get o0 "success" = VBool true ->
             isRecording (startRecording_try p options r0).1.1 = true) as Htry.
  { intros r0 o0. unfold startRecording_try, start_failed.
    destruct (new_MediaRecorder_error p); cbn [fst snd].
    - intros [= <-]. by read_props.
    - destruct (start_error p); cbn [fst snd]; [|done].
      intros [= <-]. by read_props. }
  unfold startRecording.
  destruct (isRecording r) eqn:Hrec; [done|].
  destruct (audioStream r); cbn [negb]; [apply Htry|].
  destruct (requestMicrophoneAccess p freq r) as [[r1 evs] accessResult].
  destruct accessResult as [| | | | | | | | |a]; cbn [fst snd]; try done.
  destruct (falsy (get a "success")) eqn:Hfalsy; cbn [fst snd].
  - intros [= <-] Hs. rewrite Hs in Hfalsy. discriminate.
  - pose proof (Htry r1) as Htry1.
    destruct (startRecording_try p options r1) as [[r2 evs'] res].
    apply Htry1.
Qed.

(** Whatever [stopRecording] answers, the recorder is not recording
    afterwards (a recorder that is recording has its [mediaRecorder]:
    [startRecording] sets the flag after creating it). *)
Lemma stopRecording_not_recording (p : Platform) (r : t) :
  (isRecording r = true -> is_Some (mediaRecorder r)) ->
  isRecording (stopRecording p r).1 = false.
Proof.
  intros Hmr. unfold stopRecording.
  destruct (isRecording r) eqn:Hrec; cbn [negb orb]; [|done].
  rewrite bool_decide_eq_true_2 by auto. cbn [negb].
  by destruct (stop_error p).
Qed.

(** The encoder's callbacks and the level loop do not touch the flag. *)
Lemma callbacks_keep_isRecording (p : Platform) (data : option Blob)
      (freq : list Byte.byte) (r : t) :
  isRecording (ondataavailable data r).1 = isRecording r
  /\ isRecording (onstop p r).1 = isRecording r
  /\ isRecording (updateAudioLevel freq r).1 = isRecording r.
Proof.
  unfold ondataavailable, onstop, updateAudioLevel. repeat split.
  - destruct data as [d|]; [|done]. by destruct (0 <? blob_size d).
  - by destruct (negb (analyser r) || _).
Qed.

End Recording.

(** C6.  [startRecording] on a recorder that is recording fails with
    "Already recording", and [stopRecording] on a recorder that is not
    recording fails with "Not recording".  Either way the recorder is left
    exactly as it was (its recording flag, its chunks, and the calls made
    on the encoder: nothing is started or stopped) and no event is
    emitted.  The recorders are arbitrary, so this holds after any sequence
    of operations. *)
Theorem start_while_recording_stop_while_idle
        (p : AudioRecorder.Platform) (freq : list Byte.byte) (options : obj)
        (recording idle : AudioRecorder.t) :
  AudioRecorder.isRecording recording = true ->
  AudioRecorder.isRecording idle = false ->
  AudioRecorder.startRecording p freq options recording
  = (recording, [],
     VObj {[ "success" := VBool false; "error" := VStr "Already recording" ]})
  /\ AudioRecorder.stopRecording p idle
     = (idle, VObj {[ "success" := VBool false; "error" := VStr "Not recording" ]}).
Proof.
  intros Hrec Hidle. split.
  - unfold AudioRecorder.startRecording. by rewrite Hrec.
  - unfold AudioRecorder.stopRecording. by rewrite Hidle.
Qed.

Lemma start_while_recording_stop_while_idle_witness :
  AudioRecorder.startRecording chrome [] ∅ started
  = (started, [],
     VObj {[ "success" := VBool false; "error" := VStr "Already recording" ]})
  /\ AudioRecorder.stopRecording chrome AudioRecorder.constructor
     = (AudioRecorder.constructor,
        VObj {[ "success" := VBool false; "error" := VStr "Not recording" ]}).
Proof.
  apply start_while_recording_stop_while_idle; reflexivity.
Defined.

(** ** Settings *)

(** C7.  After [updateSettings(P)], [getSettings()] is the old settings
    overridden by the properties of [P]: a property of [P] reads as [P]
    has it, any other property as before.  Updating with the same [P]
    again changes nothing.  This holds for both clients. *)
Theorem updateSettings_merges
        (P : obj) (c1 : AudioClient.t) (c2 : AudioClientV2.t) :
  let c1' := (AudioClient.updateSettings P c1).1 in
  let c2' := (AudioClientV2.updateSettings P c2).1 in
  AudioClient.getSettings c1' = spread (AudioClient.settings c1) P
  /\ AudioClientV2.getSettings c2' = spread (AudioClientV2.settings c2) P
  /\ (forall k : string,
        AudioClient.getSettings c1' !! k
        = match P !! k with
          | Some v => Some v
          | None => AudioClient.getSettings c1 !! k
          end)
  /\ (forall k : string,
        AudioClientV2.getSettings c2' !! k
        = match P !! k with
          | Some v => Some v
          | None => AudioClientV2.getSettings c2 !! k
          end)
  /\ AudioClient.getSettings (AudioClient.updateSettings P c1').1
     = AudioClient.getSettings c1'
  /\ AudioClientV2.getSettings (AudioClientV2.updateSettings P c2').1
     = AudioClientV2.getSettings c2'.
Proof.
  assert (forall c, AudioClient.settings (AudioClient.updateSettings P c).1
                    = spread (AudioClient.settings c) P) as H1.
  { intros c. unfold AudioClient.updateSettings, AudioClient.sendConfig. simpl.
    destruct (AudioClient.isConnected c); simpl; [|done].
    by destruct (AudioClient.websocket c). }
  assert (forall c, AudioClientV2.settings (AudioClientV2.updateSettings P c).1
                    = spread (AudioClientV2.settings c) P) as H2.
  { intros c. unfold AudioClientV2.updateSettings, AudioClientV2.sendConfig. simpl.
    destruct (truthy (get P "maxFileSize")); simpl;
      destruct (AudioClientV2.isConnected c); simpl; try done;
      by destruct (WebSocketClient.sendConfig _ _ _). }
  intros c1' c2'. unfold AudioClient.getSettings, AudioClientV2.getSettings.
  rewrite !spread_empty. subst c1' c2'. rewrite !H1, !H2.
  repeat split; try done.
  - intros k. apply spread_lookup.
  - intros k. apply spread_lookup.
  - apply spread_idemp.
  - apply spread_idemp.
Qed.

(** ** Audio level *)

Lemma getAudioLevel_range (audioData : option (list Byte.byte)) :
  (0 <= Utils.getAudioLevel audioData <= 1)%R.
Proof.
  unfold Utils.getAudioLevel.
  destruct audioData as [[|b d]|]; try lra.
  split.
  - apply Rmin_glb; [lra|].
    apply Rmult_le_pos; [apply sqrt_pos|lra].
  - apply Rmin_l.
Qed.

(** C9.  For every array of frequency bytes, the empty one included, the
    level [Utils.getAudioLevel] computes lies in [[0,1]], and every event
    [updateAudioLevel] emits is an [audioLevel] event carrying such a
    level.  (The square root and the products are those of the reals;
    bytes are 0..255 by their type.) *)
Theorem audioLevel_normalized (freq : list Byte.byte) (r : AudioRecorder.t) :
  (0 <= Utils.getAudioLevel (Some freq) <= 1)%R
  /\ Forall (fun ev : event =>
               exists level : R,
                 ev = ("audioLevel", VReal level) /\ (0 <= level <= 1)%R)
            (AudioRecorder.updateAudioLevel freq r).2.
Proof.
  split; [apply getAudioLevel_range|].
  unfold AudioRecorder.updateAudioLevel.
  destruct (negb (AudioRecorder.analyser r) || _); cbn [snd]; [constructor|].
  constructor; [|constructor].
  exists (Utils.getAudioLevel (Some freq)).
  split; [reflexivity|apply getAudioLevel_range].
Qed.

(** ** Reconnection *)

Section Reconnection.
Import WebSocketClient.

Lemma closed_then_timer_retries (close : Z * string) (c : t) (a : nat) :
  close.1 ≠ 1000 ->
  currentAttempt c = Z.of_nat a ->
  (a < Z.to_nat (reconnectAttempts (connectionSettings c)))%nat ->
  let c' := closed_then_timer close c in
  connectionSettings c' = connectionSettings c
  /\ currentAttempt c' = Z.of_nat (S a)
  /\ timeouts c' = timeouts c ++ [backoff_delay (connectionSettings c) (S a)].
Proof.
  intros Hcode Hcur Hlt.
  unfold closed_then_timer, onclose, shouldReconnect. cbn.
  apply Z.eqb_neq in Hcode. rewrite Hcode. cbn.
  assert ((currentAttempt c <? reconnectAttempts (connectionSettings c)) = true)
    as ->.
  { apply Z.ltb_lt. lia. }
  cbn. unfold backoff_delay.
  replace (currentAttempt c + 1 - 1) with (Z.of_nat (S a) - 1) by lia.
  match goal with
  | |- context [if ?timer_set then _ else _] => destruct timer_set
  end; cbn; repeat split; lia.
Qed.

Lemma closed_then_timer_exhausted (close : Z * string) (c : t) (a : nat) :
  currentAttempt c = Z.of_nat a ->
  (Z.to_nat (reconnectAttempts (connectionSettings c)) <= a)%nat ->
  let c' := closed_then_timer close c in
  connectionSettings c' = connectionSettings c
  /\ currentAttempt c' = Z.of_nat a
  /\ timeouts c' = timeouts c.
Proof.
  intros Hcur Hge.
  unfold closed_then_timer, onclose, shouldReconnect. cbn.
  assert ((currentAttempt c <? reconnectAttempts (connectionSettings c)) = false)
    as ->.
  { apply Z.ltb_ge. lia. }
  rewrite andb_false_r. cbn.
  match goal with
  | |- context [if ?timer_set then _ else _] => destruct timer_set
  end; cbn; done.
Qed.

Lemma failures_schedule (closes : list (Z * string)) :
  forall (c : t) (a : nat),
    Forall (fun close => close.1 ≠ 1000) closes ->
    currentAttempt c = Z.of_nat a ->
    let s := connectionSettings c in
    let n := min (length closes) (Z.to_nat (reconnectAttempts s) - a) in
    connectionSettings (failures closes c) = s
    /\ currentAttempt (failures closes c) = Z.of_nat (a + n)
    /\ timeouts (failures closes c)
       = timeouts c ++ map (backoff_delay s) (seq (S a) n).
Proof.
  induction closes as [|close closes IH]; intros c a Hcodes Hcur; cbn zeta.
  - cbn. rewrite app_nil_r, Nat.add_0_r. done.
  - apply Forall_cons in Hcodes as [Hcode Hcodes].
    change (failures (close :: closes) c)
      with (failures closes (closed_then_timer close c)).
    destruct (le_lt_dec (Z.to_nat (reconnectAttempts (connectionSettings c))) a)
      as [Hge|Hlt].
    + destruct (closed_then_timer_exhausted close c a Hcur Hge)
        as (Hs & Ha & Ht).
      destruct (IH _ a Hcodes Ha) as (Hs' & Ha' & Ht').
      rewrite Hs in *. rewrite Hs', Ha', Ht', Ht.
      replace (Z.to_nat (reconnectAttempts (connectionSettings c)) - a)%nat
        with 0%nat by lia.
      rewrite !Nat.min_0_r. done.
    + destruct (closed_then_timer_retries close c a Hcode Hcur Hlt)
        as (Hs & Ha & Ht).
      destruct (IH _ (S a) Hcodes Ha) as (Hs' & Ha' & Ht').
      rewrite Hs in *. rewrite Hs', Ha', Ht', Ht.
      set (m := Z.to_nat (reconnectAttempts (connectionSettings c))) in *.
      replace (min (length (close :: closes)) (m - a))
        with (S (min (length closes) (m - S a))) by (cbn [length]; lia).
      split; [done|]. split; [f_equal; lia|].
      rewrite <- app_assoc. done.
Qed.

(** C3.  Take any client and let its socket open: the attempt counter
    is 0.  Let the connection then fail any number of times in a row
    (each close with a code other than 1000, each timer firing and
    reconnecting).  The timers set are, in order, those of attempts
    1, 2, ... and there are as many as there were failures but never more
    than [reconnectAttempts]: once that many attempts have failed no timer
    is set any more.  The delay of attempt [n] is
    [reconnectDelay * reconnectBackoff ^ (n - 1)] as long as the settings,
    the power and the product are integers a double holds exactly (up to
    2^53 in size): the code computes on doubles, which round beyond. *)
Theorem reconnect_backoff (c : t) (closes : list (Z * string)) :
  Forall (fun close => close.1 ≠ 1000) closes ->
  let s := connectionSettings c in
  let attempts := min (length closes) (Z.to_nat (reconnectAttempts s)) in
  (forall n : nat,
      (1 <= n <= attempts)%nat ->
      exact_times_pow (reconnectDelay s) (reconnectBackoff s) (Z.of_nat n - 1)
      = true) ->
  currentAttempt (onopen c).1 = 0
  /\ timeouts (failures closes (onopen c).1)
     = timeouts c
       ++ map (fun n => reconnectDelay s * reconnectBackoff s ^ (Z.of_nat n - 1))
              (seq 1 attempts)
  /\ currentAttempt (failures closes (onopen c).1) = Z.of_nat attempts.
Proof.
  intros Hcodes s attempts Hexact. split; [done|].
  destruct (failures_schedule closes (onopen c).1 0 Hcodes eq_refl)
    as (_ & Ha & Ht).
  cbn zeta in Ha, Ht. rewrite Nat.sub_0_r in Ha, Ht.
  split; [|apply Ha].
  rewrite Ht. f_equal. apply map_ext_in. intros n Hn.
  apply in_seq in Hn. unfold backoff_delay.
  apply times_pow_exact, Hexact. clearbody attempts. clear -Hn. lia.
Qed.

Lemma reconnect_backoff_witness :
  timeouts (failures (repeat (1006, "") 7) (onopen constructor).1)
  = [1000; 2000; 4000; 8000; 16000]
  /\ currentAttempt (failures (repeat (1006, "") 7) (onopen constructor).1) = 5.
Proof.
  assert (Forall (fun close : Z * string => close.1 ≠ 1000)
                 (repeat (1006, "") 7)) as Hcodes.
  { repeat constructor; cbn; lia. }
  destruct (reconnect_backoff constructor _ Hcodes) as (_ & Ht & Ha).
  { intros n Hn. change (1 <= n <= 5)%nat in Hn.
    assert (n = 1 \/ n = 2 \/ n = 3 \/ n = 4 \/ n = 5)%nat
      as [->|[->|[->|[->| ->]]]] by lia; reflexivity. }
  split; [exact Ht|exact Ha].
Defined.

End Reconnection.

(** ** Event emitter *)

Section Emitter.
Import Utils.EventEmitter.
Context {D W : Type}.
Variable call :
  callback -> D -> gmap string (list callback) * W ->
  (gmap string (list callback) * W) * completion.

Lemma on_registers (events : gmap string (list callback))
      (event' : string) (cb : callback) :
  event' ∉ inherited ->
  exists events' : gmap string (list callback),
    on event' cb events = Some events'
    /\ forall event : string,
         subscribers events' event
         = subscribers events event
           ++ (if decide (event' = event) then [cb] else []).
Proof.
  intros Hname. unfold on. rewrite bool_decide_eq_false_2 by done.
  destruct (events !! event') as [cbs|] eqn:He; eexists;
    (split; [reflexivity|]); intros event; unfold subscribers;
    (destruct (decide (event' = event)) as [->|Hne];
     [rewrite lookup_insert_eq, He; done
     |rewrite lookup_insert_ne by done; by rewrite app_nil_r]).
Qed.

Lemma register_subscribers (registrations : list (string * callback)) :
  forall events : gmap string (list callback),
    Forall (fun r => r.1 ∉ inherited) registrations ->
    exists events' : gmap string (list callback),
      register registrations events = Some events'
      /\ forall event : string,
           subscribers events' event
           = subscribers events event
             ++ map snd (filter (fun r => r.1 = event) registrations).
Proof.
  induction registrations as [|[event' cb] registrations IH];
    intros events Hnames.
  - exists events. split; [done|]. intros event. by rewrite app_nil_r.
  - apply Forall_cons in Hnames as [Hname Hnames].
    destruct (on_registers events event' cb Hname) as (events1 & Hon & Hsubs).
    destruct (IH events1 Hnames) as (events' & Hreg & Hsubs').
    exists events'. split.
    + unfold register in *. cbn [foldl mbind option_bind fst snd].
      by rewrite Hon.
    + intros event. rewrite Hsubs', Hsubs, filter_cons. cbn [fst].
      destruct (decide (event' = event)); cbn;
        by rewrite <- ?app_assoc, ?app_nil_r.
Qed.

(** The loop of [emit] is the fan-out, one subscriber after the other. *)
Lemma forEach_fan_out (cbs : list callback) (data : D) :
  forall st done errs,
    forEach call cbs data st done errs
    = {| after := (fan_out call cbs data st).1;
         calls := done ++ (fan_out call cbs data st).2;
         console_errors :=
           errs + length (filter (fun x => x.2 = Threw)
                                 (fan_out call cbs data st).2) |}.
Proof.
  induction cbs as [|cb cbs IH]; intros st done errs; cbn [forEach fan_out].
  - cbn. by rewrite app_nil_r, Nat.add_0_r.
  - destruct (call cb data st) as [st' c]. rewrite IH.
    destruct (fan_out call cbs data st') as [st'' invocations].
    cbn [fst snd]. rewrite <- app_assoc. cbn [app]. f_equal.
    rewrite filter_cons. cbn [snd].
    destruct c; [rewrite decide_False by done|rewrite decide_True by done];
      cbn [length]; lia.
Qed.

(** An event name inherited from [Object.prototype] never has a
    subscriber: [on], [off] and [emit] all throw on it. *)
Lemma inherited_name_throws (events : gmap string (list callback)) (w : W)
      (event : string) (cb : callback) (data : D) :
  event ∈ inherited ->
  on event cb events = None
  /\ off event cb events = None
  /\ emit call event data (events, w) = None.
Proof.
  intros Hname. unfold on, off, emit.
  by rewrite !bool_decide_eq_true_2.
Qed.

(** C8.  Start from any emitter and register subscribers with [on], for
    any event names (other than those a plain object inherits, on which
    [on] throws) in any order.  The subscribers of [event] are then the
    earlier ones followed by the new ones in the order they were
    registered, each once per registration, and an [emit] of [event] is
    the synchronous fan-out to them: each is invoked with the emitted
    data on the state its predecessor left, and [emit] returns the state
    the last one left.  This holds whatever the subscribers do: [call] is
    arbitrary, so any of them may throw (the catch logs one line and the
    loop goes on to the next) or change the emitter meanwhile. *)
Theorem emit_calls_in_registration_order
        (events : gmap string (list callback)) (w : W)
        (registrations : list (string * callback))
        (event : string) (data : D) :
  event ∉ inherited ->
  Forall (fun r => r.1 ∉ inherited) registrations ->
  exists events' : gmap string (list callback),
    register registrations events = Some events'
    /\ subscribers events' event
       = subscribers events event
         ++ map snd (filter (fun r => r.1 = event) registrations)
    /\ let delivery :=
         fan_out call (subscribers events' event) data (events', w) in
       emit call event data (events', w)
       = Some {| after := delivery.1;
                 calls := delivery.2;
                 console_errors :=
                   length (filter (fun x => x.2 = Threw) delivery.2) |}
       /\ map fst delivery.2
          = map (fun cb => (cb, data)) (subscribers events' event).
Proof.
  intros Hname Hnames.
  destruct (register_subscribers registrations events Hnames)
    as (events' & Hreg & Hsubs).
  exists events'. split; [exact Hreg|]. split; [apply Hsubs|].
  cbn zeta. split.
  - unfold emit, subscribers. rewrite bool_decide_eq_false_2 by done.
    cbn [fst]. destruct (events' !! event) as [cbs|]; cbn [default].
    + by rewrite forEach_fan_out.
    + done.
  - generalize (events', w). generalize (subscribers events' event).
    induction l as [|cb cbs IH]; intros st; cbn [fan_out]; [done|].
    destruct (call cb data st) as [st' c]. specialize (IH st').
    destruct (fan_out call cbs data st') as [st'' invocations].
    cbn [snd map fst] in *. by rewrite IH.
Qed.

End Emitter.

(** Subscribers 1 and 3 of "error" and 2 of "data" are registered; the
    first appends the data to a log, the third throws. *)
Lemma emit_calls_in_registration_order_witness :
  let call (cb : Utils.EventEmitter.callback) (data : string)
           (st : gmap string (list Utils.EventEmitter.callback) * list string) :=
    match cb with
    | 3%nat => (st, Utils.EventEmitter.Threw)
    | _ => ((st.1, st.2 ++ [data]), Utils.EventEmitter.Returned)
    end in
  exists events',
    Utils.EventEmitter.register
      [("error", 1%nat); ("data", 2%nat); ("error", 3%nat)] ∅ = Some events'
    /\ Utils.EventEmitter.subscribers events' "error" = [1%nat; 3%nat]
    /\ Utils.EventEmitter.emit call "error" "boom" (events', [])
       = Some {| Utils.EventEmitter.after := (events', ["boom"]);
                 Utils.EventEmitter.calls :=
                   [ (1%nat, "boom", Utils.EventEmitter.Returned);
                     (3%nat, "boom", Utils.EventEmitter.Threw) ];
                 Utils.EventEmitter.console_errors := 1 |}.
Proof.
  cbn zeta.
  destruct (emit_calls_in_registration_order
              (fun (cb : Utils.EventEmitter.callback) (data : string)
                   (st : gmap string (list Utils.EventEmitter.callback)
                         * list string) =>
                 match cb with
                 | 3%nat => (st, Utils.EventEmitter.Threw)
                 | _ => ((st.1, st.2 ++ [data]), Utils.EventEmitter.Returned)
                 end)
              ∅ []
              [("error", 1%nat); ("data", 2%nat); ("error", 3%nat)]
              "error" "boom")
    as (events' & Hreg & Hsubs & Hemit & _).
  - compute_done.
  - repeat constructor; compute_done.
  - exists events'. split; [exact Hreg|]. split; [exact Hsubs|].
    rewrite Hemit, Hsubs. reflexivity.
Defined.

(** Three subscribers of one event, the second of which throws and the
    first of which unsubscribes the third: all three are called, in
    order. *)
Example emit_with_throwing_subscriber :
  let call (cb : Utils.EventEmitter.callback) (data : string)
           (st : gmap string (list Utils.EventEmitter.callback) * list string) :=
    let st' := (st.1, st.2 ++ [data]) in
    match cb with
    | 1%nat => ((default st.1 (Utils.EventEmitter.off "error" 3%nat st.1),
                 st'.2),
                Utils.EventEmitter.Returned)
    | 2%nat => (st, Utils.EventEmitter.Threw)
    | _ => (st', Utils.EventEmitter.Returned)
    end in
  exists events r,
    Utils.EventEmitter.register
      [("error", 1%nat); ("error", 2%nat); ("error", 3%nat)] ∅ = Some events
    /\ Utils.EventEmitter.emit call "error" "boom" (events, []) = Some r
    /\ Utils.EventEmitter.calls r
       = [ (1%nat, "boom", Utils.EventEmitter.Returned);
           (2%nat, "boom", Utils.EventEmitter.Threw);
           (3%nat, "boom", Utils.EventEmitter.Returned) ]
    /\ Utils.EventEmitter.console_errors r = 1%nat
    /\ (Utils.EventEmitter.after r).1 !! "error" = Some [1%nat; 2%nat]
    /\ (Utils.EventEmitter.after r).2 = ["boom"; "boom"].
Proof. vm_compute. do 2 eexists. repeat split. Qed.

(** ** Polling for the result *)

Section Polling.
Import FileUploader.

(** What the promise of [pollForResult] resolves with is decided by the
    first reply alone.  A terminal status, or running out of attempts at
    the first one, gives the matching result object. *)
Lemma pollForResult_first_reply_completed
      (u : t) (requestId : value) (options : Options)
      (result : obj) (replies : list response) :
  is_str (get result "status") "completed" = true ->
  (pollForResult u requestId options (Responded true (inr result) :: replies)).2
  = Some (VObj {[ "success" := VBool true; "result" := VObj result ]}).
Proof.
  intros Hs. unfold pollForResult, poll. by rewrite Hs.
Qed.

Lemma pollForResult_first_reply_failed
      (u : t) (requestId : value) (options : Options)
      (result : obj) (replies : list response) :
  is_str (get result "status") "completed" = false ->
  is_str (get result "status") "failed" = true ->
  (pollForResult u requestId options (Responded true (inr result) :: replies)).2
  = Some (VObj {[ "success" := VBool false;
                  "error" := or_else (get result "error")
                                     (VStr "Transcription failed");
                  "code" := VStr "TRANSCRIPTION_FAILED";
                  "requestId" := requestId ]}).
Proof.
  intros Hc Hf. unfold pollForResult, poll. by rewrite Hc, Hf.
Qed.

(** Any other status with attempts left makes the run set a timer and
    fall off the end of [poll]: the promise resolves with [undefined], and
    nothing the server says later can change that. *)
Lemma pollForResult_first_reply_pending
      (u : t) (requestId : value) (options : Options)
      (result : obj) (replies : list response) :
  is_str (get result "status") "completed" = false ->
  is_str (get result "status") "failed" = false ->
  1 < number_or (maxAttempts options) 60 ->
  (pollForResult u requestId options (Responded true (inr result) :: replies)).2
  = Some VUndefined.
Proof.
  intros Hc Hf Hmax. unfold pollForResult, poll. rewrite Hc, Hf.
  apply Z.ltb_lt in Hmax. change (0 + 1) with 1. by rewrite Hmax.
Qed.

(** C1.  The status endpoint reports "processing" at the first attempt
    and "completed" at the second, with the default 60 attempts allowed.
    Both requests are made and the [transcription] event is emitted at the
    second, but the promise returned by [pollForResult] has resolved with
    [undefined] at the first: the caller never receives the transcription
    result.  [uploadAndWaitForResult] hands the same promise on. *)
Theorem pollForResult_completed_at_second_attempt :
  pollForResult constructor (VStr "req-1") no_options [processing; completed]
  = ({| emitted :=
          [ ("polling",
             VObj {[ "requestId" := VStr "req-1";
                     "attempt" := VNum 1;
                     "status" := VStr "processing" ]});
            ("transcription",
             VObj {[ "text" := VStr "hello world";
                     "language" := VStr "en";
                     "processingTime" := VNum 2;
                     "requestId" := VStr "req-1" ]}) ];
        requests :=
          [ GET (VStr "/api/transcribe") (VStr "req-1");
            GET (VStr "/api/transcribe") (VStr "req-1") ] |},
     Some VUndefined)
  /\ (uploadAndWaitForResult constructor
        (Some {| file_name := "a.wav"; file_size := 2;
                 file_type := "audio/wav";
                 file_bytes := [Byte.x00; Byte.x00] |})
        no_options
        (Responded true (inr {[ "id" := VStr "req-1";
                                "status" := VStr "processing" ]}))
        [processing; completed]).2
     = Some VUndefined.
Proof. split; vm_compute; reflexivity. Qed.

End Polling.

(** ** Dispatch of recorded audio *)

Section Dispatch.
Import AudioClientV2.

Lemma with_websocket_same (c : t) : with_websocket (websocket c) c = c.
Proof. by destruct c. Qed.

Lemma send_not_connected (message : value) (w : WebSocketClient.t) :
  WebSocketClient.isConnected w = false ->
  WebSocketClient.send message w = (w, not_connected).
Proof. intros H. unfold WebSocketClient.send. by rewrite H. Qed.

Lemma handleStreamingAudio_not_connected (p : Platform) (audioBlob : Blob) (c : t) :
  WebSocketClient.isConnected (websocket c) = false ->
  handleStreamingAudio p audioBlob c = (c, [], not_connected).
Proof.
  intros H. unfold handleStreamingAudio, WebSocketClient.sendAudio.
  rewrite send_not_connected by done.
  by rewrite with_websocket_same.
Qed.

(** C2, as the code has it.  In streaming mode, a chunk that arrives
    while the transport is not connected is dropped: the [audioData]
    subscriber and [handleStreamingAudio] leave the whole client as it was
    (nothing is sent, nothing is kept for a retry) and emit no event at
    all; [handleStreamingAudio] resolves with the [NOT_CONNECTED] failure
    of [send], which the subscriber discards.  [sendAudioChunk] of
    AudioClient returns at its guard, also silently. *)
Theorem streaming_chunk_dropped_when_not_connected
        (p : Platform) (audioBlob : Blob) (chunks : value)
        (c : t) (c1 : AudioClient.t) :
  is_str (get (settings c) "recordingMode") "streaming" = true ->
  WebSocketClient.isConnected (websocket c) = false ->
  AudioClient.isConnected c1 = false ->
  handleStreamingAudio p audioBlob c = (c, [], not_connected)
  /\ on_recorder p
       ("audioData", VObj {[ "data" := VBlob audioBlob; "chunks" := chunks ]}) c
     = (c, [])
  /\ AudioClient.sendAudioChunk audioBlob c1 = (c1, []).
Proof.
  intros Hmode Hws Hc1.
  split; [by apply handleStreamingAudio_not_connected|]. split.
  - unfold on_recorder. cbn [String.eqb Ascii.eqb Bool.eqb].
    rewrite Hmode. cbn [andb].
    destruct (truthy (get (settings c) "autoSend")); [|done].
    change (get {[ "data" := VBlob audioBlob; "chunks" := chunks ]} "data")
      with (VBlob audioBlob).
    cbv iota beta. by rewrite handleStreamingAudio_not_connected.
  - unfold AudioClient.sendAudioChunk. by rewrite Hc1.
Qed.

Lemma streaming_chunk_dropped_when_not_connected_witness :
  handleStreamingAudio offline chunk constructor
  = (constructor, [], not_connected)
  /\ on_recorder offline
       ("audioData", VObj {[ "data" := VBlob chunk; "chunks" := VNum 1 ]})
       constructor
     = (constructor, [])
  /\ AudioClient.sendAudioChunk chunk AudioClient.constructor
     = (AudioClient.constructor, []).
Proof.
  apply streaming_chunk_dropped_when_not_connected; reflexivity.
Defined.

(** C2 as stated fails: the fresh client is in streaming mode and not
    connected; the recorder delivers a chunk; no [sendFailed] event (no
    event at all) comes out of the client. *)
Lemma streaming_drop_emits_no_sendFailed :
  WebSocketClient.isConnected (websocket constructor) = false
  /\ (recorder_ondataavailable offline (Some chunk) constructor).2 = []
  /\ ~ (exists data : value,
          ("sendFailed", data)
          ∈ (recorder_ondataavailable offline (Some chunk) constructor).2).
Proof.
  assert ((recorder_ondataavailable offline (Some chunk) constructor).2 = [])
    as Hevs by (vm_compute; reflexivity).
  split; [reflexivity|]. split; [exact Hevs|].
  rewrite Hevs. intros [data Hin]. by apply elem_of_nil in Hin.
Qed.

(** *** Batch mode *)

Lemma timers_requests_GET (u : FileUploader.t) (requestId : value)
      (maxAttempts : Z) (replies : list response) :
  forall attempts : Z,
    forallb is_GET
      (FileUploader.requests
         (FileUploader.timers u requestId maxAttempts attempts replies)) = true.
Proof.
  induction replies as [|reply replies IH]; intros attempts; cbn; [done|].
  destruct (FileUploader.poll u requestId maxAttempts attempts reply)
    as [[[attempts' evs] returned] again].
  destruct again; cbn; [apply IH|done].
Qed.

Lemma pollForResult_requests_GET (u : FileUploader.t) (requestId : value)
      (options : FileUploader.Options) (replies : list response) :
  forallb is_GET
    (FileUploader.requests
       (FileUploader.pollForResult u requestId options replies).1) = true.
Proof.
  unfold FileUploader.pollForResult.
  destruct replies as [|reply replies]; [done|].
  destruct (FileUploader.poll u requestId _ 0 reply)
    as [[[attempts' evs] returned] again].
  destruct again; cbn; [apply timers_requests_GET|done].
Qed.

(** [uploadAndWaitForResult] posts a valid file once and then only polls;
    it makes no request for a file that fails validation. *)
Lemma uploadAndWaitForResult_requests
      (u : FileUploader.t) (f : File) (options : FileUploader.Options)
      (reply : response) (replies : list response) :
  exists (fields : list (string * value)) (polls : list request),
    FileUploader.requests
      (FileUploader.uploadAndWaitForResult u (Some f) options reply replies).1
    = (if truthy (get (Utils.validateAudioFile (Some f)) "valid")
       then POST (get (FileUploader.uploadSettings u) "endpoint") f fields :: polls
       else [])
    /\ forallb is_GET polls = true.
Proof.
  unfold FileUploader.uploadAndWaitForResult, FileUploader.uploadFile,
    FileUploader.validateFile, falsy.
  destruct (truthy (get (Utils.validateAudioFile (Some f)) "valid")); cbn -[get].
  - eexists.
    destruct reply as [m|[] [m|o]|[] m|[] o];
      try (exists []; unfold FileUploader.upload_failed; by read_props).
    + read_props. cbn [truthy negb].
      destruct (FileUploader.pollForResult u (get o "id") options replies)
        as [po result] eqn:Hpo.
      exists (FileUploader.requests po). split; [done|].
      replace po
        with (FileUploader.pollForResult u (get o "id") options replies).1
        by (by rewrite Hpo).
      apply pollForResult_requests_GET.
    + read_props. cbn [truthy negb].
      destruct (FileUploader.pollForResult u VUndefined options replies)
        as [po result] eqn:Hpo.
      exists (FileUploader.requests po). split; [done|].
      replace po
        with (FileUploader.pollForResult u VUndefined options replies).1
        by (by rewrite Hpo).
      apply pollForResult_requests_GET.
  - exists [], []. done.
Qed.

Lemma deliver_on_uploader (evs : list event) (c : t) :
  (deliver on_uploader evs c).1 = c.
Proof.
  induction evs as [|[name data] evs IH]; [done|].
  cbn [deliver].
  assert ((on_uploader (name, data) c).1 = c) as Hc.
  { unfold on_uploader. repeat (destruct (String.eqb name _); [done|]). done. }
  destruct (on_uploader (name, data) c) as [c0 out1]. cbn in Hc. subst c0.
  destruct (deliver on_uploader evs c) as [c2 out2]. by cbn in *.
Qed.
Lemma is_str_other (v : value) (a b : string) :
  is_str v a = true -> a ≠ b -> is_str v b = false.
Proof.
  destruct v; try done. cbn. intros Ha Hne.
  apply String.eqb_eq in Ha. subst. by apply String.eqb_neq.
Qed.

Lemma has_length (A : Type) (l : list A) :
  l ≠ [] -> (0 <? Z.of_nat (length l)) = true.
Proof. destruct l; [done|]. intros _. apply Z.ltb_lt. cbn. lia. Qed.

Lemma getRecordingBlob_recording (r : AudioRecorder.t) :
  AudioRecorder.recordedChunks r ≠ [] ->
  AudioRecorder.getRecordingBlob r = Some (recording r).
Proof.
  unfold AudioRecorder.getRecordingBlob, recording.
  by destruct (AudioRecorder.recordedChunks r).
Qed.

Lemma handleBatchRecording_not_connected (p : Platform) (c : t) :
  AudioRecorder.recordedChunks (recorder c) ≠ [] ->
  isConnected c = false ->
  let c' := (handleBatchRecording p c).1.1 in
  websocket c' = websocket c
  /\ exists (fields : list (string * value)) (polls : list request),
       fetches c'
       = fetches c
         ++ (if truthy (get (Utils.validateAudioFile
                               (Some (upload_of p (recording (recorder c)))))
                            "valid")
             then POST (get (FileUploader.uploadSettings (uploader c)) "endpoint")
                       (upload_of p (recording (recorder c))) fields :: polls
             else [])
       /\ forallb is_GET polls = true.
Proof.
  intros Hchunks Hc. unfold handleBatchRecording.
  rewrite (getRecordingBlob_recording _ Hchunks), Hc.
  fold (upload_of p (recording (recorder c))).
  destruct (uploadAndWaitForResult_requests
              (uploader c) (upload_of p (recording (recorder c)))
              {| FileUploader.model := get (settings c) "model";
                 FileUploader.language := get (settings c) "language";
                 FileUploader.maxAttempts := None;
                 FileUploader.pollInterval := None |}
              (upload_reply p) (poll_replies p))
    as (fields & polls & Hreq & Hpolls).
  destruct (FileUploader.uploadAndWaitForResult _ _ _ _ _) as [eff res].
  cbn [fst] in Hreq.
  pose proof (deliver_on_uploader (FileUploader.emitted eff)
                (with_fetches (fetches c ++ FileUploader.requests eff) c)) as Hd.
  destruct (deliver on_uploader _ _) as [c2 evs]. cbn in Hd. subst c2.
  cbn. split; [done|]. exists fields, polls. by rewrite Hreq.
Qed.

Lemma recorder_onstop_batch (p : Platform) (c : t) :
  is_str (get (settings c) "recordingMode") "batch" = true ->
  AudioRecorder.recordedChunks (recorder c) ≠ [] ->
  (recorder_onstop p c).1
  = (handleBatchRecording p (with_isRecording false c)).1.1.
Proof.
  intros Hmode Hchunks.
  unfold recorder_onstop, AudioRecorder.onstop.
  cbn [deliver]. unfold on_recorder at 1.
  cbn [String.eqb Ascii.eqb Bool.eqb].
  assert (with_recorder (recorder c) c = c) as -> by (by destruct c).
  cbn [settings with_isRecording]. rewrite Hmode.
  unfold has_chunks. read_props.
  rewrite length_map, (has_length _ _ Hchunks). cbn [andb].
  by destruct (handleBatchRecording p (with_isRecording false c)) as [[c2 evs] res].
Qed.
End Dispatch.

(** * Further properties *)

(** ** Utils.escapeHtml *)

Section EscapeHtml.
Import Utils.

Lemma string_app_cons (a : ascii) (x y : string) :
  (String a x ++ y)%string = String a (x ++ y)%string.
Proof. reflexivity. Qed.

Lemma string_app_assoc (x y z : string) :
  ((x ++ y) ++ z)%string = (x ++ (y ++ z))%string.
Proof.
  induction x as [|a x IH]; [done|].
  by rewrite !string_app_cons, IH.
Qed.

Lemma replaceAll_app (pattern : ascii) (replacement x y : string) :
  replaceAll pattern replacement (x ++ y)%string
  = (replaceAll pattern replacement x ++ replaceAll pattern replacement y)%string.
Proof.
  induction x as [|a x IH]; [done|].
  rewrite string_app_cons. cbn [replaceAll]. rewrite IH.
  by rewrite string_app_assoc.
Qed.

Lemma escapeHtml_app (x y : string) :
  escapeHtml (x ++ y)%string = (escapeHtml x ++ escapeHtml y)%string.
Proof. unfold escapeHtml. by rewrite !replaceAll_app. Qed.

Lemma escapeHtml_char (a : ascii) :
  escapeHtml (String a EmptyString) = escape_char a.
Proof. destruct a as [[] [] [] [] [] [] [] []]; reflexivity. Qed.

Lemma escape_char_safe (a : ascii) :
  Forall (fun c : ascii => c ≠ "<" /\ c ≠ ">" /\ c ≠ "034" /\ c ≠ "'")%char
         (list_ascii_of_string (escape_char a)).
Proof.
  destruct a as [[] [] [] [] [] [] [] []]; cbn;
    repeat constructor; discriminate.
Qed.

Lemma list_ascii_of_string_app (x y : string) :
  list_ascii_of_string (x ++ y)%string
  = list_ascii_of_string x ++ list_ascii_of_string y.
Proof.
  induction x as [|a x IH]; [done|].
  rewrite string_app_cons. cbn [list_ascii_of_string]. by rewrite IH.
Qed.

(** X1.  [escapeHtml] works character by character: the escape of a text
    is the concatenation of the escapes of its characters, where [&], [<],
    [>], the double quote and the apostrophe become their entities and
    every other character stays.  So the order of the five replacements
    never escapes an entity twice, and the result holds none of [<], [>],
    the double quote or the apostrophe. *)
Theorem escapeHtml_characterwise (unsafe : string) :
  list_ascii_of_string (escapeHtml unsafe)
  = flat_map (fun a => list_ascii_of_string (escape_char a))
             (list_ascii_of_string unsafe)
  /\ Forall (fun c : ascii => c ≠ "<" /\ c ≠ ">" /\ c ≠ "034" /\ c ≠ "'")%char
            (list_ascii_of_string (escapeHtml unsafe)).
Proof.
  induction unsafe as [|a s [IH1 IH2]]; [by split; [|constructor]|].
  change (String a s) with (String a EmptyString ++ s)%string.
  rewrite escapeHtml_app, escapeHtml_char, list_ascii_of_string_app.
  split.
  - rewrite string_app_cons. cbn [list_ascii_of_string flat_map].
    by rewrite IH1.
  - apply Forall_app. split; [apply escape_char_safe|exact IH2].
Qed.

End EscapeHtml.

(** ** Utils.retry *)

Section RetryProps.
Import Utils.
Context {S A E : Type}.

Lemma retry_loop_step (fn : S -> S * (A + E)) (retries delay backoff : Z)
      (onRetry : E -> Z -> Z -> option E) (n : nat)
      (i : Z) (lastError : option E) (s : S) :
  retry_loop fn retries delay backoff onRetry (Datatypes.S n) i lastError s
  = match fn s with
    | (s', inl v) =>
        {| outcome := inl v; calls := 1; waits := [];
           notified := []; final := s' |}
    | (s', inr error) =>
        if i =? retries then
          {| outcome := inr (Some error); calls := 1; waits := [];
             notified := []; final := s' |}
        else
          match onRetry error (i + 1) (times_pow delay backoff i) with
          | Some thrown =>
              {| outcome := inr (Some thrown); calls := 1; waits := [];
                 notified := [(error, i + 1, times_pow delay backoff i)];
                 final := s' |}
          | None =>
              let r := retry_loop fn retries delay backoff onRetry
                                  n (i + 1) (Some error) s' in
              {| outcome := outcome r;
                 calls := Datatypes.S (calls r);
                 waits := times_pow delay backoff i :: waits r;
                 notified := (error, i + 1, times_pow delay backoff i) :: notified r;
                 final := final r |}
          end
    end.
Proof. reflexivity. Qed.

Lemma retry_with_options (fn : S -> S * (A + E))
      (retries delay backoff : Z) (s : S) :
  retry fn (retry_options retries delay backoff) s
  = retry_loop fn retries delay backoff (fun _ _ _ => None)
               (Z.to_nat (retries + 1)) 0 None s.
Proof. reflexivity. Qed.

(** The waits of a run that starts at index [i] with [n] indices left up
    to [retries]. *)
Lemma retry_loop_shape (fn : S -> S * (A + E)) (retries delay backoff : Z)
      (onRetry : E -> Z -> Z -> option E) (n : nat) :
  forall (i : Z) (lastError : option E) (s : S),
    Z.of_nat (Datatypes.S n) = retries + 1 - i ->
    let r := retry_loop fn retries delay backoff onRetry
                        (Datatypes.S n) i lastError s in
    (1 <= calls r <= Datatypes.S n)%nat
    /\ length (waits r) = (calls r - 1)%nat
    /\ waits r
       = map (fun k => times_pow delay backoff (i + Z.of_nat k))
             (seq 0 (length (waits r)))
    /\ map (fun x => x.1.2) (notified r)
       = map (fun k => i + 1 + Z.of_nat k) (seq 0 (length (notified r))).
Proof.
  induction n as [|n IH]; intros i lastError s Hn; cbn zeta;
    rewrite retry_loop_step; destruct (fn s) as [s' [v|error]];
    try (cbn; repeat split; lia).
  - assert ((i =? retries) = true) as -> by (apply Z.eqb_eq; lia).
    cbn. repeat split; lia.
  - assert ((i =? retries) = false) as -> by (apply Z.eqb_neq; lia).
    destruct (onRetry error (i + 1) (times_pow delay backoff i)) as [thrown|].
    + cbn. repeat split; try lia. f_equal. lia.
    + destruct (IH (i + 1) (Some error) s') as (Hc & Hw & Hws & Hnot);
        [lia|].
      destruct (retry_loop fn retries delay backoff onRetry
                           (Datatypes.S n) (i + 1) (Some error) s')
        as [o c w nt f].
      cbn [calls waits notified length] in *.
      split; [lia|]. split; [lia|]. split.
      * cbn [seq map]. rewrite <- seq_shift, map_map.
        f_equal; [f_equal; lia|].
        rewrite Hws at 1. apply map_ext. intros k. f_equal. lia.
      * cbn [seq map fst snd]. rewrite <- seq_shift, map_map.
        f_equal; [lia|].
        rewrite Hnot at 1. apply map_ext. intros k. lia.
Qed.

(** X2.  Whatever [fn] and [onRetry] do, [retry] calls [fn] at most
    [retries + 1] times (never for a negative [retries]) and waits for
    one timer after each call but the last; [onRetry] is told the attempt
    numbers 1, 2, ... in order.  The timer after call i (from 0) is
    [delay * backoff ^ i] as long as the options, the power and the
    product are integers a double holds exactly (up to 2^53 in size): the
    code computes on doubles, which round beyond.  Absent options count as
    3 retries, 1000 ms and a factor of 2. *)
Theorem retry_bounded_backoff (fn : S -> S * (A + E))
        (options : @RetryOptions E) (s : S) :
  let r := retry fn options s in
  let retries := default 3 (retries options) in
  let delay := default 1000 (delay options) in
  let backoff := default 2 (backoff options) in
  (calls r <= Z.to_nat (retries + 1))%nat
  /\ length (waits r) = (calls r - 1)%nat
  /\ (forall k : nat,
        (k < calls r - 1)%nat ->
        exact_times_pow delay backoff (Z.of_nat k) = true ->
        waits r !! k = Some (delay * backoff ^ Z.of_nat k))
  /\ map (fun x => x.1.2) (notified r)
     = map (fun k => Z.of_nat (Datatypes.S k)) (seq 0 (length (notified r))).
Proof.
  cbn zeta. unfold retry.
  destruct (Z.to_nat (default 3 (retries options) + 1)) as [|n] eqn:Hn.
  { cbn. repeat split; lia. }
  destruct (retry_loop_shape fn
              (default 3 (retries options)) (default 1000 (delay options))
              (default 2 (backoff options))
              (default (fun _ _ _ => None) (onRetry options))
              n 0 None s)
    as (Hc & Hw & Hws & Hnot); [lia|].
  split; [lia|]. split; [exact Hw|]. split.
  - intros k Hk Hexact. rewrite Hws, list_lookup_fmap, lookup_seq_lt by lia.
    cbn. f_equal. by apply times_pow_exact.
  - rewrite Hnot. apply map_ext. intros k. lia.
Qed.

End RetryProps.

Section RetryOutcomes.
Import Utils.
Context {A E : Type}.

Lemma counting_resolves (outcomes : nat -> A + E) (v : A)
      (retries delay backoff : Z) (n k : nat) (i : Z) (lastError : option E) :
  outcomes k = inl v ->
  retry_loop (counting outcomes) retries delay backoff (fun _ _ _ => None)
             (Datatypes.S n) i lastError k
  = {| outcome := inl v; calls := 1; waits := []; notified := [];
       final := Datatypes.S k |}.
Proof.
  intros Hk. rewrite retry_loop_step. unfold counting at 1. by rewrite Hk.
Qed.

Lemma counting_rejects_last (outcomes : nat -> A + E) (error : E)
      (retries delay backoff : Z) (n k : nat) (lastError : option E) :
  outcomes k = inr error ->
  retry_loop (counting outcomes) retries delay backoff (fun _ _ _ => None)
             (Datatypes.S n) retries lastError k
  = {| outcome := inr (Some error); calls := 1; waits := []; notified := [];
       final := Datatypes.S k |}.
Proof.
  intros Hk. rewrite retry_loop_step. unfold counting at 1.
  by rewrite Hk, Z.eqb_refl.
Qed.

Lemma counting_rejects (outcomes : nat -> A + E) (error : E)
      (retries delay backoff : Z) (n k : nat) (i : Z) (lastError : option E) :
  outcomes k = inr error ->
  i ≠ retries ->
  retry_loop (counting outcomes) retries delay backoff (fun _ _ _ => None)
             (Datatypes.S n) i lastError k
  = let r := retry_loop (counting outcomes) retries delay backoff
                        (fun _ _ _ => None) n (i + 1) (Some error)
                        (Datatypes.S k) in
    {| outcome := outcome r;
       calls := Datatypes.S (calls r);
       waits := times_pow delay backoff i :: waits r;
       notified := (error, i + 1, times_pow delay backoff i) :: notified r;
       final := final r |}.
Proof.
  intros Hk Hi. rewrite retry_loop_step. unfold counting at 1.
  apply Z.eqb_neq in Hi. by rewrite Hk, Hi.
Qed.

(** [m] failed calls from the k-th on, all within [retries]. *)
Lemma retry_loop_counting (outcomes : nat -> A + E) (errors : nat -> E)
      (retries delay backoff : Z) (m : nat) :
  forall (k : nat) (lastError : option E),
    (forall j, (k <= j < k + m)%nat -> outcomes j = inr (errors j)) ->
    Z.of_nat (k + m) <= retries ->
    exists lastError' : option E,
      let r := retry_loop (counting outcomes) retries delay backoff
                          (fun _ _ _ => None)
                          (Z.to_nat (retries + 1) - k) (Z.of_nat k)
                          lastError k in
      let r' := retry_loop (counting outcomes) retries delay backoff
                           (fun _ _ _ => None)
                           (Z.to_nat (retries + 1) - (k + m))
                           (Z.of_nat (k + m)) lastError' (k + m)%nat in
      outcome r = outcome r'
      /\ calls r = (m + calls r')%nat
      /\ waits r
         = map (fun j => times_pow delay backoff (Z.of_nat j)) (seq k m) ++ waits r'.
Proof.
  induction m as [|m IH]; intros k lastError Hfail Hle.
  - exists lastError. rewrite Nat.add_0_r. done.
  - destruct (IH (Datatypes.S k) (Some (errors k))) as (last & Ho & Hc & Hw).
    { intros j Hj. apply Hfail. lia. }
    { lia. }
    exists last. cbn zeta in *.
    replace (Z.to_nat (retries + 1) - k)%nat
      with (Datatypes.S (Z.to_nat (retries + 1) - Datatypes.S k)) by lia.
    rewrite (counting_rejects outcomes (errors k)) by (try apply Hfail; lia).
    cbn zeta. cbn [outcome calls waits].
    replace (Z.of_nat k + 1) with (Z.of_nat (Datatypes.S k)) by lia.
    replace (k + Datatypes.S m)%nat with (Datatypes.S k + m)%nat by lia.
    rewrite Ho, Hc, Hw. cbn [seq map app]. repeat split; lia.
Qed.

(** X3.  A closure that fails at its first [k] calls and succeeds with
    [v] at the next, with [k] within [retries]: [retry] resolves with [v]
    after exactly [k + 1] calls, having waited [delay * backoff ^ i] for
    i = 0, ..., k - 1 in between, these products being integers a double
    holds exactly. *)
Theorem retry_succeeds_after_failures
        (outcomes : nat -> A + E) (errors : nat -> E) (v : A)
        (retries delay backoff : Z) (k : nat) :
  (forall j, (j < k)%nat -> outcomes j = inr (errors j)) ->
  outcomes k = inl v ->
  Z.of_nat k <= retries ->
  (forall j, (j < k)%nat -> exact_times_pow delay backoff (Z.of_nat j) = true) ->
  let r := retry (counting outcomes) (retry_options retries delay backoff) 0%nat in
  outcome r = inl v
  /\ calls r = Datatypes.S k
  /\ waits r = map (fun j => delay * backoff ^ Z.of_nat j) (seq 0 k).
Proof.
  intros Hfail Hok Hle Hexact. cbn zeta. rewrite retry_with_options.
  destruct (retry_loop_counting outcomes errors retries delay backoff k 0 None)
    as (last & Ho & Hc & Hw).
  { intros j Hj. apply Hfail. lia. }
  { lia. }
  cbn zeta in Ho, Hc, Hw.
  rewrite Nat.sub_0_r in *. change (Z.of_nat 0) with 0 in *.
  change (0 + k)%nat with k in *.
  rewrite Ho, Hc, Hw.
  replace (Z.to_nat (retries + 1) - k)%nat
    with (Datatypes.S (Z.to_nat (retries + 1) - Datatypes.S k)) by lia.
  rewrite (counting_resolves outcomes v) by done.
  cbn [outcome calls waits]. rewrite app_nil_r.
  split; [done|]. split; [lia|].
  apply map_ext_in. intros j Hj. apply in_seq in Hj.
  apply times_pow_exact, Hexact. lia.
Qed.

(** X4.  A closure that fails at every one of its first [retries + 1]
    calls: [retry] rejects with the error of the last of them, after
    exactly [retries + 1] calls and [retries] waits, of
    [delay * backoff ^ i] for i = 0, ..., retries - 1, these products
    being integers a double holds exactly. *)
Theorem retry_exhausted
        (outcomes : nat -> A + E) (errors : nat -> E)
        (delay backoff : Z) (retries : nat) :
  (forall j, (j <= retries)%nat -> outcomes j = inr (errors j)) ->
  (forall j, (j < retries)%nat ->
             exact_times_pow delay backoff (Z.of_nat j) = true) ->
  let r := retry (counting outcomes)
                 (retry_options (Z.of_nat retries) delay backoff) 0%nat in
  outcome r = inr (Some (errors retries))
  /\ calls r = Datatypes.S retries
  /\ waits r = map (fun j => delay * backoff ^ Z.of_nat j) (seq 0 retries).
Proof.
  intros Hfail Hexact. cbn zeta. rewrite retry_with_options.
  destruct (retry_loop_counting outcomes errors (Z.of_nat retries)
              delay backoff retries 0 None)
    as (last & Ho & Hc & Hw).
  { intros j Hj. apply Hfail. lia. }
  { lia. }
  cbn zeta in Ho, Hc, Hw.
  rewrite Nat.sub_0_r in *. change (Z.of_nat 0) with 0 in *.
  change (0 + retries)%nat with retries in *.
  rewrite Ho, Hc, Hw.
  replace (Z.to_nat (Z.of_nat retries + 1) - retries)%nat with 1%nat by lia.
  rewrite (counting_rejects_last outcomes (errors retries)) by (apply Hfail; lia).
  cbn [outcome calls waits]. rewrite app_nil_r.
  split; [done|]. split; [lia|].
  apply map_ext_in. intros j Hj. apply in_seq in Hj.
  apply times_pow_exact, Hexact. lia.
Qed.

End RetryOutcomes.

Lemma retry_bounded_backoff_witness :
  let r := Utils.retry (Utils.counting (fun j : nat => @inr string nat j))
                       (Utils.retry_options 3 1000 2) 0%nat in
  (Utils.calls r <= 4)%nat
  /\ Utils.waits r !! 2%nat = Some 4000.
Proof.
  cbn zeta.
  destruct (retry_bounded_backoff
              (Utils.counting (fun j : nat => @inr string nat j))
              (Utils.retry_options 3 1000 2) 0%nat)
    as (Hc & _ & Hw & _).
  split; [exact Hc|].
  apply (Hw 2%nat); [vm_compute; lia|reflexivity].
Defined.

Lemma retry_succeeds_after_failures_witness :
  let r := Utils.retry
             (Utils.counting
                (fun j => if (j <? 2)%nat then inr "down" else inl "up"))
             (Utils.retry_options 5 1000 2) 0%nat in
  Utils.outcome r = inl "up"
  /\ Utils.calls r = 3%nat
  /\ Utils.waits r = [1000; 2000].
Proof.
  apply (retry_succeeds_after_failures
           (fun j => if (j <? 2)%nat then inr "down" else inl "up")
           (fun _ => "down") "up" 5 1000 2 2).
  - intros [|[|j]] Hj; [reflexivity|reflexivity|lia].
  - reflexivity.
  - lia.
  - intros [|[|j]] Hj; [reflexivity|reflexivity|lia].
Defined.

Lemma retry_exhausted_witness :
  let r := Utils.retry (Utils.counting (fun j : nat => @inr string nat j))
                       (Utils.retry_options 3 1000 2) 0%nat in
  Utils.outcome r = inr (Some 3%nat)
  /\ Utils.calls r = 4%nat
  /\ Utils.waits r = [1000; 2000; 4000].
Proof.
  apply (retry_exhausted (fun j : nat => @inr string nat j) (fun j => j)
                         1000 2 3).
  - intros j Hj. reflexivity.
  - intros [|[|[|j]]] Hj; [reflexivity|reflexivity|reflexivity|lia].
Defined.

(** ** Utils.debounce and Utils.throttle *)

Section Debounce.
Import Utils.
Context {Args : Type}.

Lemma debounce_calls_trailing (burst : list Args) :
  forall (timeout : option Args) (last : Args),
    debounce_run false (map DebounceCall (burst ++ [last])) timeout
    = (Some last, []).
Proof.
  induction burst as [|a burst IH]; intros timeout last; [done|].
  cbn [app map debounce_run debounce_call andb]. by rewrite IH.
Qed.

Lemma debounce_calls_leading (burst : list Args) :
  forall pending : Args,
    debounce_run true (map DebounceCall burst ++ [DebounceTimer]) (Some pending)
    = (None, []).
Proof.
  induction burst as [|a burst IH]; intros pending; [done|].
  cbn [app map debounce_run]. unfold debounce_call at 1.
  rewrite bool_decide_eq_true_2 by eauto. cbn [andb negb].
  by rewrite IH.
Qed.

Lemma debounce_run_app (immediate : bool)
      (xs ys : list (debounce_event Args)) :
  forall timeout : option Args,
    debounce_run immediate (xs ++ ys) timeout
    = let '(t1, i1) := debounce_run immediate xs timeout in
      let '(t2, i2) := debounce_run immediate ys t1 in
      (t2, i1 ++ i2).
Proof.
  induction xs as [|e xs IH]; intros timeout.
  - cbn. by destruct (debounce_run immediate ys timeout).
  - cbn [app debounce_run].
    destruct (match e with
              | DebounceCall args => debounce_call immediate args timeout
              | DebounceTimer => debounce_later immediate timeout
              end) as [t0 now].
    rewrite IH.
    destruct (debounce_run immediate xs t0) as [t1 i1].
    destruct (debounce_run immediate ys t1) as [t2 i2].
    by rewrite app_assoc.
Qed.

(** X5.  A burst of calls of a debounced function, each arriving before
    the timer of the one before has fired, followed by the timer's
    expiry.  Without [immediate], [func] runs exactly once, at the expiry,
    with the arguments of the last call, whatever was pending before the
    burst.  With [immediate], from rest, [func] runs exactly once, at the
    first call and with its arguments, and the expiry runs nothing.  No
    timer is left pending either way. *)
Theorem debounce_burst (first last : Args) (burst : list Args)
        (timeout : option Args) :
  debounce_run false
    (map DebounceCall (burst ++ [last]) ++ [DebounceTimer]) timeout
  = (None, [last])
  /\ debounce_run true
       (map DebounceCall (first :: burst) ++ [DebounceTimer]) None
     = (None, [first]).
Proof.
  split.
  - rewrite debounce_run_app, debounce_calls_trailing. reflexivity.
  - cbn [map app debounce_run]. unfold debounce_call at 1. cbn [andb].
    rewrite bool_decide_eq_false_2 by (by intros [? ?]). cbn [negb].
    by rewrite debounce_calls_leading.
Qed.

End Debounce.

Section Throttle.
Import Utils.

Lemma throttle_step_invariant (t : throttled) (e : throttle_event) :
  pending t = (if inThrottle t then 1 else 0)%nat ->
  invoked t = (fired t + pending t)%nat ->
  let t' := throttle_step t e in
  pending t' = (if inThrottle t' then 1 else 0)%nat
  /\ invoked t' = (fired t' + pending t')%nat.
Proof.
  intros Hp Hi. destruct t as [flag p i f]. cbn in Hp, Hi. subst p i.
  destruct e as [throws|]; destruct flag; try destruct throws; cbn;
    split; lia.
Qed.

(** X6.  However calls of a throttled function and expiries of its timer
    alternate, at most one timer is pending, it is pending exactly while
    the flag is set, and the invocations of [func] that returned number
    the expired timers plus the pending one: between two of them a timer
    of [limit] ms has run out.  (An invocation that throws sets no flag
    and no timer.) *)
Theorem throttle_one_per_window (events : list throttle_event) :
  let t := throttle_run events in
  pending t = (if inThrottle t then 1 else 0)%nat
  /\ invoked t = (fired t + pending t)%nat
  /\ (invoked t <= fired t + 1)%nat.
Proof.
  cbn zeta. unfold throttle_run.
  assert (forall t,
             pending t = (if inThrottle t then 1 else 0)%nat ->
             invoked t = (fired t + pending t)%nat ->
             pending (foldl throttle_step t events)
             = (if inThrottle (foldl throttle_step t events) then 1 else 0)%nat
             /\ invoked (foldl throttle_step t events)
                = (fired (foldl throttle_step t events)
                   + pending (foldl throttle_step t events))%nat) as Hrun.
  { induction events as [|e events IH]; intros t Hp Hi; [done|].
    cbn [foldl]. destruct (throttle_step_invariant t e Hp Hi) as [Hp' Hi'].
    by apply IH. }
  destruct (Hrun {| inThrottle := false; pending := 0; invoked := 0; fired := 0 |})
    as [Hp Hi]; [done|done|].
  split; [exact Hp|]. split; [exact Hi|].
  rewrite Hi, Hp. destruct (inThrottle _); lia.
Qed.

End Throttle.

(** ** The event emitter: unsubscribing *)

Section EmitterOff.
Import Utils.EventEmitter.
Context {D W : Type}.
Variable call :
  callback -> D -> gmap string (list callback) * W ->
  (gmap string (list callback) * W) * completion.

Lemma off_subscribers (events : gmap string (list callback))
      (event' : string) (cb : callback) :
  event' ∉ inherited ->
  exists events' : gmap string (list callback),
    off event' cb events = Some events'
    /\ forall event : string,
         subscribers events' event
         = if decide (event' = event)
           then filter (fun c => c ≠ cb) (subscribers events event)
           else subscribers events event.
Proof.
  intros Hname. unfold off. rewrite bool_decide_eq_false_2 by done.
  destruct (events !! event') as [cbs|] eqn:He; eexists;
    (split; [reflexivity|]); intros event; unfold subscribers;
    destruct (decide (event' = event)) as [->|Hne].
  - by rewrite lookup_insert_eq, He.
  - by rewrite lookup_insert_ne.
  - by rewrite He.
  - done.
Qed.

Lemma emit_calls_subscribers (events : gmap string (list callback)) (w : W)
      (event : string) (data : D) :
  event ∉ inherited ->
  exists r : emitted,
    emit call event data (events, w) = Some r
    /\ map fst (calls r) = map (fun c => (c, data)) (subscribers events event).
Proof.
  intros Hname. unfold emit, subscribers.
  rewrite bool_decide_eq_false_2 by done. cbn [fst].
  destruct (events !! event) as [cbs|]; eexists; (split; [reflexivity|]).
  - rewrite (forEach_fan_out call). cbn [calls app default].
    generalize (events, w).
    induction cbs as [|c cbs IH]; intros st; cbn [fan_out]; [done|].
    destruct (call c data st) as [st' o]. specialize (IH st').
    destruct (fan_out call cbs data st') as [st'' invocations].
    cbn [snd map fst] in *. by rewrite IH.
  - done.
Qed.

(** X7.  For an event name other than those a plain object inherits (on
    which [off] throws): after [off(event, cb)], an [emit] of [event]
    calls the other subscribers of [event], each as often and in the same
    order as before, and never [cb], however often [cb] had been
    registered; the subscribers of every other event are as they were.
    [off] right after [on] of the same subscriber takes it out again,
    together with its earlier registrations. *)
Theorem off_unsubscribes (events : gmap string (list callback)) (w : W)
        (event other : string) (cb : callback) (data : D) :
  event ∉ inherited ->
  exists (events' : gmap string (list callback)) (r : emitted),
    off event cb events = Some events'
    /\ emit call event data (events', w) = Some r
    /\ map fst (calls r)
       = map (fun c => (c, data))
             (filter (fun c => c ≠ cb) (subscribers events event))
    /\ Forall (fun x => x.1.1 ≠ cb) (calls r)
    /\ subscribers events' other
       = (if decide (event = other)
          then filter (fun c => c ≠ cb) (subscribers events other)
          else subscribers events other)
    /\ exists registered removed : gmap string (list callback),
         on event cb events = Some registered
         /\ off event cb registered = Some removed
         /\ subscribers removed event
            = filter (fun c => c ≠ cb) (subscribers events event).
Proof.
  intros Hname.
  destruct (off_subscribers events event cb Hname) as (events' & Hoff & Hsubs).
  destruct (emit_calls_subscribers events' w event data Hname)
    as (r & Hemit & Hcalls).
  rewrite Hsubs, decide_True in Hcalls by done.
  exists events', r. split; [exact Hoff|]. split; [exact Hemit|].
  split; [exact Hcalls|]. split; [|split].
  - apply Forall_forall. intros [[c d] o] Hin. cbn.
    assert ((c, d) ∈ map fst (calls r)) as Hc.
    { apply list_elem_of_fmap. by exists (c, d, o). }
    rewrite Hcalls in Hc. apply list_elem_of_fmap in Hc as (c' & [= -> _] & Hc').
    by apply list_elem_of_filter in Hc' as [Hne _].
  - apply Hsubs.
  - destruct (on_registers events event cb Hname) as (registered & Hon & Hreg).
    destruct (off_subscribers registered event cb Hname)
      as (removed & Hoff' & Hrem).
    exists registered, removed. split; [exact Hon|]. split; [exact Hoff'|].
    rewrite Hrem, decide_True by done. rewrite Hreg, decide_True by done.
    rewrite filter_app, filter_cons_False by (intros H; by apply H).
    by rewrite filter_nil, app_nil_r.
Qed.

End EmitterOff.

Lemma off_unsubscribes_witness :
  exists events' r,
    Utils.EventEmitter.off "error" 1%nat {[ "error" := [1; 2; 1]%nat ]}
    = Some events'
    /\ Utils.EventEmitter.emit
         (fun (cb : Utils.EventEmitter.callback) (data : string)
              (st : gmap string (list Utils.EventEmitter.callback) * unit) =>
            (st, Utils.EventEmitter.Returned))
         "error" "boom" (events', tt) = Some r
    /\ map fst (Utils.EventEmitter.calls r) = [(2%nat, "boom")].
Proof.
  destruct (off_unsubscribes
              (fun (cb : Utils.EventEmitter.callback) (data : string)
                   (st : gmap string (list Utils.EventEmitter.callback) * unit) =>
                 (st, Utils.EventEmitter.Returned))
              {[ "error" := [1; 2; 1]%nat ]} tt "error" "error" 1%nat "boom")
    as (events' & r & Hoff & Hemit & Hcalls & _).
  - compute_done.
  - exists events', r. split; [exact Hoff|]. split; [exact Hemit|].
    rewrite Hcalls. reflexivity.
Defined.

(** ** WebSocketClient: closing, reconnecting, sending *)

Section Transport.
Import WebSocketClient.

(** X8.  A close with code 1000 never leads to a reconnection: the
    handler sets no timer and leaves the attempt counter alone, whatever
    the state; it emits [disconnected] and nothing else.  After
    [disconnect()] and the close event it causes, whatever its [code],
    the client is not connected, holds no socket and no keep-alive timer,
    and [send] fails with [NOT_CONNECTED] without touching the wire.  The
    code of that event is the platform's: 1000 after a clean close of a
    socket that had opened, and then no timer is set; another (1006) when
    the socket was still connecting or the connection broke first, and
    then, attempts being left, the handler sets the next reconnection
    timer as after any failure, and that timer opens a new socket although
    the client was told to disconnect. *)
Theorem intentional_close_no_reconnect (c : t) (code : Z) (reason : string)
        (message : value) :
  let closed := (onclose 1000 reason c).1 in
  let gone := (onclose code reason (disconnect c)).1 in
  timeouts closed = timeouts c
  /\ currentAttempt closed = currentAttempt c
  /\ (onclose 1000 reason c).2
     = [("disconnected",
         VObj {[ "code" := VNum 1000; "reason" := VStr reason ]})]
  /\ isConnected gone = false
  /\ websocket gone = None
  /\ keepAliveTimer gone = None
  /\ send message gone = (gone, not_connected)
  /\ timeouts gone
     = timeouts c
       ++ (if negb (code =? 1000) && shouldReconnect c
           then [times_pow (reconnectDelay (connectionSettings c))
                           (reconnectBackoff (connectionSettings c))
                           (currentAttempt c + 1 - 1)]
           else [])
  /\ websocket (reconnectTimer gone) = Some (sockets c)
  /\ sockets (reconnectTimer gone) = S (sockets c).
Proof.
  cbn zeta.
  split; [reflexivity|]. split; [reflexivity|]. split; [reflexivity|].
  assert (shouldReconnect
            (stopKeepAlive
               {| websocket := websocket (disconnect c);
                  isConnected := false;
                  connectionSettings := connectionSettings (disconnect c);
                  currentAttempt := currentAttempt (disconnect c);
                  keepAliveTimer := keepAliveTimer (disconnect c);
                  sent := sent (disconnect c);
                  timeouts := timeouts (disconnect c);
                  sockets := sockets (disconnect c);
                  connecting := false;
                  invalidState := invalidState (disconnect c) |})
          = shouldReconnect c) as Hshould.
  { unfold shouldReconnect, disconnect. by destruct (websocket c). }
  unfold onclose. rewrite Hshould.
  destruct (negb (code =? 1000) && shouldReconnect c);
    unfold disconnect; destruct (websocket c) eqn:Hws;
    cbn; rewrite ?Hws, ?app_nil_r; done.
Qed.

Lemma closed_then_timer_sockets (close : Z * string) (c : t) :
  (sockets (closed_then_timer close c) + length (timeouts c)
   = sockets c + length (timeouts (closed_then_timer close c)))%nat.
Proof.
  unfold closed_then_timer, onclose, shouldReconnect.
  destruct (negb (close.1 =? 1000) && _); cbn [fst].
  - unfold scheduleReconnect. cbn [fst timeouts stopKeepAlive].
    rewrite length_app. cbn [length].
    assert ((length (timeouts c) <? length (timeouts c) + 1)%nat = true)
      as -> by (apply Nat.ltb_lt; lia).
    unfold reconnectTimer. cbn. rewrite length_app. cbn. lia.
  - cbn [timeouts stopKeepAlive]. rewrite Nat.ltb_irrefl. cbn. lia.
Qed.

Lemma failures_sockets (closes : list (Z * string)) :
  forall c : t,
    (sockets (failures closes c) + length (timeouts c)
     = sockets c + length (timeouts (failures closes c)))%nat.
Proof.
  induction closes as [|close closes IH]; intros c; [done|].
  change (failures (close :: closes) c)
    with (failures closes (closed_then_timer close c)).
  pose proof (IH (closed_then_timer close c)).
  pose proof (closed_then_timer_sockets close c). lia.
Qed.

(** X9.  The reconnection loop opens one socket per timer it sets and no
    other: after a successful open and any number of failures in a row,
    the sockets opened since number the failures, but never more than
    [reconnectAttempts]. *)
Theorem reconnect_sockets_bounded (c : t) (closes : list (Z * string)) :
  Forall (fun close => close.1 ≠ 1000) closes ->
  sockets (failures closes (onopen c).1)
  = (sockets c
     + min (length closes)
           (Z.to_nat (reconnectAttempts (connectionSettings c))))%nat.
Proof.
  intros Hcodes.
  pose proof (failures_sockets closes (onopen c).1) as Hs.
  destruct (failures_schedule closes (onopen c).1 0 Hcodes eq_refl)
    as (_ & _ & Ht).
  cbn zeta in Ht. rewrite Ht in Hs.
  rewrite length_app, length_map, length_seq, Nat.sub_0_r in Hs.
  change (sockets (onopen c).1) with (sockets c) in Hs.
  change (connectionSettings (onopen c).1) with (connectionSettings c) in Hs.
  lia.
Qed.

Lemma reconnect_sockets_bounded_witness :
  sockets (failures (repeat (1006, "") 7) (onopen constructor).1) = 5%nat.
Proof.
  apply (reconnect_sockets_bounded constructor (repeat (1006, "") 7)).
  repeat constructor; cbn; lia.
Defined.

(** X10.  Whatever arrives on the socket, the handler leaves the client
    as it is and emits exactly one event: unparsable data gives [error]
    with code [MESSAGE_PARSE_ERROR]; a message of one of the five known
    types gives the event named like the type; any other message (its type
    unknown, absent or not a string) gives [unknownMessage] carrying the
    message. *)
Theorem onmessage_never_fatal (parsed : string + obj) (c : t) :
  (onmessage parsed c).1 = c
  /\ length (onmessage parsed c).2 = 1%nat
  /\ match parsed with
     | inl message =>
         (onmessage parsed c).2
         = [("error", VObj {[ "code" := VStr "MESSAGE_PARSE_ERROR";
                              "error" := VStr message ]})]
     | inr data =>
         match get data "type" with
         | VStr type =>
             if bool_decide (type ∈ known_types)
             then (onmessage parsed c).2.*1 = [type]
             else (onmessage parsed c).2 = [("unknownMessage", VObj data)]
         | _ => (onmessage parsed c).2 = [("unknownMessage", VObj data)]
         end
     end.
Proof.
  destruct parsed as [message|data]; [done|].
  unfold onmessage, handleMessage, known_types. cbn [fst snd].
  destruct (get data "type") as [| | | | | |type| | |]; try done.
  cbn [is_str].
  destruct (String.eqb_spec type "connection") as [->|H1]; [done|].
  destruct (String.eqb_spec type "config") as [->|H2]; [done|].
  destruct (String.eqb_spec type "transcription") as [->|H3]; [done|].
  destruct (String.eqb_spec type "error") as [->|H4]; [done|].
  destruct (String.eqb_spec type "pong") as [->|H5]; [done|].
  rewrite bool_decide_eq_false_2; [done|].
  intros Hin. repeat (apply elem_of_cons in Hin as [->|Hin]; [done|]).
  by apply elem_of_nil in Hin.
Qed.

Lemma send_outcome (message : value) (c : t) :
  send message c
  = if transport_open c
    then ({| websocket := websocket c;
             isConnected := isConnected c;
             connectionSettings := connectionSettings c;
             currentAttempt := currentAttempt c;
             keepAliveTimer := keepAliveTimer c;
             sent := sent c ++ [message];
             timeouts := timeouts c;
             sockets := sockets c;
             connecting := connecting c;
             invalidState := invalidState c |},
          VObj {[ "success" := VBool true ]})
    else (c, if isConnected c && bool_decide (is_Some (websocket c))
             then send_failed c else not_connected).
Proof.
  unfold send, transport_open, send_failed, not_connected.
  by destruct (isConnected c), (bool_decide (is_Some (websocket c))),
       (connecting c).
Qed.

Lemma sends_sent (messages : list value) :
  forall c : t,
    sent (sends messages c)
    = sent c ++ (if transport_open c then messages else [])
    /\ isConnected (sends messages c) = isConnected c
    /\ websocket (sends messages c) = websocket c.
Proof.
  induction messages as [|m messages IH]; intros c.
  - cbn. by destruct (transport_open c); rewrite app_nil_r.
  - change (sends (m :: messages) c) with (sends messages (send m c).1).
    destruct (IH (send m c).1) as (Hs & Hc & Hw). rewrite Hs, Hc, Hw.
    rewrite send_outcome.
    destruct (transport_open c) eqn:Ho; cbn [fst]; [|by rewrite Ho].
    unfold transport_open in *.
    cbn [isConnected websocket connecting sent]. rewrite Ho.
    by rewrite <- app_assoc.
Qed.

(** X11.  Messages handed to [send] one after the other while the
    client is connected and the socket it holds has opened reach that
    socket in that order, each exactly once and nothing else; in any
    other state none of them does.  Sending changes neither the
    connection flag nor the socket.  [send] answers with success when it
    has handed the message over, with [NOT_CONNECTED] when the flag is
    down or no socket is held, and with [SEND_FAILED], carrying the
    platform's message, when the flag is up and the socket held is still
    connecting, which is the state after a second [connect()] on a
    connected client.  A keep-alive tick at time [now] sends one ping
    stamped [now] under the same condition as [send], and nothing after
    the close handler has run. *)
Theorem sends_in_order (messages : list value) (message : value)
        (now code : Z) (reason : string) (c : t) :
  let again := (connect (onopen (connect c).1).1).1 in
  sent (sends messages c)
  = sent c ++ (if transport_open c then messages else [])
  /\ isConnected (sends messages c) = isConnected c
  /\ websocket (sends messages c) = websocket c
  /\ (send message c).2
     = (if transport_open c then VObj {[ "success" := VBool true ]}
        else if isConnected c && bool_decide (is_Some (websocket c))
             then send_failed c
             else not_connected)
  /\ send message again = (again, send_failed again)
  /\ sent (keepAliveTick now c)
     = sent c
       ++ (if transport_open c
           then [VObj {[ "type" := VStr "ping"; "timestamp" := VNum now ]}]
           else [])
  /\ sent (keepAliveTick now (onclose code reason c).1) = sent c.
Proof.
  cbn zeta.
  destruct (sends_sent messages c) as (Hs & Hc & Hw).
  split; [exact Hs|]. split; [exact Hc|]. split; [exact Hw|].
  split; [rewrite send_outcome; by destruct (transport_open c)|].
  split; [reflexivity|]. split.
  - unfold keepAliveTick, sendPing. rewrite send_outcome.
    unfold transport_open.
    destruct (isConnected c), (bool_decide (is_Some (websocket c))),
      (connecting c); cbn [negb andb fst sent]; by rewrite ?app_nil_r.
  - unfold keepAliveTick, onclose.
    destruct (negb (code =? 1000) && _); reflexivity.
Qed.

End Transport.

(** ** AudioRecorder: the encoder type, the chunks, the microphone *)

Section Recorder.
Import AudioRecorder.

(** X12.  [getSupportedMimeType] answers with the first type of its
    preference list that the platform supports, every type before it being
    unsupported; when the platform supports none it answers "audio/webm".
    Either way the answer is on the list. *)
Theorem getSupportedMimeType_first_supported (p : Platform) :
  getSupportedMimeType p ∈ types
  /\ if existsb (isTypeSupported p) types
     then isTypeSupported p (getSupportedMimeType p) = true
          /\ exists before after : list string,
               types = before ++ getSupportedMimeType p :: after
               /\ forallb (fun type => negb (isTypeSupported p type)) before
                  = true
     else getSupportedMimeType p = "audio/webm".
Proof.
  assert (forall l : list string,
             match List.find (isTypeSupported p) l with
             | Some type =>
                 existsb (isTypeSupported p) l = true
                 /\ isTypeSupported p type = true
                 /\ exists before after : list string,
                      l = before ++ type :: after
                      /\ forallb (fun type => negb (isTypeSupported p type))
                                 before = true
             | None => existsb (isTypeSupported p) l = false
             end) as Hfind.
  { induction l as [|a l IH]; [done|]. cbn [List.find existsb].
    destruct (isTypeSupported p a) eqn:Ha.
    - split; [done|]. split; [done|]. by exists [], l.
    - destruct (List.find (isTypeSupported p) l) as [type|]; [|done].
      destruct IH as (He & Ht & before & after & -> & Hb).
      split; [done|]. split; [done|].
      exists (a :: before), after. split; [done|]. cbn. by rewrite Ha. }
  specialize (Hfind types). unfold getSupportedMimeType.
  destruct (List.find (isTypeSupported p) types) as [type|].
  - destruct Hfind as (-> & Ht & before & after & Heq & Hb).
    split; [|by eauto].
    rewrite Heq. apply elem_of_app. right. apply elem_of_cons. by left.
  - rewrite Hfind. split; [|done]. unfold types. set_solver.
Qed.

(** The format tag read off the recorder's type is the container
    of that type: whatever the platform supports, the chosen type starts
    with "audio/" followed by the tag, and the tag is one of the four
    formats of the wire contract. *)
Lemma format_of_recorder_type (p : Platform) :
  let format := getFormatFromMimeType (getSupportedMimeType p) in
  String.prefix ("audio/" ++ format) (getSupportedMimeType p) = true
  /\ format ∈ ["webm"; "ogg"; "wav"; "mp4"].
Proof.
  assert (getSupportedMimeType p ∈ types) as Hin.
  { unfold getSupportedMimeType.
    destruct (List.find (isTypeSupported p) types) as [type|] eqn:Hfind.
    - apply find_some in Hfind as [Hin _]. by apply list_elem_of_In.
    - unfold types. set_solver. }
  cbn zeta. unfold types in Hin.
  repeat (apply elem_of_cons in Hin as [->|Hin];
          [split; [reflexivity|set_solver]|]).
  by apply elem_of_nil in Hin.
Qed.

Lemma startRecording_try_started (p : Platform) (options : obj) (r : t)
      (o : obj) :
  (startRecording_try p options r).2 = VObj o ->
  get o "success" = VBool true ->
  let r' := (startRecording_try p options r).1.1 in
  isRecording r' = true
  /\ recordedChunks r' = []
  /\ mediaRecorder r' = Some (getSupportedMimeType p)
  /\ encoder r'
     = encoder r ++ [Start (or_else (get options "timeslice") VUndefined)].
Proof.
  unfold startRecording_try, start_failed.
  destruct (new_MediaRecorder_error p); cbn [fst snd].
  - intros [= <-]. by read_props.
  - destruct (start_error p); cbn [fst snd]; [|done].
    intros [= <-]. by read_props.
Qed.

Lemma startRecording_started (p : Platform) (freq : list Byte.byte)
      (options : obj) (r : t) (o : obj) :
  (startRecording p freq options r).2 = VObj o ->
  get o "success" = VBool true ->
  let r' := (startRecording p freq options r).1.1 in
  isRecording r' = true
  /\ recordedChunks r' = []
  /\ mediaRecorder r' = Some (getSupportedMimeType p)
  /\ encoder r'
     = encoder r ++ [Start (or_else (get options "timeslice") VUndefined)].
Proof.
  unfold startRecording.
  destruct (isRecording r) eqn:Hrec.
  { cbn [fst snd]. intros [= <-]. by read_props. }
  destruct (audioStream r); cbn [negb]; [apply startRecording_try_started|].
  assert (encoder (requestMicrophoneAccess p freq r).1.1 = encoder r) as Henc.
  { unfold requestMicrophoneAccess, setupAudioAnalysis, updateAudioLevel.
    destruct (permission_error p); [done|].
    destruct (getUserMedia_error p); [done|]. cbn.
    by destruct (analysis_error p). }
  destruct (requestMicrophoneAccess p freq r) as [[r1 evs] accessResult].
  cbn [fst] in Henc.
  destruct accessResult as [| | | | | | | | |a]; cbn [fst snd]; try done.
  destruct (falsy (get a "success")) eqn:Hfalsy; cbn [fst snd].
  - intros [= <-] Hs. rewrite Hs in Hfalsy. discriminate.
  - pose proof (startRecording_try_started p options r1 o) as Htry.
    destruct (startRecording_try p options r1) as [[r2 evs'] res].
    cbn [fst snd] in *. rewrite <- Henc. exact Htry.
Qed.

Lemma recorder_run_chunks (cbs : list recorder_callback) :
  forall r : t,
    recordedChunks (recorder_run cbs r) = recordedChunks r ++ kept cbs
    /\ isRecording (recorder_run cbs r) = isRecording r
    /\ mediaRecorder (recorder_run cbs r) = mediaRecorder r
    /\ encoder (recorder_run cbs r) = encoder r.
Proof.
  induction cbs as [|cb cbs IH]; intros r.
  - cbn. by rewrite app_nil_r.
  - change (recorder_run (cb :: cbs) r)
      with (recorder_run cbs (recorder_step r cb)).
    destruct (IH (recorder_step r cb)) as (Hc & Hr & Hm & He).
    rewrite Hc, Hr, Hm, He. cbn [kept flat_map].
    destruct cb as [[d|]|freq]; cbn [recorder_step].
    + unfold ondataavailable. destruct (0 <? blob_size d); cbn [fst].
      * cbn [recordedChunks isRecording mediaRecorder encoder].
        by rewrite <- app_assoc.
      * done.
    + done.
    + unfold updateAudioLevel. by destruct (negb (analyser r) || _).
Qed.

(** X13.  After a start that reported success, the recorder holds
    exactly the chunks delivered since that were there and not empty, in
    the order of their arrival, whatever had been recorded before and
    however frames of the level loop interleave.  [getRecordingBlob] is
    null while there is none, and otherwise the blob of their bytes in
    that order, typed with the encoder's type. *)
Theorem recording_collects_chunks (p : Platform) (freq : list Byte.byte)
        (options : obj) (r : t) (o : obj) (cbs : list recorder_callback) :
  (startRecording p freq options r).2 = VObj o ->
  get o "success" = VBool true ->
  let r' := recorder_run cbs (startRecording p freq options r).1.1 in
  recordedChunks r' = kept cbs
  /\ Forall (fun d => 0 < blob_size d) (recordedChunks r')
  /\ getRecordingBlob r'
     = match kept cbs with
       | [] => None
       | _ => Some {| blob_bytes := concat (map blob_bytes (kept cbs));
                      blob_type := getSupportedMimeType p |}
       end.
Proof.
  intros Hres Hok. cbn zeta.
  destruct (startRecording_started p freq options r o Hres Hok)
    as (_ & Hchunks & Hmr & _).
  destruct (recorder_run_chunks cbs (startRecording p freq options r).1.1)
    as (Hc & _ & Hm & _).
  rewrite Hchunks in Hc. cbn [app] in Hc. rewrite Hmr in Hm.
  split; [exact Hc|]. split.
  - rewrite Hc. unfold kept. apply Forall_flat_map, Forall_forall.
    intros [[d|]|f] _; try constructor.
    destruct (0 <? blob_size d) eqn:Hd; constructor; [|constructor].
    by apply Z.ltb_lt.
  - unfold getRecordingBlob. rewrite Hc, Hm. by destruct (kept cbs).
Qed.

Lemma recording_collects_chunks_witness :
  getRecordingBlob
    (recorder_run
       [ DataAvailable (Some (chunk_of "audio/webm"));
         AnimationFrame [];
         DataAvailable None;
         DataAvailable (Some {| blob_bytes := []; blob_type := "audio/webm" |});
         DataAvailable (Some (chunk_of "audio/webm")) ]
       (startRecording chrome [] ∅ constructor).1.1)
  = Some {| blob_bytes := [Byte.x4d; Byte.x61; Byte.x6e;
                           Byte.x4d; Byte.x61; Byte.x6e];
            blob_type := "audio/webm;codecs=opus" |}.
Proof.
  refine (proj2 (proj2 (recording_collects_chunks
                          chrome [] ∅ constructor _ _ eq_refl eq_refl))).
Defined.

(** X14.  When the microphone is refused (the permission is denied or
    [getUserMedia] fails), [startRecording] on a recorder without a
    stream resolves with the failure object of code
    [MICROPHONE_ACCESS_DENIED] carrying the platform's message, emits that
    object once as [error], and leaves the recorder exactly as it was: no
    encoder is created or started. *)
Theorem startRecording_microphone_denied (p : Platform) (freq : list Byte.byte)
        (options : obj) (r : t) (message : string) :
  isRecording r = false ->
  audioStream r = false ->
  denial p = Some message ->
  startRecording p freq options r
  = (r, [("error", access_denied message)], access_denied message).
Proof.
  intros Hrec Hstream Hdenial.
  unfold startRecording, requestMicrophoneAccess, denial in *.
  rewrite Hrec, Hstream. cbn [negb].
  destruct (permission_error p) as [msg|].
  - injection Hdenial as <-. unfold access_denied. by read_props.
  - rewrite Hdenial. unfold access_denied. by read_props.
Qed.

Lemma startRecording_microphone_denied_witness :
  startRecording
    {| permission_error := Some "Permission denied";
       getUserMedia_error := None;
       analysis_error := None;
       isTypeSupported := fun _ => true;
       new_MediaRecorder_error := None;
       start_error := None;
       stop_error := None;
       now := 0 |}
    [] ∅ constructor
  = (constructor,
     [("error", access_denied "Permission denied")],
     access_denied "Permission denied").
Proof.
  apply startRecording_microphone_denied; reflexivity.
Defined.

(** X15.  Starting twice without a stop in between, and stopping twice:
    after a start that reported success and any callbacks of the encoder
    and the level loop, a second start fails with "Already recording" and
    changes nothing; after the stop that follows (whether the encoder's
    [stop] throws or not) and any further callbacks, a second stop fails
    with "Not recording" and changes nothing. *)
Theorem start_twice_stop_twice
        (p p1 p2 p3 : Platform) (freq freq1 : list Byte.byte)
        (options options1 : obj) (r : t) (o : obj)
        (during after : list recorder_callback) :
  (startRecording p freq options r).2 = VObj o ->
  get o "success" = VBool true ->
  let r1 := recorder_run during (startRecording p freq options r).1.1 in
  let r2 := recorder_run after (stopRecording p2 r1).1 in
  startRecording p1 freq1 options1 r1
  = (r1, [],
     VObj {[ "success" := VBool false; "error" := VStr "Already recording" ]})
  /\ stopRecording p3 r2
     = (r2, VObj {[ "success" := VBool false; "error" := VStr "Not recording" ]}).
Proof.
  intros Hres Hok. cbn zeta.
  destruct (startRecording_started p freq options r o Hres Hok)
    as (Hrec & _ & Hmr & _).
  destruct (recorder_run_chunks during (startRecording p freq options r).1.1)
    as (_ & Hr1 & Hm1 & _).
  rewrite Hrec in Hr1. rewrite Hmr in Hm1.
  split.
  - unfold startRecording at 1. by rewrite Hr1.
  - destruct (recorder_run_chunks after
                (stopRecording p2
                   (recorder_run during
                      (startRecording p freq options r).1.1)).1)
      as (_ & Hr2 & _).
    assert (isRecording
              (stopRecording p2
                 (recorder_run during
                    (startRecording p freq options r).1.1)).1 = false) as Hst.
    { apply stopRecording_not_recording. intros _. rewrite Hm1. eauto. }
    rewrite Hst in Hr2. unfold stopRecording at 1. by rewrite Hr2.
Qed.

Lemma start_twice_stop_twice_witness :
  startRecording chrome [] ∅
    (recorder_run [DataAvailable (Some chunk)]
       (startRecording chrome [] ∅ constructor).1.1)
  = (recorder_run [DataAvailable (Some chunk)]
       (startRecording chrome [] ∅ constructor).1.1,
     [],
     VObj {[ "success" := VBool false; "error" := VStr "Already recording" ]})
  /\ stopRecording chrome
       (recorder_run []
          (stopRecording chrome
             (recorder_run [DataAvailable (Some chunk)]
                (startRecording chrome [] ∅ constructor).1.1)).1)
     = (recorder_run []
          (stopRecording chrome
             (recorder_run [DataAvailable (Some chunk)]
                (startRecording chrome [] ∅ constructor).1.1)).1,
        VObj {[ "success" := VBool false; "error" := VStr "Not recording" ]}).
Proof.
  refine (start_twice_stop_twice chrome chrome chrome chrome [] [] ∅ ∅
            constructor _ [DataAvailable (Some chunk)] [] eq_refl eq_refl).
Defined.

(** X16.  [cleanup] releases everything: afterwards the recorder has no
    encoder, stream, audio context, analyser, data array, frame request or
    chunks, so the level loop emits nothing more and a later start asks
    for the microphone again.  Cleaning up twice is the same as once, and
    the encoder is stopped at most once by it. *)
Theorem cleanup_releases (p p' : Platform) (freq : list Byte.byte) (r : t) :
  let r' := cleanup p r in
  mediaRecorder r' = None
  /\ audioStream r' = false
  /\ recordedChunks r' = []
  /\ getRecordingBlob r' = None
  /\ updateAudioLevel freq r' = (r', [])
  /\ cleanup p' r' = r'
  /\ (encoder r' = encoder r \/ encoder r' = encoder r ++ [Stop]).
Proof.
  cbn zeta.
  do 5 (split; [reflexivity|]). split.
  - unfold cleanup at 1. unfold stopRecording.
    cbn [mediaRecorder cleanup]. rewrite bool_decide_eq_false_2
      by (by intros [? ?]).
    cbn [negb]. by rewrite orb_true_r.
  - unfold cleanup, stopRecording.
    destruct (negb (isRecording r) || _); [by left|].
    destruct (stop_error p); [by left|by right].
Qed.

End Recorder.

(** ** FileUploader: outcomes of an upload, bounds of the poll loop *)

Section Uploader.
Import FileUploader.


(** X18.  [cancelRequest] makes exactly one DELETE for the request.  It
    resolves with [success: true] when the server accepted with a JSON
    body other than [null], and with code [CANCEL_FAILED] otherwise; a
    failed cancel is never reported as an [error] event.
    [requestCancelled] is emitted exactly when the server accepted and the
    body parsed: also for the body [null], where the cancel then fails on
    the read of [result.message] with the engine's message, so that one
    cancel is announced and reported as failed. *)
Theorem cancelRequest_outcomes (u : t) (requestId : value) (reply : response) :
  let eff := (cancelRequest u requestId reply).1 in
  let res := (cancelRequest u requestId reply).2 in
  requests eff = [DELETE (get (uploadSettings u) "endpoint") requestId]
  /\ exists o : obj,
       res = VObj o
       /\ match reply with
          | Responded true (inr result) =>
              get o "success" = VBool true
              /\ get o "message" = get result "message"
              /\ emitted eff
                 = [("requestCancelled", VObj {[ "requestId" := requestId ]})]
          | RespondedOther true _ =>
              get o "success" = VBool true
              /\ get o "message" = VUndefined
              /\ emitted eff
                 = [("requestCancelled", VObj {[ "requestId" := requestId ]})]
          | RespondedNull true typeError =>
              get o "success" = VBool false
              /\ get o "code" = VStr "CANCEL_FAILED"
              /\ get o "error" = VStr ("Cancel failed: " ++ typeError)
              /\ emitted eff
                 = [("requestCancelled", VObj {[ "requestId" := requestId ]})]
          | _ =>
              get o "success" = VBool false
              /\ get o "code" = VStr "CANCEL_FAILED"
              /\ emitted eff = []
          end.
Proof.
  cbn zeta. unfold cancelRequest.
  destruct reply as [m|[] [m|body]|[] m|[] body]; cbn [fst snd];
    (split; [reflexivity|]); eexists; (split; [reflexivity|]);
    by read_props.
Qed.


Lemma poll_pending (u : t) (requestId : value) (maxAttempts attempts : Z)
      (reply : response) :
  pending_reply reply = true ->
  attempts + 1 < maxAttempts ->
  poll u requestId maxAttempts attempts reply
  = (attempts + 1,
     [polling_event requestId (attempts + 1) (status_of reply)],
     VUndefined, true).
Proof.
  intros Hp Hlt. unfold poll. apply Z.ltb_lt in Hlt.
  destruct reply as [m|[] [m|body]|[] m|[] body]; try discriminate Hp.
  - cbn in Hp. apply andb_true_iff in Hp as [Hc Hf].
    apply negb_true_iff in Hc, Hf. rewrite Hc, Hf. by rewrite Hlt.
  - cbn [is_str]. by rewrite Hlt.
Qed.

Lemma poll_timeout (u : t) (requestId : value) (maxAttempts attempts : Z)
      (reply : response) :
  pending_reply reply = true ->
  maxAttempts <= attempts + 1 ->
  poll u requestId maxAttempts attempts reply
  = (attempts + 1, [("error", timeout_error requestId)],
     timeout_error requestId, false).
Proof.
  intros Hp Hge. unfold poll. apply Z.ltb_ge in Hge.
  destruct reply as [m|[] [m|body]|[] m|[] body]; try discriminate Hp.
  - cbn in Hp. apply andb_true_iff in Hp as [Hc Hf].
    apply negb_true_iff in Hc, Hf. rewrite Hc, Hf. by rewrite Hge.
  - cbn [is_str]. by rewrite Hge.
Qed.

Lemma poll_settles (u : t) (requestId : value) (maxAttempts attempts : Z)
      (reply : response) :
  pending_reply reply = false \/ maxAttempts <= attempts + 1 ->
  exists (e : event) (returned : value),
    poll u requestId maxAttempts attempts reply
    = (attempts + 1, [e], returned, false)
    /\ terminal e.
Proof.
  unfold terminal.
  destruct (pending_reply reply) eqn:Hp.
  - intros [?|Hge]; [done|]. rewrite poll_timeout by done.
    do 2 eexists. split; [reflexivity|]. by right.
  - intros _. unfold poll.
    destruct reply as [m|[] [m|body]|[] m|[] body];
      try discriminate Hp;
      try (do 2 eexists; split; [reflexivity|]; by right).
    cbn in Hp.
    destruct (is_str (get body "status") "completed").
    { do 2 eexists. split; [reflexivity|]. by left. }
    destruct (is_str (get body "status") "failed"); [|done].
    do 2 eexists. split; [reflexivity|]. by right.
Qed.

(** The first run and the timer runs make one loop. *)
Lemma pollForResult_timers (u : t) (requestId : value) (options : Options)
      (reply : response) (replies : list response) :
  (pollForResult u requestId options (reply :: replies)).1
  = timers u requestId (number_or (maxAttempts options) 60) 0
           (reply :: replies).
Proof.
  unfold pollForResult. cbn [timers].
  destruct (poll u requestId _ 0 reply) as [[[attempts evs] returned] again].
  destruct again; [done|]. cbn. by rewrite app_nil_r.
Qed.

Lemma timers_shape (u : t) (requestId : value) (maxAttempts : Z)
      (replies : list response) :
  forall attempts : Z,
    exists (statuses : list value) (last_ : list event),
      emitted (timers u requestId maxAttempts attempts replies)
      = polling_events requestId (attempts + 1) statuses ++ last_
      /\ (length last_ <= 1)%nat
      /\ Forall terminal last_
      /\ length (requests (timers u requestId maxAttempts attempts replies))
         = (length statuses + length last_)%nat
      /\ attempts + Z.of_nat (length statuses)
         < Z.max (attempts + 1) maxAttempts.
Proof.
  induction replies as [|reply replies IH]; intros attempts.
  { exists [], []. cbn. repeat split; [lia|constructor|lia]. }
  cbn [timers].
  destruct (decide (pending_reply reply = true
                    /\ attempts + 1 < maxAttempts)) as [[Hp Hlt]|Hn].
  - rewrite poll_pending by done.
    destruct (IH (attempts + 1)) as (statuses & last_ & He & Hl & Hf & Hr & Hb).
    exists (status_of reply :: statuses), last_.
    cbn [emitted requests polling_events length]. rewrite He, Hr.
    repeat split; [done|done|lia].
  - destruct (poll_settles u requestId maxAttempts attempts reply)
      as (e & returned & -> & Ht).
    { destruct (pending_reply reply); [|by left].
      right. destruct (decide (attempts + 1 < maxAttempts)); [|lia].
      by destruct Hn. }
    exists [], [e]. cbn. repeat split; [lia|by constructor|lia].
Qed.

Lemma polling_events_length (requestId : value) (statuses : list value) :
  forall first : Z,
    length (polling_events requestId first statuses) = length statuses.
Proof.
  induction statuses as [|st statuses IH]; intros first; [done|].
  cbn. f_equal. apply IH.
Qed.

(** X19.  Whatever the server answers, the events of [pollForResult] are
    [polling] events numbered 1, 2, ... followed by at most one closing
    event, [transcription] or [error]; every answered status request emits
    exactly one event; and the requests number at most [maxAttempts] (at
    most one when [maxAttempts] is below one). *)
Theorem pollForResult_bounded (u : t) (requestId : value) (options : Options)
        (replies : list response) :
  let eff := (pollForResult u requestId options replies).1 in
  let limit := Z.max 1 (number_or (maxAttempts options) 60) in
  exists (statuses : list value) (last_ : list event),
    emitted eff = polling_events requestId 1 statuses ++ last_
    /\ (length last_ <= 1)%nat
    /\ Forall terminal last_
    /\ Z.of_nat (length statuses) < limit
    /\ Z.of_nat (length (requests eff)) <= limit
    /\ (replies <> [] -> length (requests eff) = length (emitted eff)).
Proof.
  cbn zeta. destruct replies as [|reply replies].
  { exists [], []. cbn. repeat split; [lia|constructor|lia|lia|done]. }
  rewrite pollForResult_timers.
  destruct (timers_shape u requestId (number_or (maxAttempts options) 60)
                         (reply :: replies) 0)
    as (statuses & last_ & He & Hl & Hf & Hr & Hb).
  exists statuses, last_. rewrite He, Hr.
  repeat split; [done|done|lia|lia|].
  intros _. by rewrite length_app, polling_events_length.
Qed.

Lemma timers_all_pending (u : t) (requestId : value) (maxAttempts : Z)
      (replies : list response) :
  forall attempts : Z,
    forallb pending_reply replies = true ->
    replies <> [] ->
    maxAttempts <= attempts + Z.of_nat (length replies) ->
    timers u requestId maxAttempts attempts replies
    = {| emitted :=
           polling_events requestId (attempts + 1)
             (map status_of
                  (take (Z.to_nat (maxAttempts - attempts - 1)) replies))
           ++ [("error", timeout_error requestId)];
         requests :=
           repeat (GET (get (uploadSettings u) "endpoint") requestId)
                  (S (Z.to_nat (maxAttempts - attempts - 1))) |}.
Proof.
  induction replies as [|reply replies IH]; intros attempts Hp Hne Hlen;
    [done|].
  cbn [forallb] in Hp. apply andb_true_iff in Hp as [Hp Hps].
  cbn [length] in Hlen. cbn [timers].
  destruct (decide (attempts + 1 < maxAttempts)) as [Hlt|Hge].
  - rewrite poll_pending by done.
    rewrite IH; [|done| |lia]; cycle 1.
    { destruct replies; [cbn in Hlen; lia|done]. }
    replace (Z.to_nat (maxAttempts - attempts - 1))
      with (S (Z.to_nat (maxAttempts - (attempts + 1) - 1))) by lia.
    done.
  - rewrite poll_timeout by (done || lia).
    replace (Z.to_nat (maxAttempts - attempts - 1)) with 0%nat by lia.
    done.
Qed.

(** X20.  When every reply reports a status that is neither [completed]
    nor [failed] and there are at least [maxAttempts] replies, the loop
    makes exactly [maxAttempts] status requests (one when [maxAttempts]
    is below one), emits a [polling] event for each but the last and then
    a single [TRANSCRIPTION_TIMEOUT] error.  The promise resolves with that
    error only when the first request is already the last one. *)
Theorem pollForResult_timeout (u : t) (requestId : value) (options : Options)
        (replies : list response) :
  let limit := Z.max 1 (number_or (maxAttempts options) 60) in
  forallb pending_reply replies = true ->
  limit <= Z.of_nat (length replies) ->
  pollForResult u requestId options replies
  = ({| emitted :=
          polling_events requestId 1
                         (map status_of (take (Z.to_nat limit - 1) replies))
          ++ [("error", timeout_error requestId)];
        requests :=
          repeat (GET (get (uploadSettings u) "endpoint") requestId)
                 (Z.to_nat limit) |},
     Some (if limit =? 1 then timeout_error requestId else VUndefined)).
Proof.
  cbn zeta. intros Hp Hlen.
  destruct replies as [|reply replies]; [cbn in Hlen; lia|].
  pose proof (pollForResult_timers u requestId options reply replies) as He.
  rewrite (timers_all_pending u requestId _ (reply :: replies) 0) in He;
    [|done|done|lia].
  destruct (pollForResult u requestId options (reply :: replies))
    as [eff returned] eqn:Hrun.
  cbn [fst] in He. subst eff. f_equal.
  - f_equal; f_equal; try lia. do 3 f_equal. lia.
  - unfold pollForResult in Hrun.
    cbn [forallb] in Hp. apply andb_true_iff in Hp as [Hp _].
    destruct (decide (1 < number_or (maxAttempts options) 60)) as [Hlt|Hge].
    + rewrite poll_pending in Hrun by (done || lia).
      cbv beta iota zeta in Hrun.
      apply (f_equal snd) in Hrun. cbn [snd] in Hrun.
      subst returned.
      replace (Z.max 1 (number_or (maxAttempts options) 60) =? 1)
        with false by (symmetry; apply Z.eqb_neq; lia).
      done.
    + rewrite poll_timeout in Hrun by (done || lia).
      cbv beta iota zeta in Hrun.
      apply (f_equal snd) in Hrun. cbn [snd] in Hrun.
      subst returned.
      replace (Z.max 1 (number_or (maxAttempts options) 60) =? 1)
        with true by (symmetry; apply Z.eqb_eq; lia).
      done.
Qed.

Lemma pollForResult_timeout_witness :
  pollForResult constructor (VStr "r1")
                {| model := VUndefined; language := VUndefined;
                   maxAttempts := Some 2; pollInterval := None |}
                [processing; processing]
  = ({| emitted :=
          [polling_event (VStr "r1") 1 (VStr "processing");
           ("error", timeout_error (VStr "r1"))];
        requests :=
          [GET (VStr "/api/transcribe") (VStr "r1");
           GET (VStr "/api/transcribe") (VStr "r1")] |},
     Some VUndefined).
Proof.
  apply (pollForResult_timeout
           constructor (VStr "r1")
           {| model := VUndefined; language := VUndefined;
              maxAttempts := Some 2; pollInterval := None |}
           [processing; processing]);
    by vm_compute.
Defined.

Lemma timers_stop (u : t) (requestId : value) (maxAttempts : Z)
      (pendings : list response) (reply : response) (rest : list response) :
  forall attempts : Z,
    forallb pending_reply pendings = true ->
    pending_reply reply = false ->
    attempts + Z.of_nat (length pendings) < Z.max (attempts + 1) maxAttempts ->
    timers u requestId maxAttempts attempts (pendings ++ reply :: rest)
    = {| emitted :=
           polling_events requestId (attempts + 1) (map status_of pendings)
           ++ poll_events u requestId maxAttempts
                          (attempts + Z.of_nat (length pendings)) reply;
         requests :=
           repeat (GET (get (uploadSettings u) "endpoint") requestId)
                  (S (length pendings)) |}.
Proof.
  induction pendings as [|p pendings IH]; intros attempts Hp Hr Hlen.
  - cbn [app timers map polling_events length]. unfold poll_events.
    rewrite Z.add_0_r.
    destruct (poll_settles u requestId maxAttempts attempts reply)
      as (e & returned & -> & _); [by left|]. done.
  - cbn [forallb] in Hp. apply andb_true_iff in Hp as [Hp Hps].
    cbn [length] in Hlen.
    cbn [app timers map polling_events length].
    rewrite poll_pending by (done || lia).
    rewrite IH by (done || lia).
    cbn [emitted requests repeat].
    replace (attempts + 1 + Z.of_nat (length pendings))
      with (attempts + Z.of_nat (S (length pendings))) by lia.
    done.
Qed.

(** X21.  The loop stops at the first reply that is not pending: after
    [k] pending replies ([k] below the attempt limit) it has made [k + 1]
    status requests and emitted [k] [polling] events and one closing
    event, and whatever the server would answer afterwards is never
    asked for. *)
Theorem pollForResult_stops (u : t) (requestId : value) (options : Options)
        (pendings : list response) (reply : response) (rest : list response) :
  let limit := Z.max 1 (number_or (maxAttempts options) 60) in
  forallb pending_reply pendings = true ->
  pending_reply reply = false ->
  Z.of_nat (length pendings) < limit ->
  pollForResult u requestId options (pendings ++ reply :: rest)
  = pollForResult u requestId options (pendings ++ [reply])
  /\ exists e : event,
       terminal e
       /\ (pollForResult u requestId options (pendings ++ reply :: rest)).1
          = {| emitted :=
                 polling_events requestId 1 (map status_of pendings) ++ [e];
               requests :=
                 repeat (GET (get (uploadSettings u) "endpoint") requestId)
                        (S (length pendings)) |}.
Proof.
  cbn zeta. intros Hp Hr Hlen.
  assert (forall rest',
             (pollForResult u requestId options (pendings ++ reply :: rest')).1
             = {| emitted :=
                    polling_events requestId 1 (map status_of pendings)
                    ++ poll_events u requestId
                         (number_or (maxAttempts options) 60)
                         (Z.of_nat (length pendings)) reply;
                  requests :=
                    repeat (GET (get (uploadSettings u) "endpoint") requestId)
                           (S (length pendings)) |}) as Heff.
  { intros rest'.
    destruct pendings as [|p pendings];
      cbn [app]; rewrite pollForResult_timers.
    - by rewrite (timers_stop u requestId _ [] reply rest' 0) by (done || lia).
    - by rewrite (timers_stop u requestId _ (p :: pendings) reply rest' 0)
        by (done || lia). }
  split.
  - apply injective_projections; [by rewrite !Heff|].
    unfold pollForResult.
    destruct pendings as [|p pendings]; cbn [app].
    + destruct (poll u requestId _ 0 reply) as [[[a evs] returned] again].
      done.
    + destruct (poll u requestId _ 0 p) as [[[a evs] returned] again].
      done.
  - destruct (poll_settles u requestId (number_or (maxAttempts options) 60)
                           (Z.of_nat (length pendings)) reply)
      as (e & returned & Hpoll & Ht); [by left|].
    exists e. split; [done|].
    rewrite Heff. unfold poll_events. by rewrite Hpoll.
Qed.

Lemma pollForResult_stops_witness :
  pollForResult constructor (VStr "r1") no_options
                ([processing] ++ completed :: [processing; completed])
  = pollForResult constructor (VStr "r1") no_options
                  ([processing] ++ [completed]).
Proof.
  apply (pollForResult_stops constructor (VStr "r1") no_options
                             [processing] completed [processing; completed]);
    by vm_compute.
Defined.

End Uploader.

(** ** AudioClientV2: what reaches the server *)

Section ComposedClient.
Import AudioClientV2.

Lemma transport_open_send (message : value) (w : WebSocketClient.t) :
  WebSocketClient.send message w
  = if transport_open w
    then ({| WebSocketClient.websocket := WebSocketClient.websocket w;
             WebSocketClient.isConnected := WebSocketClient.isConnected w;
             WebSocketClient.connectionSettings :=
               WebSocketClient.connectionSettings w;
             WebSocketClient.currentAttempt := WebSocketClient.currentAttempt w;
             WebSocketClient.keepAliveTimer := WebSocketClient.keepAliveTimer w;
             WebSocketClient.sent := WebSocketClient.sent w ++ [message];
             WebSocketClient.timeouts := WebSocketClient.timeouts w;
             WebSocketClient.sockets := WebSocketClient.sockets w;
             WebSocketClient.connecting := WebSocketClient.connecting w;
             WebSocketClient.invalidState := WebSocketClient.invalidState w |},
          VObj {[ "success" := VBool true ]})
    else (w, if WebSocketClient.isConnected w
                && bool_decide (is_Some (WebSocketClient.websocket w))
             then send_failed w else not_connected).
Proof. apply send_outcome. Qed.

(** X22.  Once the socket that [connect] created opens, the composed
    client is connected and has sent exactly one message on it, the Config
    message with the current model and language; [connected] is the one
    event it emits, and the transport's reconnect counter is back at
    zero. *)
Theorem socket_open_sends_config (c : t) :
  let c' := (socket_onopen (connect c).1).1 in
  isConnected c' = true
  /\ transport_open (websocket c') = true
  /\ WebSocketClient.sent (websocket c')
     = WebSocketClient.sent (websocket c) ++ [config_message (settings c)]
  /\ WebSocketClient.currentAttempt (websocket c') = 0
  /\ settings c' = settings c
  /\ (socket_onopen (connect c).1).2 = [("connected", VUndefined)].
Proof. cbn zeta. by repeat split. Qed.

(** X23.  [updateSettings] makes the merged settings the client's
    settings and announces them in [settingsUpdated], the one event it
    emits.  The server gets exactly one Config message with the merged
    model and language when the client is connected and the transport
    takes a message, and nothing otherwise; the connection flag is left as
    it was. *)
Theorem updateSettings_reaches_server (newSettings : obj) (c : t) :
  let merged := spread (settings c) newSettings in
  let c' := (updateSettings newSettings c).1 in
  settings c' = merged
  /\ isConnected c' = isConnected c
  /\ (updateSettings newSettings c).2 = [("settingsUpdated", VObj merged)]
  /\ WebSocketClient.sent (websocket c')
     = WebSocketClient.sent (websocket c)
       ++ (if isConnected c && transport_open (websocket c)
           then [config_message merged] else []).
Proof.
  cbn zeta. unfold updateSettings.
  set (merged := spread (settings c) newSettings).
  set (c1 := saveSettings (with_settings merged c)).
  set (c2 := if truthy (get newSettings "maxFileSize") then _ else c1).
  assert (settings c2 = merged
          /\ websocket c2 = websocket c
          /\ isConnected c2 = isConnected c)
    as (Hse & Hw & Hc).
  { subst c2. by destruct (truthy (get newSettings "maxFileSize")). }
  clearbody c2. rewrite <- Hc.
  destruct (isConnected c2) eqn:Hc2; cbv beta iota; cbn [andb]; cycle 1.
  { cbn [fst snd]. by rewrite Hse, Hw, Hc2, app_nil_r. }
  unfold sendConfig, WebSocketClient.sendConfig. rewrite Hc2. cbn [negb].
  rewrite transport_open_send, Hw, Hse.
  destruct (transport_open (websocket c));
    cbn [fst snd with_websocket settings isConnected websocket
         WebSocketClient.sent];
    rewrite ?Hse, ?Hw, ?Hc2, ?app_nil_r; done.
Qed.

Lemma kept_chunks_cons (data : option Blob) (datas : list (option Blob)) :
  kept_chunks (data :: datas) = kept_chunks [data] ++ kept_chunks datas.
Proof. unfold kept_chunks. cbn [flat_map]. by rewrite app_nil_r. Qed.

Lemma handleStreamingAudio_sent (p : Platform) (audioBlob : Blob) (c : t) :
  let c' := (handleStreamingAudio p audioBlob c).1.1 in
  c' = with_websocket (websocket c') c
  /\ (handleStreamingAudio p audioBlob c).1.2 = []
  /\ transport_open (websocket c') = transport_open (websocket c)
  /\ WebSocketClient.sent (websocket c')
     = WebSocketClient.sent (websocket c)
       ++ (if transport_open (websocket c)
           then [audio_message (type_of p audioBlob) audioBlob (settings c)]
           else []).
Proof.
  cbn zeta. unfold handleStreamingAudio, WebSocketClient.sendAudio.
  rewrite transport_open_send. fold (type_of p audioBlob).
  destruct (transport_open (websocket c)) eqn:Ho; cbn.
  - repeat split; try done.
  - rewrite app_nil_r. by rewrite Ho.
Qed.

Lemma recorder_ondataavailable_kept (p : Platform) (data : option Blob) (c : t) :
  let c' := (recorder_ondataavailable p data c).1 in
  let streaming :=
    is_str (get (settings c) "recordingMode") "streaming"
    && truthy (get (settings c) "autoSend") in
  settings c' = settings c
  /\ fetches c' = fetches c
  /\ isConnected c' = isConnected c
  /\ uploader c' = uploader c
  /\ transport_open (websocket c') = transport_open (websocket c)
  /\ AudioRecorder.recordedChunks (recorder c')
     = AudioRecorder.recordedChunks (recorder c) ++ kept_chunks [data]
  /\ AudioRecorder.mediaRecorder (recorder c')
     = AudioRecorder.mediaRecorder (recorder c)
  /\ WebSocketClient.sent (websocket c')
     = WebSocketClient.sent (websocket c)
       ++ (if streaming && transport_open (websocket c)
           then map (fun d => audio_message (type_of p d) d (settings c))
                    (kept_chunks [data])
           else []).
Proof.
  cbn zeta. unfold recorder_ondataavailable, AudioRecorder.ondataavailable,
    kept_chunks. cbn [flat_map].
  destruct data as [d|]; cycle 1.
  { cbn. rewrite ?app_nil_r. repeat split; try done.
    by destruct (_ && _ && _); rewrite app_nil_r. }
  destruct (0 <? blob_size d); cycle 1.
  { cbn. rewrite ?app_nil_r. repeat split; try done.
    by destruct (_ && _ && _); rewrite app_nil_r. }
  cbn [deliver]. unfold on_recorder.
  cbn [String.eqb Ascii.eqb Bool.eqb settings with_recorder].
  destruct (is_str (get (settings c) "recordingMode") "streaming"
            && truthy (get (settings c) "autoSend")); cycle 1.
  { cbn. by rewrite !app_nil_r. }
  read_props.
  match goal with
  | |- context [handleStreamingAudio p d ?c0] =>
      destruct (handleStreamingAudio_sent p d c0) as (Hc & He & Ho & Hs);
      destruct (handleStreamingAudio p d c0) as [[c1 evs] res]
  end.
  cbn [fst snd] in *. rewrite Hc. cbn in Ho, Hs |- *.
  by repeat split.
Qed.

Lemma chunks_run_kept (p : Platform) (datas : list (option Blob)) :
  forall c : t,
    let c' := chunks_run p datas c in
    let streaming :=
      is_str (get (settings c) "recordingMode") "streaming"
      && truthy (get (settings c) "autoSend") in
    settings c' = settings c
    /\ fetches c' = fetches c
    /\ isConnected c' = isConnected c
    /\ uploader c' = uploader c
    /\ transport_open (websocket c') = transport_open (websocket c)
    /\ AudioRecorder.recordedChunks (recorder c')
       = AudioRecorder.recordedChunks (recorder c) ++ kept_chunks datas
    /\ AudioRecorder.mediaRecorder (recorder c')
       = AudioRecorder.mediaRecorder (recorder c)
    /\ WebSocketClient.sent (websocket c')
       = WebSocketClient.sent (websocket c)
         ++ (if streaming && transport_open (websocket c)
             then map (fun d => audio_message (type_of p d) d (settings c))
                      (kept_chunks datas)
             else []).
Proof.
  induction datas as [|data datas IH]; intros c; cbn zeta.
  { cbn. rewrite ?app_nil_r. repeat split; try done.
    by destruct (_ && _ && _); rewrite app_nil_r. }
  change (chunks_run p (data :: datas) c)
    with (chunks_run p datas (recorder_ondataavailable p data c).1).
  destruct (recorder_ondataavailable_kept p data c)
    as (Hse & Hf & Hc & Hu & Ho & Hch & Hm & Hs).
  destruct (IH (recorder_ondataavailable p data c).1)
    as (Hse' & Hf' & Hc' & Hu' & Ho' & Hch' & Hm' & Hs').
  rewrite Hse', Hf', Hc', Hu', Ho', Hch', Hm', Hs'.
  rewrite Hse, Hf, Hc, Hu, Ho, Hch, Hm, Hs.
  rewrite (kept_chunks_cons data datas), <- !app_assoc.
  repeat split; try done.
  destruct (_ && _); [|done]. by rewrite map_app.
Qed.

(** X24.  In streaming mode with [autoSend] on, a recording whose chunks
    arrive while the transport is open sends one Audio message per chunk
    that is there and not empty, in the order of arrival, each with the
    settings' model and language; with the transport closed it sends none.
    The stop of the recording sends nothing more, and nothing is ever
    uploaded.  The flag [isConnected] of the composed client plays no
    part. *)
Theorem streaming_sends_each_chunk (p : Platform) (datas : list (option Blob))
        (c : t) :
  is_str (get (settings c) "recordingMode") "streaming" = true ->
  truthy (get (settings c) "autoSend") = true ->
  let c' := (recorder_onstop p (chunks_run p datas c)).1 in
  WebSocketClient.sent (websocket c')
  = WebSocketClient.sent (websocket c)
    ++ (if transport_open (websocket c)
        then map (fun d => audio_message (type_of p d) d (settings c))
                 (kept_chunks datas)
        else [])
  /\ fetches c' = fetches c
  /\ AudioRecorder.recordedChunks (recorder c')
     = AudioRecorder.recordedChunks (recorder c) ++ kept_chunks datas
  /\ (recorder_onstop p (chunks_run p datas c)).2
     = [("recordingStopped", VUndefined)].
Proof.
  intros Hmode Hauto. cbn zeta.
  destruct (chunks_run_kept p datas c)
    as (Hse & Hf & Hc & Hu & Ho & Hch & Hm & Hs).
  rewrite Hmode, Hauto in Hs. cbn [andb] in Hs.
  unfold recorder_onstop, AudioRecorder.onstop. cbn [deliver].
  unfold on_recorder. cbn [String.eqb Ascii.eqb Bool.eqb].
  cbn [settings with_recorder with_isRecording]. rewrite Hse.
  rewrite (is_str_other _ _ "batch" Hmode) by done. cbn [andb].
  cbn [fst snd websocket fetches recorder with_isRecording with_recorder].
  by rewrite Hs, Hf, Hch.
Qed.

Lemma streaming_sends_each_chunk_witness :
  WebSocketClient.sent
    (websocket
       (recorder_onstop webm
          (chunks_run webm
             [Some (chunk_of "audio/webm"); None;
              Some {| blob_bytes := []; blob_type := "audio/webm" |};
              Some (chunk_of "")]
             streaming_recording)).1)
  = [ config_message (settings constructor);
      audio_message "audio/webm" (chunk_of "audio/webm") (settings constructor);
      audio_message "audio/webm" (chunk_of "") (settings constructor) ].
Proof.
  refine (proj1 (streaming_sends_each_chunk
                   webm
                   [Some (chunk_of "audio/webm"); None;
                    Some {| blob_bytes := []; blob_type := "audio/webm" |};
                    Some (chunk_of "")]
                   streaming_recording eq_refl eq_refl)).
Defined.

Lemma disconnect_keeps (p : Platform) (c : t) :
  let c' := disconnect p c in
  settings c' = settings c
  /\ fetches c' = fetches c
  /\ isConnected c' = isConnected c
  /\ uploader c' = uploader c
  /\ transport_open (websocket c') = false
  /\ WebSocketClient.sent (websocket c') = WebSocketClient.sent (websocket c)
  /\ AudioRecorder.recordedChunks (recorder c')
     = AudioRecorder.recordedChunks (recorder c)
  /\ AudioRecorder.mediaRecorder (recorder c')
     = AudioRecorder.mediaRecorder (recorder c).
Proof.
  cbn zeta. unfold disconnect, stopRecording, AudioRecorder.stopRecording,
    WebSocketClient.disconnect, transport_open.
  destruct (negb (AudioRecorder.isRecording (recorder c)) || _);
    [|destruct (AudioRecorder.stop_error (browser p))];
    cbn; by destruct (WebSocketClient.websocket (websocket c)).
Qed.

Lemma socket_onclose_keeps (code : Z) (reason : string) (c : t) :
  let c' := (socket_onclose code reason c).1 in
  settings c' = settings c
  /\ fetches c' = fetches c
  /\ isConnected c' = false
  /\ uploader c' = uploader c
  /\ recorder c' = recorder c
  /\ WebSocketClient.sent (websocket c') = WebSocketClient.sent (websocket c).
Proof.
  cbn zeta. unfold socket_onclose, WebSocketClient.onclose.
  destruct (negb (code =? 1000) && _); cbn; done.
Qed.

(** X25.  [disconnect()] closes the transport at once but leaves the
    composed client's own [isConnected] flag for the close event to clear.
    A batch recording that [disconnect()] stops is therefore lost when the
    recorder's stop callback runs before the close event: nothing is sent,
    nothing is uploaded and [recordingStopped] is the only event.  When
    the close event comes first, the recording goes to the upload
    endpoint instead (if the file passes validation). *)
Theorem disconnect_during_batch_recording
        (p : Platform) (d : Blob) (code : Z) (reason : string) (c : t) :
  is_str (get (settings c) "recordingMode") "batch" = true ->
  0 < blob_size d ->
  isConnected c = true ->
  let c1 := disconnect p c in
  let stop_first :=
    recorder_onstop p (recorder_ondataavailable p (Some d) c1).1 in
  let close_first :=
    recorder_onstop p
      (recorder_ondataavailable p (Some d) (socket_onclose code reason c1).1).1 in
  (WebSocketClient.sent (websocket stop_first.1)
   = WebSocketClient.sent (websocket c)
   /\ fetches stop_first.1 = fetches c
   /\ stop_first.2 = [("recordingStopped", VUndefined)])
  /\ (WebSocketClient.sent (websocket close_first.1)
      = WebSocketClient.sent (websocket c)
      /\ exists (file : File) (fields : list (string * value))
                (polls : list request),
           file_bytes file
           = concat (map blob_bytes (AudioRecorder.recordedChunks (recorder c)))
             ++ blob_bytes d
           /\ fetches close_first.1
              = fetches c
                ++ (if truthy (get (Utils.validateAudioFile (Some file)) "valid")
                    then POST (get (FileUploader.uploadSettings (uploader c))
                                   "endpoint") file fields :: polls
                    else [])
           /\ forallb is_GET polls = true).
Proof.
  intros Hmode Hd Hconn. cbn zeta.
  apply Z.ltb_lt in Hd.
  assert (kept_chunks [Some d] = [d]) as Hkept
      by (unfold kept_chunks; cbn [flat_map]; by rewrite Hd).
  destruct (disconnect_keeps p c)
    as (Hse1 & Hf1 & Hc1 & Hu1 & Ho1 & Hs1 & Hch1 & Hm1).
  assert (is_str (get (settings c) "recordingMode") "streaming" = false)
    as Hns by (by apply (is_str_other _ "batch")).
  split.
  - destruct (recorder_ondataavailable_kept p (Some d) (disconnect p c))
      as (Hse2 & Hf2 & Hc2 & Hu2 & Ho2 & Hch2 & Hm2 & Hs2).
    rewrite Hse1, Hns in Hs2. cbn [andb] in Hs2. rewrite app_nil_r in Hs2.
    set (c2 := (recorder_ondataavailable p (Some d) (disconnect p c)).1) in *.
    assert (AudioRecorder.recordedChunks (recorder c2) ≠ []) as Hne.
    { rewrite Hch2, Hkept. by intros [_ ?]%app_eq_nil. }
    unfold recorder_onstop, AudioRecorder.onstop. cbn [deliver].
    unfold on_recorder. cbn [String.eqb Ascii.eqb Bool.eqb].
    assert (with_recorder (recorder c2) c2 = c2) as -> by (by destruct c2).
    cbn [settings with_isRecording]. rewrite Hse2, Hse1, Hmode.
    unfold has_chunks. read_props.
    rewrite length_map, (has_length _ _ Hne). cbn [andb].
    unfold handleBatchRecording.
    cbn [recorder with_isRecording isConnected].
    rewrite (getRecordingBlob_recording _ Hne), Hc2, Hc1, Hconn.
    match goal with
    | |- context [handleStreamingAudio p ?b ?c0] =>
        destruct (handleStreamingAudio_sent p b c0) as (Hc & He & Ho & Hs);
        destruct (handleStreamingAudio p b c0) as [[c3 evs] res]
    end.
    cbn [fst snd] in *. subst evs. rewrite Hc.
    cbn [websocket with_websocket with_isRecording fetches] in *.
    rewrite Ho2, Ho1 in Hs. rewrite app_nil_r in Hs.
    by rewrite Hs, Hs2, Hs1, Hf2, Hf1.
  - destruct (socket_onclose_keeps code reason (disconnect p c))
      as (Hse0 & Hf0 & Hc0 & Hu0 & Hr0 & Hs0).
    set (c1 := (socket_onclose code reason (disconnect p c)).1) in *.
    destruct (recorder_ondataavailable_kept p (Some d) c1)
      as (Hse2 & Hf2 & Hc2 & Hu2 & Ho2 & Hch2 & Hm2 & Hs2).
    rewrite Hse0, Hse1, Hns in Hs2. cbn [andb] in Hs2.
    rewrite app_nil_r in Hs2.
    set (c2 := (recorder_ondataavailable p (Some d) c1).1) in *.
    assert (AudioRecorder.recordedChunks (recorder c2) ≠ []) as Hne.
    { rewrite Hch2, Hkept. by intros [_ ?]%app_eq_nil. }
    rewrite recorder_onstop_batch; [|by rewrite Hse2, Hse0, Hse1|done].
    destruct (handleBatchRecording_not_connected p (with_isRecording false c2))
      as (Hw & fields & polls & Hfetch & Hpolls);
      [done|by cbn; rewrite Hc2, Hc0|].
    cbn [websocket with_isRecording fetches recorder uploader] in Hw, Hfetch.
    rewrite Hw, Hs2, Hs0, Hs1. split; [done|].
    exists (upload_of p (recording (recorder c2))), fields, polls.
    split; [|split; [|done]].
    + unfold upload_of, recording, new_File, new_Blob.
      cbn [file_bytes blob_bytes].
      rewrite Hch2, Hkept, Hr0, Hch1, map_app, concat_app. cbn.
      by rewrite app_nil_r.
    + by rewrite Hfetch, Hf2, Hf0, Hf1, Hu2, Hu0, Hu1.
Qed.

Lemma disconnect_during_batch_recording_witness :
  let stop_first :=
    recorder_onstop webm
      (recorder_ondataavailable webm (Some (chunk_of "audio/webm"))
         (disconnect webm batch_recording)).1 in
  WebSocketClient.sent (websocket stop_first.1)
  = WebSocketClient.sent (websocket batch_recording)
  /\ fetches stop_first.1 = fetches batch_recording
  /\ stop_first.2 = [("recordingStopped", VUndefined)].
Proof.
  refine (proj1 (disconnect_during_batch_recording
                   webm (chunk_of "audio/webm") 1000 "Client disconnect"
                   batch_recording eq_refl _ eq_refl)).
  by vm_compute.
Defined.

End ComposedClient.

(** ** The HTTP fallback of batch mode *)

Section BatchFallback.

Import AudioClientV2.

(** The type the recorder records in is not always one that
    [validateAudioFile] lets through: the list there has "audio/webm" but
    not the recorder's first choice. *)
Lemma recorder_type_unsupported :
  ("audio/webm;codecs=opus" ∉ Utils.supportedTypes)
  /\ ("audio/ogg;codecs=opus" ∉ Utils.supportedTypes)
  /\ ("audio/mp4" ∉ Utils.supportedTypes).
Proof. repeat split; compute_done. Qed.

Lemma getSupportedMimeType_opus (b : AudioRecorder.Platform) :
  AudioRecorder.isTypeSupported b "audio/webm;codecs=opus" = true ->
  AudioRecorder.getSupportedMimeType b = "audio/webm;codecs=opus".
Proof.
  intros H. unfold AudioRecorder.getSupportedMimeType, AudioRecorder.types.
  cbn [List.find]. by rewrite H.
Qed.

(** With the client connected at the stop, a batch recording is sent as
    one Audio message holding all its chunks when the transport takes it,
    and no request is made. *)
Lemma batch_recording_connected (p : Platform) (c : t) :
  is_str (get (settings c) "recordingMode") "batch" = true ->
  isConnected c = true ->
  AudioRecorder.recordedChunks (recorder c) ≠ [] ->
  let stopped := recorder_onstop p c in
  fetches stopped.1 = fetches c
  /\ WebSocketClient.sent (websocket stopped.1)
     = WebSocketClient.sent (websocket c)
       ++ (if transport_open (websocket c)
           then [audio_message (type_of p (recording (recorder c)))
                               (recording (recorder c)) (settings c)]
           else []).
Proof.
  intros Hmode Hconn Hchunks. cbn zeta.
  rewrite (recorder_onstop_batch p c Hmode Hchunks).
  unfold handleBatchRecording. cbn [recorder with_isRecording isConnected].
  rewrite (getRecordingBlob_recording _ Hchunks), Hconn.
  destruct (handleStreamingAudio_sent p (recording (recorder c))
              (with_isRecording false c)) as (Hc & _ & _ & Hs).
  cbn zeta in Hc, Hs.
  destruct (handleStreamingAudio p (recording (recorder c))
              (with_isRecording false c)) as [[c1 evs] res].
  cbn [fst snd] in *. split; [by rewrite Hc|exact Hs].
Qed.

(** C4.  The HTTP fallback refuses the recorder's own recordings.  Take
    a browser whose MediaRecorder supports "audio/webm;codecs=opus", the
    recorder's first choice, and AudioClientV2 in batch mode with a
    recording under way that this recorder started.  The connection is
    lost, the recording is stopped, the encoder delivers its chunks (at
    least one is kept) and the stop callback runs.  The blob of all chunks
    carries the recorder's type, which [validateAudioFile] does not list:
    [uploadFile] refuses it with [FILE_VALIDATION_FAILED] before any
    request, so that nothing is uploaded and nothing is sent, whatever the
    size of the recording and whatever the server would answer. *)
Theorem batch_fallback_refuses_recorded_type
        (p : Platform) (datas : list (option Blob)) (c : t) :
  AudioRecorder.isTypeSupported (browser p) "audio/webm;codecs=opus" = true ->
  is_str (get (settings c) "recordingMode") "batch" = true ->
  isConnected c = false ->
  AudioRecorder.mediaRecorder (recorder c)
  = Some (AudioRecorder.getSupportedMimeType (browser p)) ->
  AudioRecorder.recordedChunks (recorder c) ++ kept_chunks datas ≠ [] ->
  let stopped := recorder_onstop p (chunks_run p datas c) in
  let audioBlob :=
    new_Blob (AudioRecorder.recordedChunks (recorder c) ++ kept_chunks datas)
             "audio/webm;codecs=opus" in
  fetches stopped.1 = fetches c
  /\ WebSocketClient.sent (websocket stopped.1)
     = WebSocketClient.sent (websocket c)
  /\ get (Utils.validateAudioFile (Some (upload_of p audioBlob))) "valid"
     = VBool false
  /\ stopped.2
     = [ ("recordingStopped", VUndefined);
         ("error",
          FileUploader.validation_failed
            (Utils.validateAudioFile (Some (upload_of p audioBlob)))) ].
Proof.
  intros Hopus Hmode Hconn Hrec Hchunks. cbn zeta.
  destruct (chunks_run_kept p datas c)
    as (Hse & Hf & Hc & Hu & Ho & Hch & Hm & Hs).
  rewrite (is_str_other _ _ "streaming" Hmode) in Hs by done.
  cbn [andb] in Hs. rewrite app_nil_r in Hs.
  set (c' := chunks_run p datas c) in *.
  assert (AudioRecorder.recordedChunks (recorder c') ≠ []) as Hne
      by (by rewrite Hch).
  assert (recording (recorder c')
          = new_Blob (AudioRecorder.recordedChunks (recorder c)
                      ++ kept_chunks datas) "audio/webm;codecs=opus") as Hblob.
  { unfold recording. by rewrite Hch, Hm, Hrec, (getSupportedMimeType_opus _ Hopus). }
  assert (get (Utils.validateAudioFile
                 (Some (upload_of p (recording (recorder c'))))) "valid"
          = VBool false) as Hvalid.
  { unfold Utils.validateAudioFile.
    destruct (Utils.maxSize <? _); [by read_props|].
    rewrite Hblob. cbn [upload_of new_File new_Blob file_type blob_type].
    rewrite bool_decide_eq_false_2 by apply recorder_type_unsupported.
    cbn [negb]. by read_props. }
  unfold recorder_onstop, AudioRecorder.onstop. cbn [deliver].
  unfold on_recorder. cbn [String.eqb Ascii.eqb Bool.eqb].
  assert (with_recorder (recorder c') c' = c') as -> by (by destruct c').
  cbn [settings with_isRecording]. rewrite Hse, Hmode.
  unfold has_chunks. read_props.
  rewrite length_map, (has_length _ _ Hne). cbn [andb].
  unfold handleBatchRecording. cbn [recorder with_isRecording isConnected].
  rewrite (getRecordingBlob_recording _ Hne), Hc, Hconn.
  fold (upload_of p (recording (recorder c'))).
  unfold FileUploader.uploadAndWaitForResult, FileUploader.uploadFile,
    FileUploader.validateFile, falsy.
  rewrite Hvalid. cbn [truthy negb]. unfold FileUploader.validation_failed.
  cbn [fst snd FileUploader.emitted FileUploader.requests].
  read_props.
  cbn [truthy negb deliver on_uploader FileUploader.emitted
       FileUploader.requests String.eqb Ascii.eqb Bool.eqb].
  cbn [fst snd fetches websocket with_fetches with_isRecording app].
  rewrite app_nil_r, Hf, Hs, <- Hblob. by repeat split.
Qed.

Lemma batch_fallback_refuses_recorded_type_witness :
  let stopped :=
    recorder_onstop online
      (chunks_run online [Some chunk; None; Some chunk] interrupted) in
  fetches stopped.1 = []
  /\ WebSocketClient.sent (websocket stopped.1)
     = [config_message (settings interrupted)]
  /\ stopped.2
     = [ ("recordingStopped", VUndefined);
         ("error",
          VObj {[ "success" := VBool false;
                  "error" := VStr "Unsupported file format. Supported formats: MP3, WAV, FLAC, M4A, WebM, OGG";
                  "code" := VStr "FILE_VALIDATION_FAILED" ]}) ].
Proof.
  destruct (batch_fallback_refuses_recorded_type
              online [Some chunk; None; Some chunk] interrupted)
    as (Hf & Hs & _ & He).
  - reflexivity.
  - vm_compute. reflexivity.
  - vm_compute. reflexivity.
  - vm_compute. reflexivity.
  - vm_compute. discriminate.
  - cbn zeta. rewrite Hf, Hs, He.
    split; [vm_compute; reflexivity|]. split; [vm_compute; reflexivity|].
    vm_compute. reflexivity.
Defined.

End BatchFallback.

(** ** AudioClient: what a recording sends *)

Section FirstClient.
Import AudioClient.






End FirstClient.

(** ** Start-up and reconnection of the clients *)

Section StartUp.

Lemma checkBrowserSupport_missing (f : Utils.Features) :
  Utils.supported (Utils.checkBrowserSupport f)
  = Utils.mediaRecorder f && Utils.webSockets f
    && Utils.getUserMedia f && Utils.audioContext f
  /\ bool_decide ("getUserMedia" ∈ Utils.missing (Utils.checkBrowserSupport f))
     = negb (Utils.getUserMedia f)
  /\ forall name : string,
       name ∈ Utils.missing (Utils.checkBrowserSupport f)
       <-> (name = "mediaRecorder" /\ Utils.mediaRecorder f = false)
           \/ (name = "webSockets" /\ Utils.webSockets f = false)
           \/ (name = "getUserMedia" /\ Utils.getUserMedia f = false)
           \/ (name = "audioContext" /\ Utils.audioContext f = false).
Proof.
  destruct f as [[] [] [] []]; (split; [reflexivity|]);
    (split; [by vm_compute|]); intros name; cbn;
    rewrite ?elem_of_cons, ?elem_of_nil; intuition congruence.
Qed.

(** X27.  What [init] does with the browser's features.  AudioClientV2
    goes on to load the settings and connect only when none of the four
    features is missing, and reports [BROWSER_NOT_SUPPORTED] otherwise,
    touching nothing.  AudioClient reports [BROWSER_NOT_SUPPORTED] only
    when [getUserMedia] is there and another feature is missing; with
    [getUserMedia] missing it goes on whatever else is missing, so that a
    browser without WebSocket gets [CONNECTION_FAILED] from [connect]
    instead.  The message names exactly the missing features. *)
Theorem init_browser_support (f : Utils.Features)
        (c1 : AudioClient.t) (c2 : AudioClientV2.t) :
  let all :=
    Utils.mediaRecorder f && Utils.webSockets f
    && Utils.getUserMedia f && Utils.audioContext f in
  let missing := Utils.missing (Utils.checkBrowserSupport f) in
  AudioClientV2.init f c2
  = (if all then ((AudioClientV2.connect (AudioClientV2.loadSettings c2)).1, [])
     else (c2, [browser_not_supported missing]))
  /\ AudioClient.init f c1
     = (if Utils.getUserMedia f && negb all
        then (c1, [browser_not_supported missing])
        else if Utils.webSockets f
        then (AudioClient.with_websocket true (AudioClient.loadSettings c1), [])
        else (AudioClient.loadSettings c1,
              [("error",
                VObj {[ "message" := VStr "Failed to connect to server";
                        "code" := VStr "CONNECTION_FAILED" ]})]))
  /\ forall name : string,
       name ∈ missing
       <-> (name = "mediaRecorder" /\ Utils.mediaRecorder f = false)
           \/ (name = "webSockets" /\ Utils.webSockets f = false)
           \/ (name = "getUserMedia" /\ Utils.getUserMedia f = false)
           \/ (name = "audioContext" /\ Utils.audioContext f = false).
Proof.
  cbn zeta.
  destruct (checkBrowserSupport_missing f) as (Hs & Hg & Hm).
  unfold AudioClientV2.init, AudioClient.init, AudioClient.connect.
  rewrite Hs, Hg. split; [|split; [|exact Hm]].
  - by destruct (_ && _ && _ && _).
  - destruct (Utils.getUserMedia f); cbn [negb andb];
      rewrite ?andb_false_r, ?andb_true_r; cbn [negb andb]; [|done].
    by destruct (negb _).
Qed.

Lemma reconnect_once (f : Utils.Features) (c : AudioClient.t) :
  AudioClient.isConnected c = false ->
  exists r,
    AudioClient.reconnect f c = Some r
    /\ Utils.calls r = 1%nat
    /\ Utils.waits r = []
    /\ Utils.notified r = []
    /\ Utils.outcome r = inl VUndefined
    /\ (Utils.final r).1 = (AudioClient.connect f c).1
    /\ (Utils.final r).2
       = ("reconnecting", VUndefined) :: (AudioClient.connect f c).2.
Proof.
  intros Hc. unfold AudioClient.reconnect. rewrite Hc.
  eexists. split; [reflexivity|].
  match goal with
  | |- context [Utils.retry ?fn ?o ?s] =>
      change (Utils.retry fn o s)
        with (Utils.retry_loop fn 5 1000 2 (fun _ _ _ => None)
                               (S 5) 0 None s)
  end.
  rewrite retry_loop_step. cbn [fst snd].
  destruct (AudioClient.connect f c) as [c' evs].
  cbn [Utils.calls Utils.waits Utils.notified Utils.outcome Utils.final
       fst snd app].
  repeat split; reflexivity.
Qed.

Lemma closed_then_timer1_step (f : Utils.Features) (c : AudioClient.t)
      (n : nat) (delays : list Z) (code : Z) (reason : string) :
  closed_then_timer1 f (c, n, delays) (code, reason)
  = if code =? 1000
    then (AudioClient.with_isConnected false c, n, delays)
    else ((AudioClient.connect f (AudioClient.with_isConnected false c)).1,
          (n + 1)%nat, delays ++ [5000]).
Proof.
  unfold closed_then_timer1, AudioClient.onclose. cbn [fst snd].
  destruct (code =? 1000); [done|].
  destruct (reconnect_once f (AudioClient.with_isConnected false c))
    as (r & -> & Hcalls & Hwaits & _ & _ & Hfinal & _); [done|].
  by rewrite Hcalls, Hwaits, Hfinal.
Qed.

(** X28.  AudioClient's reconnection has no bound and no backoff: every
    close with a code other than 1000 sets one timer of 5000 ms, and the
    [reconnect] the timer runs calls [connect] exactly once, because the
    promise of [connect] never rejects and so [Utils.retry] returns after
    its first call without waiting.  After any run of closes there have
    been as many calls of [connect] as closes that were not intentional,
    each after a wait of 5000 ms. *)
Theorem reconnect_unbounded (f : Utils.Features) (closes : list (Z * string))
        (c : AudioClient.t) :
  (failures1 f closes c).1.2 = length (abnormal closes)
  /\ (failures1 f closes c).2 = repeat 5000 (length (abnormal closes))
  /\ AudioClient.isConnected (failures1 f closes c).1.1
     = match closes with [] => AudioClient.isConnected c | _ => false end.
Proof.
  unfold failures1.
  assert (forall n delays,
             (foldl (closed_then_timer1 f) (c, n, delays) closes).1.2
             = (n + length (abnormal closes))%nat
             /\ (foldl (closed_then_timer1 f) (c, n, delays) closes).2
                = delays ++ repeat 5000 (length (abnormal closes))
             /\ AudioClient.isConnected
                  (foldl (closed_then_timer1 f) (c, n, delays) closes).1.1
                = match closes with
                  | [] => AudioClient.isConnected c
                  | _ => false
                  end) as H.
  { revert c. induction closes as [|[code reason] closes IH];
      intros c n delays.
    { cbn. by rewrite Nat.add_0_r, app_nil_r. }
    cbn [foldl]. rewrite closed_then_timer1_step.
    cbn [fst snd abnormal List.filter].
    destruct (code =? 1000); cbn [negb].
    - destruct (IH (AudioClient.with_isConnected false c) n delays)
        as (H1 & H2 & H3).
      rewrite H1, H2, H3. repeat split; try done. by destruct closes.
    - destruct (IH (AudioClient.connect
                      f (AudioClient.with_isConnected false c)).1
                   (n + 1)%nat (delays ++ [5000]))
        as (H1 & H2 & H3).
      rewrite H1, H2, H3. cbn [length repeat].
      rewrite <- app_assoc. repeat split; try done;
        [unfold abnormal; lia|].
      destruct closes; [|done]. cbn.
      unfold AudioClient.connect. by destruct (Utils.webSockets f). }
  destruct (H 0%nat []) as (H1 & H2 & H3). by rewrite H1, H2, H3.
Qed.

End StartUp.

(** ** TTSClient: the awaited poll loop, and the socket that comes back *)

Section Speech.
Import TTSClient.
Variable atob : value -> string + list Byte.byte.

Lemma poll_loop_pending (pendings rest : list reply) (c : t) :
  forall n : nat,
    forallb still_synthesizing pendings = true ->
    poll_loop atob (length pendings + n) (pendings ++ rest) c
    = option_map (after_attempts (length pendings)) (poll_loop atob n rest c).
Proof.
  induction pendings as [|answer pendings IH]; intros n Hp.
  { cbn. destruct (poll_loop atob n rest c) as [[]|]; reflexivity. }
  cbn [forallb] in Hp. apply andb_true_iff in Hp as [Ha Hp].
  cbn [length Nat.add app poll_loop].
  destruct answer as [m|[] st [m|body]]; try discriminate Ha.
  cbn in Ha. apply andb_true_iff in Ha as [Hc Hf].
  apply negb_true_iff in Hc, Hf. rewrite Hc, Hf, (IH n Hp).
  destruct (poll_loop atob n rest c) as [[]|]; reflexivity.
Qed.

(** X29.  [pollSynthesisResult] awaits every attempt: after [k] replies
    that report neither [completed] nor [failed] ([k] below
    [maxAttempts], 30 by default), a [completed] reply whose data decodes
    makes the promise resolve with that very result, after [k + 1]
    requests each preceded by a wait of one second; the decoded bytes are
    kept as a WAV blob and handed to [onSynthesisComplete], and later
    replies are never asked for. *)
Theorem pollSynthesisResult_resolves
        (maxAttempts : option Z) (pendings rest : list reply)
        (statusText : string) (result : obj) (bytes : list Byte.byte) (c : t) :
  forallb still_synthesizing pendings = true ->
  Z.of_nat (length pendings) < default 30 maxAttempts ->
  is_str (get result "status") "completed" = true ->
  atob (get result "data") = inr bytes ->
  let blob := {| blob_bytes := bytes; blob_type := "audio/wav" |} in
  pollSynthesisResult atob maxAttempts
    (pendings ++ Answered true statusText (inr result) :: rest) c
  = Some {| outcome := inl result;
            client := {| ws := ws c;
                         isConnected := isConnected c;
                         currentAudioBlob := Some blob;
                         sent := sent c;
                         timeouts := timeouts c;
                         sockets := sockets c |};
            called := [("onSynthesisComplete",
                        VObj {[ "blob" := VBlob blob;
                                "result" := VObj result ]})];
            fetched := S (length pendings);
            waited := repeat 1000 (S (length pendings)) |}.
Proof.
  intros Hp Hk Hdone Hdata. cbn zeta. unfold pollSynthesisResult.
  set (m := Z.to_nat (default 30 maxAttempts)).
  replace m with (length pendings + S (m - S (length pendings)))%nat by lia.
  rewrite poll_loop_pending by done.
  cbn [poll_loop]. rewrite Hdone. unfold handleSynthesisComplete.
  rewrite Hdata. cbn [option_map]. unfold after_attempts.
  cbn [outcome client called fetched waited]. do 2 f_equal; [lia|].
  by rewrite <- repeat_cons.
Qed.

(** When every reply reports neither [completed] nor [failed] and
    there are at least [maxAttempts] of them, [pollSynthesisResult]
    rejects with "Synthesis timeout" after exactly [maxAttempts] requests
    (none when [maxAttempts] is below one), each preceded by a wait of one
    second; the client is left as it was and no callback is called. *)
Lemma pollSynthesisResult_timeout
        (maxAttempts : option Z) (pendings : list reply) (c : t) :
  forallb still_synthesizing pendings = true ->
  default 30 maxAttempts <= Z.of_nat (length pendings) ->
  let n := Z.to_nat (default 30 maxAttempts) in
  pollSynthesisResult atob maxAttempts pendings c
  = Some {| outcome := inr "Synthesis timeout";
            client := c;
            called := [];
            fetched := n;
            waited := repeat 1000 n |}.
Proof.
  intros Hp Hk. cbn zeta. unfold pollSynthesisResult.
  set (n := Z.to_nat (default 30 maxAttempts)).
  assert (n <= length pendings)%nat as Hn by lia.
  rewrite <- (take_drop n pendings).
  rewrite <- (take_drop n pendings) in Hp.
  rewrite forallb_app in Hp. apply andb_true_iff in Hp as [Hp _].
  assert (length (take n pendings) = n) as Hlen
      by (rewrite length_take; lia).
  replace n with (length (take n pendings) + 0)%nat at 1 by lia.
  rewrite poll_loop_pending by done.
  cbn [poll_loop option_map]. unfold after_attempts.
  cbn [outcome client called fetched waited].
  by rewrite Hlen, Nat.add_0_r, app_nil_r.
Qed.

(** X30.  [disconnect()] does not keep the client disconnected: the
    close event of the socket it closed sets the 3000 ms timer like any
    other close, and the timer, finding the client not connected, opens a
    new socket.  Until that socket opens, [synthesizeSpeechWebSocket]
    throws. *)
Theorem disconnect_reconnects (c : t) (text voice speed format : value) :
  is_Some (ws c) ->
  let c1 := disconnect c in
  let c2 := onclose c1 in
  let c3 := reconnectTimer c2 in
  ws c1 = None
  /\ isConnected c1 = false
  /\ timeouts c2 = timeouts c ++ [3000]
  /\ ws c3 = Some (sockets c)
  /\ sockets c3 = S (sockets c)
  /\ synthesizeSpeechWebSocket text voice speed format c3
     = inr "TTS WebSocket not connected"
  /\ isConnected (onopen c3) = true.
Proof.
  intros [socket Hws]. cbn zeta. unfold disconnect. rewrite Hws.
  by repeat split.
Qed.

End Speech.

Lemma pollSynthesisResult_resolves_witness :
  TTSClient.pollSynthesisResult
    atob_empty (Some 3)
    ([synthesizing; synthesizing]
     ++ TTSClient.Answered true "OK" (inr synthesized) :: [synthesizing])
    TTSClient.constructor
  = Some {| TTSClient.outcome := inl synthesized;
            TTSClient.client :=
              {| TTSClient.ws := None;
                 TTSClient.isConnected := false;
                 TTSClient.currentAudioBlob :=
                   Some {| blob_bytes := []; blob_type := "audio/wav" |};
                 TTSClient.sent := [];
                 TTSClient.timeouts := [];
                 TTSClient.sockets := 0 |};
            TTSClient.called :=
              [("onSynthesisComplete",
                VObj {[ "blob" :=
                          VBlob {| blob_bytes := []; blob_type := "audio/wav" |};
                        "result" := VObj synthesized ]})];
            TTSClient.fetched := 3;
            TTSClient.waited := [1000; 1000; 1000] |}.
Proof.
  apply (pollSynthesisResult_resolves
           atob_empty (Some 3) [synthesizing; synthesizing] [synthesizing]
           "OK" synthesized [] TTSClient.constructor);
    by vm_compute.
Defined.

Lemma pollSynthesisResult_timeout_witness :
  TTSClient.pollSynthesisResult
    atob_empty (Some 2) [synthesizing; synthesizing; synthesizing]
    TTSClient.constructor
  = Some {| TTSClient.outcome := inr "Synthesis timeout";
            TTSClient.client := TTSClient.constructor;
            TTSClient.called := [];
            TTSClient.fetched := 2;
            TTSClient.waited := [1000; 1000] |}.
Proof.
  apply (pollSynthesisResult_timeout
           atob_empty (Some 2) [synthesizing; synthesizing; synthesizing]
           TTSClient.constructor);
    by vm_compute.
Defined.

Lemma disconnect_reconnects_witness :
  TTSClient.ws
    (TTSClient.reconnectTimer
       (TTSClient.onclose
          (TTSClient.disconnect
             (TTSClient.connectWebSocket TTSClient.constructor))))
  = Some 1%nat.
Proof.
  refine (proj1 (proj2 (proj2 (proj2
            (disconnect_reconnects
               (TTSClient.connectWebSocket TTSClient.constructor)
               VUndefined VUndefined VUndefined VUndefined
               (ex_intro _ 0%nat eq_refl)))))).
Defined.
